(** * GitManager: the Git layer of the Qt file explorer (src/main.py)

    A shallow embedding of the static methods of [GitManager] and the
    properties of its status parsing, branch listing and mutation
    operations, followed by the handlers of the two dialogs and of the
    main window that call them.

    Python values are modelled as follows.
    - [str] is [string]; a character is a code point below 256, and
      [str.isspace] is Python's on these code points.
    - [subprocess.run] either returns a [CompletedProcess] or raises an
      [Exception] ([FileNotFoundError], [PermissionError],
      [TimeoutExpired], ...), carried as its text [str(e)].  The external
      tool is a function on an abstract world; every invocation is logged
      with its argument vector and its timeout.
    - [try ... except Exception] is the handler of a small
      state-and-exception monad; a [return] inside a guarded statement is
      an optional early result.
    - The file system is a map from path names to what exists there. *)

From Stdlib Require Import String Ascii List ZArith Lia Bool Arith.
From Stdlib Require Import DecimalString.
Import ListNotations.

Local Open Scope string_scope.
Local Open Scope list_scope.

(** ** Python string primitives used by [GitManager] *)

Module PyStr.

(** [str.isspace] on one code point below 256: TAB..CR, FS..US, SPACE,
    NEL (0x85) and NBSP (0xa0). *)
Definition isspace (c : ascii) : bool :=
  let n := nat_of_ascii c in
  (((9 <=? n) && (n <=? 13)) || ((28 <=? n) && (n <=? 32))
   || (n =? 133) || (n =? 160))%nat.

(** Membership of a character in the character set of [lstrip(chars)]. *)
Fixpoint mem_char (c : ascii) (chars : string) : bool :=
  match chars with
  | EmptyString => false
  | String d rest => Ascii.eqb c d || mem_char c rest
  end.

Fixpoint lstrip_by (p : ascii -> bool) (s : string) : string :=
  match s with
  | EmptyString => EmptyString
  | String c rest => if p c then lstrip_by p rest else s
  end.

Fixpoint rstrip_by (p : ascii -> bool) (s : string) : string :=
  match s with
  | EmptyString => EmptyString
  | String c rest =>
      match rstrip_by p rest with
      | EmptyString => if p c then EmptyString else String c EmptyString
      | kept => String c kept
      end
  end.

(** [s.strip()] *)
Definition strip (s : string) : string :=
  rstrip_by isspace (lstrip_by isspace s).

(** [s.lstrip(chars)] *)
Definition lstrip (chars s : string) : string :=
  lstrip_by (fun c => mem_char c chars) s.

(** [s.split(sep)] for a one-character separator; [''.split(sep)] is
    [['']]. *)
Fixpoint split (sep : ascii) (s : string) : list string :=
  match s with
  | EmptyString => [EmptyString]
  | String c rest =>
      if Ascii.eqb c sep then EmptyString :: split sep rest
      else match split sep rest with
           | [] => [String c EmptyString]
           | line :: lines => String c line :: lines
           end
  end.

(** [s.startswith(p)] *)
Definition startswith (s p : string) : bool := String.prefix p s.

(** [s.replace(old, new)] for a non-empty [old]: a left-to-right scan
    over non-overlapping occurrences.  [skip] counts the characters of
    the occurrence just replaced that are still to be passed over. *)
Fixpoint replace_from (old new : string) (skip : nat) (s : string) : string :=
  match s with
  | EmptyString => EmptyString
  | String c rest =>
      match skip with
      | S k => replace_from old new k rest
      | O =>
          if String.prefix old s
          then (new ++ replace_from old new (String.length old - 1) rest)%string
          else String c (replace_from old new 0 rest)
      end
  end.

(** With an empty [old], Python puts [new] around every character. *)
Fixpoint interleave (new s : string) : string :=
  match s with
  | EmptyString => new
  | String c rest => (new ++ String c (interleave new rest))%string
  end.

Definition replace (old new s : string) : string :=
  match old with
  | EmptyString => interleave new s
  | _ => replace_from old new 0 s
  end.

(** [sub in s] *)
Fixpoint contains (sub s : string) : bool :=
  String.prefix sub s ||
  match s with
  | EmptyString => false
  | String _ rest => contains sub rest
  end.

(** [x in xs] on a list of strings *)
Definition mem (x : string) (xs : list string) : bool :=
  existsb (String.eqb x) xs.

(** [sum(1 for x in xs if cond(x))] *)
Definition sum_ones {A : Type} (cond : A -> bool) (xs : list A) : nat :=
  fold_left (fun acc x => if cond x then acc + 1 else acc) xs 0.

Definition newline : ascii := "010"%char.

End PyStr.

Import PyStr.

(** ** The subprocess interface *)

(** [subprocess.CompletedProcess] with [capture_output=True, text=True]. *)
Record CompletedProcess := mkCompleted {
  returncode : Z;
  stdout : string;
  stderr : string
}.

(** A Python computation either yields a value or raises; an exception
    is carried as its text [str(e)]. *)
Inductive Outcome (A : Type) : Type :=
| Value (a : A)
| Raise (e : string).
Arguments Value {A} a.
Arguments Raise {A} e.

(** One [subprocess.run] call: the argument vector and the [timeout]
    keyword, in seconds. *)
Record Call := mkCall {
  argv : list string;
  timeout : nat
}.

(** ** The file system seen by [is_git_repo] *)

Inductive FileKind := Directory | RegularFile.

(** What exists at a path name, if anything. *)
Definition FileSystem := string -> option FileKind.

Fixpoint endswith_char (s : string) (c : ascii) : bool :=
  match s with
  | EmptyString => false
  | String d EmptyString => Ascii.eqb d c
  | String _ rest => endswith_char rest c
  end.

(** [os.path.join(a, b)] of [posixpath] for two components. *)
Definition os_path_join (a b : string) : string :=
  if startswith b "/" then b
  else if String.eqb a "" || endswith_char a "/"%char then (a ++ b)%string
  else (a ++ "/" ++ b)%string.

(** [os.path.isdir]: false for a missing path, never raises. *)
Definition os_path_isdir (fs : FileSystem) (p : string) : bool :=
  match fs p with
  | Some Directory => true
  | _ => false
  end.

Definition is_git_repo (fs : FileSystem) (path : string) : bool :=
  let git_dir := os_path_join path ".git" in
  os_path_isdir fs git_dir.

(** ** The embedding monad: world state, call log and exceptions *)

Section GitManager.

(** The external world (repository, file system, tool installation) and
    the behaviour of [subprocess.run] in it: the call returns a completed
    process or raises ([FileNotFoundError], [PermissionError],
    [TimeoutExpired], ...), and may change the world. *)
Variable World : Type.
Variable tool : list string -> nat -> World -> Outcome CompletedProcess * World.

Record Run (A : Type) := mkRun {
  outcome : Outcome A;
  calls : list Call;
  world : World
}.
Arguments mkRun {A}.
Arguments outcome {A}.
Arguments calls {A}.
Arguments world {A}.

Definition Py (A : Type) : Type := World -> Run A.

Definition ret {A} (a : A) : Py A :=
  fun w => mkRun (Value a) [] w.

Definition bind {A B} (m : Py A) (f : A -> Py B) : Py B :=
  fun w =>
    let r := m w in
    match outcome r with
    | Value a =>
        let r' := f a (world r) in
        mkRun (outcome r') (calls r ++ calls r') (world r')
    | Raise e => mkRun (Raise e) (calls r) (world r)
    end.

(** [try: body except Exception as e: handler(e)] *)
Definition try_except {A} (body : Py A) (handler : string -> Py A) : Py A :=
  fun w =>
    let r := body w in
    match outcome r with
    | Value a => r
    | Raise e =>
        let r' := handler e (world r) in
        mkRun (outcome r') (calls r ++ calls r') (world r')
    end.

(** [subprocess.run(args, capture_output=True, text=True, timeout=t)] *)
Definition subprocess_run (args : list string) (t : nat) : Py CompletedProcess :=
  fun w =>
    let (o, w') := tool args t w in
    mkRun o [mkCall args t] w'.

Notation "x <- m ;; k" := (bind m (fun x => k))
  (at level 61, m at next level, right associativity).
Notation "'try' b 'except' h" := (try_except b h)
  (at level 62, b at level 61, h at level 61).

(** ** Repository Inspector *)

(** [result.returncode == 0] *)
Definition succeeded (result : CompletedProcess) : bool :=
  (returncode result =? 0)%Z.

(** The dictionary returned by [get_repo_status]. *)
Record RepoStatus := mkStatus {
  modified : nat;
  added : nat;
  deleted : nat;
  clean : bool
}.

Definition is_modified (line : string) : bool :=
  startswith line " M" || startswith line "M ".
Definition is_added (line : string) : bool :=
  startswith line "A " || startswith line "??".
Definition is_deleted (line : string) : bool :=
  startswith line " D" || startswith line "D ".

(** [lines = result.stdout.strip().split('\n')] *)
Definition status_lines (out : string) : list string :=
  split newline (strip out).

(** Lines 87-96 of [get_repo_status]: the snapshot built from the
    captured standard output. *)
Definition status_of_output (out : string) : RepoStatus :=
  let lines := status_lines out in
  mkStatus (sum_ones is_modified lines)
           (sum_ones is_added lines)
           (sum_ones is_deleted lines)
           (match lines with
            | [first] => String.eqb first ""
            | _ => false
            end).

(** [if username and email]: both strings are non-empty. *)
Definition truthy (s : string) : bool := negb (String.eqb s "").

Definition is_github_authenticated
  : Py (bool * option string * option string) :=
  try (result <- subprocess_run
                   ["git"; "config"; "--global"; "user.name"] 2 ;;
       let username := strip (stdout result) in
       result <- subprocess_run
                   ["git"; "config"; "--global"; "user.email"] 2 ;;
       let email := strip (stdout result) in
       if truthy username && truthy email
       then ret (true, Some username, Some email)
       else ret (false, None, None))
  except (fun _ => ret (false, None, None)).

Definition get_repo_status (path : string) : Py (option RepoStatus) :=
  try (result <- subprocess_run ["git"; "-C"; path; "status"; "--porcelain"] 5 ;;
       if succeeded result
       then ret (Some (status_of_output (stdout result)))
       else ret None)
  except (fun _ => ret None).

Definition get_current_branch (path : string) : Py (option string) :=
  try (result <- subprocess_run ["git"; "-C"; path; "branch"; "--show-current"] 2 ;;
       if succeeded result
       then ret (Some (strip (stdout result)))
       else ret None)
  except (fun _ => ret None).

Definition get_remote_url (path : string) : Py (option string) :=
  try (result <- subprocess_run ["git"; "-C"; path; "remote"; "get-url"; "origin"] 2 ;;
       if succeeded result
       then ret (Some (strip (stdout result)))
       else ret None)
  except (fun _ => ret None).

Definition has_upstream_branch (path : string) : Py bool :=
  try (result <- subprocess_run
         ["git"; "-C"; path; "rev-parse"; "--abbrev-ref";
          "--symbolic-full-name"; "@{u}"] 2 ;;
       ret (succeeded result && negb (String.eqb (strip (stdout result)) "")))
  except (fun _ => ret false).

(** [branch = line.strip().lstrip('* ').strip()] *)
Definition branch_of_line (line : string) : string :=
  strip (lstrip "* " (strip line)).

(** One iteration of the loop of [get_all_branches], on the list
    [branches] built so far. *)
Definition add_branch_line (branches : list string) (line : string)
  : list string :=
  let branch := branch_of_line line in
  if negb (String.eqb branch "")
     && negb (startswith branch "remotes/origin/HEAD")
  then
    let branch :=
      if startswith branch "remotes/origin/"
      then replace "remotes/origin/" "" branch
      else branch in
    if negb (mem branch branches) then branches ++ [branch] else branches
  else branches.

(** Lines 270-278: the loop over the lines of the captured output. *)
Definition branches_of_output (out : string) : list string :=
  fold_left add_branch_line (split newline (strip out)) [].

Definition get_all_branches (path : string) : Py (list string) :=
  try (result <- subprocess_run ["git"; "-C"; path; "branch"; "-a"] 5 ;;
       if succeeded result
       then ret (branches_of_output (stdout result))
       else ret [])
  except (fun _ => ret []).

(** ** Mutation Operations *)

Definition add_remote (path name url : string) : Py (bool * string) :=
  try (result <- subprocess_run
                   ["git"; "-C"; path; "remote"; "add"; name; url] 5 ;;
       if succeeded result
       then ret (true, "Remote added successfully")
       else ret (false, stderr result))
  except (fun e => ret (false, e)).

Definition set_upstream (path remote_name branch_name : string)
  : Py (bool * string) :=
  try (result <- subprocess_run
                   ["git"; "-C"; path; "branch"; "--set-upstream-to";
                    (remote_name ++ "/" ++ branch_name)%string] 5 ;;
       if succeeded result
       then ret (true, "Upstream set successfully")
       else ret (false, stderr result))
  except (fun e => ret (false, e)).

Definition push_set_upstream (path remote_name branch_name : string)
  : Py (bool * string) :=
  try (result <- subprocess_run
                   ["git"; "-C"; path; "push"; "--set-upstream";
                    remote_name; branch_name] 30 ;;
       if succeeded result
       then ret (true, "Push successful and upstream set")
       else ret (false, stderr result))
  except (fun e => ret (false, e)).

(** A [return] inside the guarded staging step leaves the function at
    once: the step yields [Some] of the returned pair, or [None] when
    control falls through to the next statement. *)
Definition commit_changes (path message : string) (add_all : bool)
  : Py (bool * string) :=
  try (returned <-
         (if add_all
          then
            result <- subprocess_run ["git"; "-C"; path; "add"; "-A"] 5 ;;
            if negb (succeeded result)
            then ret (Some (false,
                            ("Failed to stage files: " ++ stderr result)%string))
            else ret None
          else ret None) ;;
       match returned with
       | Some early => ret early
       | None =>
           result <- subprocess_run
                       ["git"; "-C"; path; "commit"; "-m"; message] 5 ;;
           if succeeded result
           then ret (true, "Commit successful")
           else ret (false, stderr result)
       end)
  except (fun e => ret (false, e)).

Definition push_changes (path : string) : Py (bool * string) :=
  try (result <- subprocess_run ["git"; "-C"; path; "push"] 30 ;;
       if succeeded result
       then ret (true, "Push successful")
       else ret (false, stderr result))
  except (fun e => ret (false, e)).

Definition pull_changes (path : string) : Py (bool * string) :=
  try (result <- subprocess_run ["git"; "-C"; path; "pull"] 30 ;;
       if succeeded result
       then ret (true, "Pull successful")
       else ret (false, stderr result))
  except (fun e => ret (false, e)).

Definition checkout_branch (path branch_name : string) : Py (bool * string) :=
  try (result <- subprocess_run
                   ["git"; "-C"; path; "checkout"; branch_name] 5 ;;
       if succeeded result
       then ret (true, ("Switched to branch '" ++ branch_name ++ "'")%string)
       else ret (false, stderr result))
  except (fun e => ret (false, e)).

Definition create_branch (path branch_name : string) : Py (bool * string) :=
  try (result <- subprocess_run
                   ["git"; "-C"; path; "checkout"; "-b"; branch_name] 5 ;;
       if succeeded result
       then ret (true, ("Created and switched to branch '"
                        ++ branch_name ++ "'")%string)
       else ret (false, stderr result))
  except (fun e => ret (false, e)).

(** [current_branch != old_name], where [current_branch] may be [None]. *)
Definition differs (current_branch : option string) (name : string) : bool :=
  match current_branch with
  | Some b => negb (String.eqb b name)
  | None => true
  end.

Definition rename_branch (path old_name new_name : string)
  : Py (bool * string) :=
  try (current_branch <- get_current_branch path ;;
       returned <-
         (if differs current_branch old_name
          then
            result <- subprocess_run
                        ["git"; "-C"; path; "checkout"; old_name] 5 ;;
            if negb (succeeded result)
            then ret (Some (false,
                            ("Failed to checkout branch: "
                             ++ stderr result)%string))
            else ret None
          else ret None) ;;
       match returned with
       | Some early => ret early
       | None =>
           result <- subprocess_run
                       ["git"; "-C"; path; "branch"; "-m"; new_name] 5 ;;
           if succeeded result
           then ret (true, ("Branch renamed from '" ++ old_name ++ "' to '"
                            ++ new_name ++ "'")%string)
           else ret (false, stderr result)
       end)
  except (fun e => ret (false, e)).

End GitManager.

Arguments mkRun {World A}.
Arguments outcome {World A}.
Arguments calls {World A}.
Arguments world {World A}.
Arguments ret {World A}.
Arguments bind {World A B}.
Arguments try_except {World A}.
Arguments subprocess_run {World}.
Arguments is_github_authenticated {World}.
Arguments get_repo_status {World}.
Arguments get_current_branch {World}.
Arguments get_remote_url {World}.
Arguments has_upstream_branch {World}.
Arguments get_all_branches {World}.
Arguments add_remote {World}.
Arguments set_upstream {World}.
Arguments push_set_upstream {World}.
Arguments commit_changes {World}.
Arguments push_changes {World}.
Arguments pull_changes {World}.
Arguments checkout_branch {World}.
Arguments create_branch {World}.
Arguments rename_branch {World}.

(** ** Vocabulary of the statements *)

(** Every character of [s] satisfies [p]. *)
Fixpoint all_chars (p : ascii -> bool) (s : string) : bool :=
  match s with
  | EmptyString => true
  | String c rest => p c && all_chars p rest
  end.

(** The lines of a captured output as the tool wrote them. *)
Definition output_lines (out : string) : list string := split newline out.

Definition nonempty (line : string) : bool := negb (String.eqb line "").

(** The output reports no status line: every line of it is blank. *)
Definition no_status_lines (out : string) : Prop :=
  Forall (fun line => all_chars isspace line = true) (output_lines out).

(** The two-character prefixes tested on lines 88-90. *)
Definition recognized_prefixes : list string :=
  [" M"; "M "; "A "; "??"; " D"; "D "].

(** How many of the three counters a line is counted in. *)
Definition contribution (line : string) : nat :=
  (if is_modified line then 1 else 0)
  + (if is_added line then 1 else 0)
  + (if is_deleted line then 1 else 0).

(** A line feed as a string, to write captured outputs. *)
Definition LF : string := String newline "".

(** ** Stand-ins for the external tool *)

(** A tool that answers every call with the same outcome. *)
Definition scripted (o : Outcome CompletedProcess)
  : list string -> nat -> unit -> Outcome CompletedProcess * unit :=
  fun _ _ w => (o, w).

(** A tool that replays a list of outcomes, one per call; when the list
    is used up the launch fails. *)
Definition replay
  : list string -> nat -> list (Outcome CompletedProcess)
    -> Outcome CompletedProcess * list (Outcome CompletedProcess) :=
  fun _ _ script =>
    match script with
    | o :: rest => (o, rest)
    | [] => (Raise "[Errno 2] No such file or directory: 'git'", [])
    end.

(** The name one output line contributes to the branch list, if any:
    the test of line 273 and the renaming of lines 274-275. *)
Definition listed_name (line : string) : option string :=
  let branch := branch_of_line line in
  if negb (String.eqb branch "")
     && negb (startswith branch "remotes/origin/HEAD")
  then Some (if startswith branch "remotes/origin/"
             then replace "remotes/origin/" "" branch
             else branch)
  else None.

(** Lines 276-277: append a name that is not in the list yet. *)
Definition append_new (branches : list string) (branch : string)
  : list string :=
  if negb (mem branch branches) then branches ++ [branch] else branches.

(** The names contributed by the lines, in line order, repeats kept. *)
Definition candidates (lines : list string) : list string :=
  flat_map (fun line => match listed_name line with
                        | Some b => [b]
                        | None => []
                        end) lines.


(** ** Shapes shared by the mutation operations *)

Section Shapes.

Context {World : Type}.
Variable tool : list string -> nat -> World -> Outcome CompletedProcess * World.

(** A run with further calls logged in front of its own. *)
Definition prepend {A} (before : list Call) (r : Run World A) : Run World A :=
  mkRun (outcome r) (before ++ calls r) (world r).

(** What a mutation reports for the outcome of its last command. *)
Definition mutation_result (ok_message : string)
  (o : Outcome CompletedProcess) : bool * string :=
  match o with
  | Value result =>
      if succeeded result then (true, ok_message) else (false, stderr result)
  | Raise e => (false, e)
  end.

(** The body of the seven one-command mutations, with the command, the
    timeout and the success message left open. *)
Definition run_mutation (args : list string) (t : nat) (ok_message : string)
  : World -> Run World (bool * string) :=
  try_except
    (bind (subprocess_run tool args t) (fun result =>
       if succeeded result
       then ret (true, ok_message)
       else ret (false, stderr result)))
    (fun e => ret (false, e)).

(** The statements that [commit_changes] and [rename_branch] share: an
    optional first command whose failure returns early with a prefixed
    diagnostic, then the main command. *)
Definition guarded_steps (guard : bool)
  (args1 : list string) (t1 : nat) (failure_prefix : string)
  (args2 : list string) (t2 : nat) (ok_message : string)
  : World -> Run World (bool * string) :=
  bind
    (if guard
     then bind (subprocess_run tool args1 t1) (fun result =>
            if negb (succeeded result)
            then ret (Some (false, (failure_prefix ++ stderr result)%string))
            else ret None)
     else ret None)
    (fun returned =>
       match returned with
       | Some early => ret early
       | None =>
           bind (subprocess_run tool args2 t2) (fun result =>
             if succeeded result
             then ret (true, ok_message)
             else ret (false, stderr result))
       end).

(** The value of a query that never raises. *)
Definition value_of {A} (default : A) (r : Run World A) : A :=
  match outcome r with
  | Value a => a
  | Raise _ => default
  end.

End Shapes.

(** The nine mutation operations as one family. *)
Inductive Mutation :=
| AddRemote (path name url : string)
| SetUpstream (path remote_name branch_name : string)
| PushSetUpstream (path remote_name branch_name : string)
| Commit (path message : string) (add_all : bool)
| Push (path : string)
| Pull (path : string)
| CheckoutBranch (path branch_name : string)
| CreateBranch (path branch_name : string)
| RenameBranch (path old_name new_name : string).

Definition perform {World : Type}
  (tool : list string -> nat -> World -> Outcome CompletedProcess * World)
  (m : Mutation) : World -> Run World (bool * string) :=
  match m with
  | AddRemote path name url => add_remote tool path name url
  | SetUpstream path r b => set_upstream tool path r b
  | PushSetUpstream path r b => push_set_upstream tool path r b
  | Commit path message add_all => commit_changes tool path message add_all
  | Push path => push_changes tool path
  | Pull path => pull_changes tool path
  | CheckoutBranch path b => checkout_branch tool path b
  | CreateBranch path b => create_branch tool path b
  | RenameBranch path o n => rename_branch tool path o n
  end.

(** ** A small model of the tool's branch commands

    Enough of [git branch --show-current], [git checkout <name>] and
    [git branch -m <name>] to run the branch operations on: a repository
    is its checked-out branch and its branch names. *)

Record Repo := mkRepo {
  checked_out : string;
  branch_names : list string
}.

Definition unsupported (r : Repo) : Outcome CompletedProcess * Repo :=
  (Value (mkCompleted 1 "" "git: unsupported command"), r).

Definition git (args : list string) (t : nat) (r : Repo)
  : Outcome CompletedProcess * Repo :=
  match args with
  | [_; _; _; a; b] =>
      if String.eqb a "branch" && String.eqb b "--show-current"
      then (Value (mkCompleted 0 (checked_out r ++ LF) ""), r)
      else if String.eqb a "checkout"
      then if mem b (branch_names r)
           then (Value (mkCompleted 0 "" ""), mkRepo b (branch_names r))
           else (Value (mkCompleted 1 ""
                   ("error: pathspec '" ++ b ++ "' did not match")), r)
      else unsupported r
  | [_; _; _; a; b; c] =>
      if String.eqb a "branch" && String.eqb b "-m"
      then if mem c (branch_names r)
           then (Value (mkCompleted 128 ""
                   ("fatal: a branch named '" ++ c ++ "' already exists")), r)
           else (Value (mkCompleted 0 "" ""),
                 mkRepo c (map (fun n => if String.eqb n (checked_out r)
                                         then c else n)
                               (branch_names r)))
      else unsupported r
  | _ => unsupported r
  end.

(** The timeout a mutation passes to its own commands. *)
Definition tier (m : Mutation) : nat :=
  match m with
  | PushSetUpstream _ _ _ | Push _ | Pull _ => 30
  | _ => 5
  end.

(** The commands a mutation issues itself: for [rename_branch], the log
    without the current-branch query it starts with. *)
Definition own_calls (m : Mutation) (log : list Call) : list Call :=
  match m with
  | RenameBranch _ _ _ => tl log
  | _ => log
  end.

(** Mutations that run exactly one command. *)
Definition single_command (m : Mutation) : bool :=
  match m with
  | Commit _ _ true | RenameBranch _ _ _ => false
  | _ => true
  end.

(** The outcome of the last call of a log, replayed from the world in
    which the log was started. *)
Fixpoint last_outcome {World : Type}
  (tool : list string -> nat -> World -> Outcome CompletedProcess * World)
  (log : list Call) (w : World) : option (Outcome CompletedProcess) :=
  match log with
  | [] => None
  | c :: rest =>
      let r := tool (argv c) (timeout c) w in
      match rest with
      | [] => Some (fst r)
      | _ => last_outcome tool rest (snd r)
      end
  end.

(** The outcomes of the calls of a log, in order, replayed from the
    world in which the log was started. *)
Fixpoint outcomes {World : Type}
  (tool : list string -> nat -> World -> Outcome CompletedProcess * World)
  (log : list Call) (w : World) : list (Outcome CompletedProcess) :=
  match log with
  | [] => []
  | c :: rest =>
      let r := tool (argv c) (timeout c) w in
      fst r :: outcomes tool rest (snd r)
  end.

(** A call of the tool failed: it raised, or exited with a non-zero
    code. *)
Definition failed (o : Outcome CompletedProcess) : Prop :=
  match o with
  | Value result => succeeded result = false
  | Raise _ => True
  end.

(** ** Further vocabulary: the mutations' paths and messages *)

(** The repository path a mutation is called with. *)
Definition path_of (m : Mutation) : string :=
  match m with
  | AddRemote path _ _ | SetUpstream path _ _ | PushSetUpstream path _ _
  | Commit path _ _ | Push path | Pull path
  | CheckoutBranch path _ | CreateBranch path _ | RenameBranch path _ _ => path
  end.

(** The message a mutation returns with [True]. *)
Definition success_message (m : Mutation) : string :=
  match m with
  | AddRemote _ _ _ => "Remote added successfully"
  | SetUpstream _ _ _ => "Upstream set successfully"
  | PushSetUpstream _ _ _ => "Push successful and upstream set"
  | Commit _ _ _ => "Commit successful"
  | Push _ => "Push successful"
  | Pull _ => "Pull successful"
  | CheckoutBranch _ b => "Switched to branch '" ++ b ++ "'"
  | CreateBranch _ b => "Created and switched to branch '" ++ b ++ "'"
  | RenameBranch _ o n => "Branch renamed from '" ++ o ++ "' to '" ++ n ++ "'"
  end.

(** The call runs the tool in the working context [path]:
    [git -C path ...]. *)
Definition runs_in (path : string) (c : Call) : Prop :=
  exists rest, argv c = "git" :: "-C" :: path :: rest.

(** The result a two-step body or a one-command body returns for the
    outcome of the last command, where [pre] is the prefix put before
    the diagnostic of a failed first step. *)
Definition decided_by (ok pre : string) (o : option (Outcome CompletedProcess))
  (result : Outcome (bool * string)) : Prop :=
  match o with
  | Some (Value cp) =>
      result = Value (if succeeded cp then (true, ok)
                      else (false, (pre ++ stderr cp)%string))
  | Some (Raise e) => result = Value (false, e)
  | None => False
  end.

(** A branch name as the tool prints it: not empty, no white space at
    either end, no leading [*], not beginning with [HEAD] and without
    [remotes/origin/] inside. *)
Definition plain_name (n : string) : Prop :=
  n <> ""
  /\ lstrip_by isspace n = n /\ rstrip_by isspace n = n
  /\ lstrip "* " n = n
  /\ startswith n "HEAD" = false
  /\ contains "remotes/origin/" n = false.

(** The columns before a name in the tool's branch list: spaces and the
    current-branch marker. *)
Definition padding (pad : string) : Prop :=
  all_chars (fun c => mem_char c "* ") pad = true.

(** ** The dialogs and the main window

    The methods of [GitRemoteDialog], [GitCommitDialog] and
    [FileExplorer] that drive [GitManager].  What a method does to the
    toolkit is logged as an event, in order, next to the commands that
    [GitManager] runs; what it reads from the toolkit (the text of an
    input field, the state of a check box, the answer to a question) is
    an argument.  A toolkit call returns normally, except where a
    [None] is passed for a text, which is left open.  The handlers are
    entered from the toolkit one at a time: the only signal a handler
    can set off itself is the selector's, from a [clear()] with the
    signals not blocked, and it calls [on_branch_changed] with the
    empty text, which returns at once.  Characters above code point 255
    in a literal are written as their UTF-8 bytes. *)

Inductive Box := Warning | Critical | Information | Question.

Inductive Control :=
| BranchCombo | NewBranchButton | RenameBranchButton
| ActionGitCommit | ActionGitPull | ActionGitPush.

Inductive Event :=
| Ran (c : Call)
| MessageBox (kind : Box) (title text : string)
| GetText (title label initial : string)
| Accept
| ShowMessage (text : string)
| SetLabel (text : string)
| BlockSignals (on : bool)
| Clear
| AddItems (items : list string)
| SetCurrentText (text : option string)
| SetEnabled (c : Control) (on : bool).

(** [str(n)] for a non-negative integer. *)
Definition str_of_nat (n : nat) : string :=
  NilZero.string_of_uint (Nat.to_uint n).

(** [str(x)] inside an f-string, for a value that is a string or
    [None]. *)
Definition str_of_option (x : option string) : string :=
  match x with
  | Some s => s
  | None => "None"
  end.

(** [s.rfind(c)] for a one-character [c]: the highest index at which
    [c] occurs, or -1. *)
Fixpoint rfind (s : string) (c : ascii) : Z :=
  match s with
  | EmptyString => (-1)%Z
  | String d rest =>
      let i := rfind rest c in
      if (0 <=? i)%Z then (i + 1)%Z
      else if Ascii.eqb d c then 0%Z else (-1)%Z
  end.

(** [s[i:]] for [i >= 0]. *)
Fixpoint slice_from (i : nat) (s : string) : string :=
  match i, s with
  | O, _ => s
  | S j, String _ rest => slice_from j rest
  | S _, EmptyString => EmptyString
  end.

(** [os.path.basename(p)] of [posixpath]: what follows the last
    slash. *)
Definition os_path_basename (p : string) : string :=
  let i := (rfind p "/" + 1)%Z in
  slice_from (Z.to_nat i) p.

(** The commands among the events, in order. *)
Fixpoint commands (evs : list Event) : list Call :=
  match evs with
  | [] => []
  | Ran c :: rest => c :: commands rest
  | _ :: rest => commands rest
  end.

(** [self.accept()] is among the events. *)
Fixpoint accepted (evs : list Event) : bool :=
  match evs with
  | [] => false
  | Accept :: _ => true
  | _ :: rest => accepted rest
  end.

(** The events that touch the toolkit: all but the commands. *)
Fixpoint toolkit (evs : list Event) : list Event :=
  match evs with
  | [] => []
  | Ran _ :: rest => toolkit rest
  | e :: rest => e :: toolkit rest
  end.

(** The outcome and the events of a method, and the world it leaves. *)
Record Shown (World A : Type) := mkShown {
  returned : Outcome A;
  events : list Event;
  final : World
}.
Arguments mkShown {World A}.
Arguments returned {World A}.
Arguments events {World A}.
Arguments final {World A}.

Definition Ui (World A : Type) : Type := World -> Shown World A.

Definition pure {World A} (a : A) : Ui World A :=
  fun w => mkShown (Value a) [] w.

Definition then_ {World A B} (m : Ui World A) (k : A -> Ui World B)
  : Ui World B :=
  fun w =>
    let r := m w in
    match returned r with
    | Value a =>
        let r' := k a (final r) in
        mkShown (returned r') (events r ++ events r') (final r')
    | Raise e => mkShown (Raise e) (events r) (final r)
    end.

(** A toolkit call that returns nothing. *)
Definition emit {World} (e : Event) : Ui World unit :=
  fun w => mkShown (Value tt) [e] w.

(** A call of a [GitManager] method that runs commands. *)
Definition lift {World A} (m : World -> Run World A) : Ui World A :=
  fun w => let r := m w in mkShown (outcome r) (map Ran (calls r)) (world r).

(** A run with further events logged in front of its own. *)
Definition before {World A} (evs : list Event) (r : Shown World A)
  : Shown World A :=
  mkShown (returned r) (evs ++ events r) (final r).

Declare Scope ui_scope.
Delimit Scope ui_scope with ui.
Notation "x <- m ;; k" := (then_ m (fun x => k))
  (at level 61, m at next level, right associativity) : ui_scope.
Notation "m ;;; k" := (then_ m (fun _ => k))
  (at level 61, right associativity) : ui_scope.

Module GitRemoteDialog.
Section Methods.

Context {World : Type}.
Variable tool : list string -> nat -> World -> Outcome CompletedProcess * World.

Local Open Scope ui_scope.

(** [self] is the repository path, the two line edits and the check
    box. *)
Definition add_remote
  (repo_path remote_name_edit remote_url_edit : string)
  (set_upstream_checkbox : bool) : Ui World unit :=
  let remote_name := strip remote_name_edit in
  let remote_url := strip remote_url_edit in
  if negb (truthy remote_name)
  then emit (MessageBox Warning "Missing Name" "Please enter a remote name.")
  else if negb (truthy remote_url)
  then emit (MessageBox Warning "Missing URL" "Please enter a remote URL.")
  else
    added <- lift (add_remote tool repo_path remote_name remote_url) ;;
    let (success, result) := added in
    if negb success
    then emit (MessageBox Critical "Failed"
                 ("Failed to add remote:" ++ LF ++ result))
    else
      returned_early <-
        (if set_upstream_checkbox
         then
           branch <- lift (get_current_branch tool repo_path) ;;
           match branch with
           | Some name =>
               if truthy name
               then
                 set <- lift (set_upstream tool repo_path remote_name name) ;;
                 let (success, result) := set in
                 if negb success
                 then
                   emit (MessageBox Warning "Upstream Failed"
                           ("Remote added but failed to set upstream:"
                            ++ LF ++ result)) ;;;
                   emit Accept ;;;
                   pure true
                 else pure false
               else pure false
           | None => pure false
           end
         else pure false) ;;
      if returned_early : bool
      then pure tt
      else
        emit (MessageBox Information "Success"
                ("Remote '" ++ remote_name ++ "' added successfully!")) ;;;
        emit Accept.

End Methods.
End GitRemoteDialog.

Module GitCommitDialog.
Section Methods.

Context {World : Type}.
Variable tool : list string -> nat -> World -> Outcome CompletedProcess * World.

(** The text of the [TypeError] that [subprocess.run] raises for an
    argument that is [None]. *)
Variable none_argument : string.

Local Open Scope ui_scope.

(** [GitManager.push_set_upstream(self.repo_path, "origin", branch)]
    where [branch] may be [None]: [subprocess.run] then raises a
    [TypeError] before a process is started, and the method returns
    [(False, str(e))]. *)
Definition push_set_upstream_to (repo_path : string) (branch : option string)
  : Ui World (bool * string) :=
  match branch with
  | Some name => lift (push_set_upstream tool repo_path "origin" name)
  | None => pure (false, none_argument)
  end.

(** [self] is the repository path, the message edit and the two check
    boxes; [reply_yes] is the answer to the question of line 624, when
    it is asked. *)
Definition commit
  (repo_path message_edit : string) (add_all_checkbox push_checkbox : bool)
  (reply_yes : bool) : Ui World unit :=
  let message := strip message_edit in
  if negb (truthy message)
  then emit (MessageBox Warning "Empty Message"
               "Please enter a commit message.")
  else
    committed <- lift (commit_changes tool repo_path message add_all_checkbox) ;;
    let (success, result) := committed in
    if negb success
    then emit (MessageBox Critical "Commit Failed"
                 ("Failed to commit:" ++ LF ++ result))
    else
      returned_early <-
        (if push_checkbox
         then
           has_upstream <- lift (has_upstream_branch tool repo_path) ;;
           if negb has_upstream
           then
             branch <- lift (get_current_branch tool repo_path) ;;
             emit (MessageBox Question "Set Upstream Branch"
                     ("The branch '" ++ str_of_option branch
                      ++ "' has no upstream branch." ++ LF ++ LF
                      ++ "Do you want to set 'origin/" ++ str_of_option branch
                      ++ "' as the upstream branch?")) ;;;
             if reply_yes
             then
               pushed <- push_set_upstream_to repo_path branch ;;
               let (success, result) := pushed in
               if negb success
               then
                 emit (MessageBox Critical "Push Failed"
                         ("Failed to push and set upstream:" ++ LF ++ result)) ;;;
                 pure true
               else
                 emit (MessageBox Information "Success"
                         ("Changes committed and pushed successfully!" ++ LF
                          ++ "Upstream branch has been set.")) ;;;
                 pure false
             else
               pushed <- lift (push_changes tool repo_path) ;;
               let (success, result) := pushed in
               (if negb success
                then emit (MessageBox Warning "Push Failed"
                             ("Commit succeeded but push failed:"
                              ++ LF ++ result))
                else emit (MessageBox Information "Success"
                             "Changes committed and pushed successfully!")) ;;;
               pure false
           else
             pushed <- lift (push_changes tool repo_path) ;;
             let (success, result) := pushed in
             (if negb success
              then emit (MessageBox Warning "Push Failed"
                           ("Commit succeeded but push failed:"
                            ++ LF ++ result))
              else emit (MessageBox Information "Success"
                           "Changes committed and pushed successfully!")) ;;;
             pure false
         else
           emit (MessageBox Information "Success"
                   "Changes committed successfully!") ;;;
           pure false) ;;
      if returned_early : bool then pure tt else emit Accept.

End Methods.
End GitCommitDialog.

Module FileExplorer.
Section Methods.

Context {World : Type}.
Variable tool : list string -> nat -> World -> Outcome CompletedProcess * World.

(** The file system as it is in a world. *)
Variable fs_of : World -> FileSystem.

(** What [setCurrentText(None)] does in the toolkit binding. *)
Variable set_current_text_none : Outcome unit.

Local Open Scope ui_scope.

(** The fields of [self] that the methods read. *)
Record Window := mkWindow {
  current_path : string;
  history : list string;
  is_authenticated : bool;
  git_username : option string
}.

(** *** Navigation

    What the navigation handlers assign to [self.history] and
    [self.current_path].  The toolkit calls that follow the assignments
    in each handler (the view's root index, the path bar with the
    breadcrumbs and the Git buttons, the status message) assign to
    neither and are left out; [fs] is the file system at the time of
    the call. *)

(** Lines 1259-1261. *)
Definition _on_breadcrumb_clicked (fs : FileSystem) (self : Window)
  (path : string) : Window :=
  if os_path_isdir fs path
  then mkWindow path (history self ++ [current_path self])
         (is_authenticated self) (git_username self)
  else self.

(** Lines 1268-1269: [self.history.pop()] takes the last entry. *)
Definition go_back (self : Window) : Window :=
  match history self with
  | [] => self
  | _ :: _ =>
      mkWindow (last (history self) "") (removelast (history self))
        (is_authenticated self) (git_username self)
  end.

(** Lines 1275-1277; [home] is [QDir.homePath()]. *)
Definition go_home (home : string) (self : Window) : Window :=
  if negb (String.eqb (current_path self) home)
  then mkWindow home (history self ++ [current_path self])
         (is_authenticated self) (git_username self)
  else self.

(** Lines 1283-1286; [path] is the file path of the index.  Opening a
    file assigns nothing. *)
Definition on_double_click (fs : FileSystem) (self : Window)
  (path : string) : Window :=
  if os_path_isdir fs path
  then mkWindow path (history self ++ [current_path self])
         (is_authenticated self) (git_username self)
  else self.

(** Lines 1522-1526; [data] is the path stored in the current item:
    [None] without a current item or for an item without data. *)
Definition sidebar_navigate (self : Window) (data : option string)
  : Window :=
  match data with
  | Some path =>
      if truthy path
      then mkWindow path (history self ++ [current_path self])
             (is_authenticated self) (git_username self)
      else self
  | None => self
  end.

(** Lines 1540-1543; [path_bar] is the text of the path bar. *)
Definition on_path_bar_entered (fs : FileSystem) (self : Window)
  (path_bar : string) : Window :=
  let path := strip path_bar in
  if os_path_isdir fs path
  then mkWindow path (history self ++ [current_path self])
         (is_authenticated self) (git_username self)
  else self.

(** [GitManager.is_git_repo(path)] *)
Definition is_repo (path : string) : Ui World bool :=
  fun w => mkShown (Value (is_git_repo (fs_of w) path)) [] w.

(** [self.branch_combo.setCurrentText(text)] *)
Definition set_current_text (text : option string) : Ui World unit :=
  match text with
  | Some _ => emit (SetCurrentText text)
  | None => fun w => mkShown set_current_text_none [SetCurrentText None] w
  end.

(** Lines 1028-1030 and 1019-1022: the selector and its buttons are
    cleared and disabled. *)
Definition update_branch_selector (self : Window) : Ui World unit :=
  repo <- is_repo (current_path self) ;;
  if negb repo
  then
    emit Clear ;;;
    emit (SetEnabled BranchCombo false) ;;;
    emit (SetEnabled NewBranchButton false) ;;;
    emit (SetEnabled RenameBranchButton false)
  else
    current_branch <- lift (get_current_branch tool (current_path self)) ;;
    branches <- lift (get_all_branches tool (current_path self)) ;;
    emit (BlockSignals true) ;;;
    emit Clear ;;;
    (match branches with
     | _ :: _ =>
         emit (AddItems branches) ;;;
         (match current_branch with
          | Some b => if mem b branches
                      then emit (SetCurrentText current_branch)
                      else pure tt
          | None => pure tt
          end) ;;;
         emit (SetEnabled BranchCombo true) ;;;
         emit (SetEnabled NewBranchButton true) ;;;
         emit (SetEnabled RenameBranchButton true)
     | [] =>
         emit (SetEnabled BranchCombo false) ;;;
         emit (SetEnabled NewBranchButton false) ;;;
         emit (SetEnabled RenameBranchButton false)
     end) ;;;
    emit (BlockSignals false).

Definition update_git_status_display (self : Window) : Ui World unit :=
  let auth_text :=
    if is_authenticated self
    then ("<span style='color: #50fa7b;'>● Git: "
          ++ str_of_option (git_username self) ++ "</span>")%string
    else "<span style='color: #ff5555;'>● Git: Not configured</span>" in
  repo <- is_repo (current_path self) ;;
  if repo
  then
    branch <- lift (get_current_branch tool (current_path self)) ;;
    status <- lift (get_repo_status tool (current_path self)) ;;
    let repo_text :=
      match status with
      | Some st =>
          let changes :=
            ("M:" ++ str_of_nat (modified st)
             ++ " A:" ++ str_of_nat (added st)
             ++ " D:" ++ str_of_nat (deleted st))%string in
          (" | <span style='color: #8be9fd;'>Branch: " ++ str_of_option branch
           ++ "</span> | " ++ changes)%string
      | None =>
          (" | <span style='color: #8be9fd;'>Branch: " ++ str_of_option branch
           ++ "</span>")%string
      end in
    emit (SetLabel (auth_text ++ repo_text)) ;;;
    update_branch_selector self
  else
    emit (SetLabel auth_text) ;;;
    emit Clear ;;;
    emit (SetEnabled BranchCombo false) ;;;
    emit (SetEnabled NewBranchButton false) ;;;
    emit (SetEnabled RenameBranchButton false).

(** [reply_yes] is the answer to the question, when it is asked. *)
Definition on_branch_changed (self : Window) (branch_name : string)
  (reply_yes : bool) : Ui World unit :=
  if negb (truthy branch_name)
  then pure tt
  else
    repo <- is_repo (current_path self) ;;
    if negb repo
    then pure tt
    else
      current_branch <- lift (get_current_branch tool (current_path self)) ;;
      if negb (differs current_branch branch_name)
      then pure tt
      else
        emit (MessageBox Question "Switch Branch"
                ("Switch from '" ++ str_of_option current_branch ++ "' to '"
                 ++ branch_name ++ "'?")) ;;;
        if reply_yes
        then
          switched <- lift (checkout_branch tool (current_path self)
                              branch_name) ;;
          let (success, result) := switched in
          if success
          then
            emit (ShowMessage result) ;;;
            update_git_status_display self
          else
            emit (MessageBox Critical "Checkout Failed"
                    ("Failed to switch branch:" ++ LF ++ result)) ;;;
            emit (BlockSignals true) ;;;
            set_current_text current_branch ;;;
            emit (BlockSignals false)
        else
          emit (BlockSignals true) ;;;
          set_current_text current_branch ;;;
          emit (BlockSignals false).

(** [text] and [ok] are what [QInputDialog.getText] returns. *)
Definition create_new_branch (self : Window) (text : string) (ok : bool)
  : Ui World unit :=
  repo <- is_repo (current_path self) ;;
  if negb repo
  then pure tt
  else
    emit (GetText "Create New Branch" "Enter new branch name:" "") ;;;
    if ok && truthy text
    then
      let branch_name := strip text in
      if negb (truthy branch_name)
      then emit (MessageBox Warning "Invalid Name"
                   "Branch name cannot be empty.")
      else
        created <- lift (create_branch tool (current_path self) branch_name) ;;
        let (success, result) := created in
        if success
        then
          emit (MessageBox Information "Success" result) ;;;
          update_git_status_display self
        else
          emit (MessageBox Critical "Failed"
                  ("Failed to create branch:" ++ LF ++ result))
    else pure tt.

Definition rename_current_branch (self : Window) (text : string) (ok : bool)
  : Ui World unit :=
  repo <- is_repo (current_path self) ;;
  if negb repo
  then pure tt
  else
    current_branch <- lift (get_current_branch tool (current_path self)) ;;
    match current_branch with
    | None =>
        emit (MessageBox Warning "No Branch"
                "Could not determine current branch.")
    | Some current =>
        if negb (truthy current)
        then emit (MessageBox Warning "No Branch"
                     "Could not determine current branch.")
        else
          emit (GetText "Rename Branch" ("Rename '" ++ current ++ "' to:")
                  current) ;;;
          if ok && truthy text
          then
            let new_name := strip text in
            if negb (truthy new_name)
            then emit (MessageBox Warning "Invalid Name"
                         "Branch name cannot be empty.")
            else if String.eqb new_name current
            then pure tt
            else
              renamed <- lift (rename_branch tool (current_path self)
                                 current new_name) ;;
              let (success, result) := renamed in
              if success
              then
                emit (MessageBox Information "Success" result) ;;;
                update_git_status_display self
              else
                emit (MessageBox Critical "Failed"
                        ("Failed to rename branch:" ++ LF ++ result))
          else pure tt
    end.

Definition update_git_buttons (self : Window) : Ui World unit :=
  is_git_repo <- is_repo (current_path self) ;;
  emit (SetEnabled ActionGitCommit is_git_repo) ;;;
  emit (SetEnabled ActionGitPull is_git_repo) ;;;
  emit (SetEnabled ActionGitPush is_git_repo) ;;;
  update_git_status_display self.

Definition git_pull (self : Window) (reply_yes : bool) : Ui World unit :=
  repo <- is_repo (current_path self) ;;
  if negb repo
  then pure tt
  else
    emit (MessageBox Question "Git Pull"
            "Pull changes from remote repository?") ;;;
    if reply_yes
    then
      pulled <- lift (pull_changes tool (current_path self)) ;;
      let (success, result) := pulled in
      (if success
       then emit (MessageBox Information "Success"
                    "Changes pulled successfully!")
       else emit (MessageBox Critical "Pull Failed"
                    ("Failed to pull changes:" ++ LF ++ result))) ;;;
      update_git_status_display self
    else pure tt.

Definition git_push (self : Window) (reply_yes : bool) : Ui World unit :=
  repo <- is_repo (current_path self) ;;
  if negb repo
  then pure tt
  else
    emit (MessageBox Question "Git Push"
            "Push changes to remote repository?") ;;;
    if reply_yes
    then
      pushed <- lift (push_changes tool (current_path self)) ;;
      let (success, result) := pushed in
      (if success
       then emit (MessageBox Information "Success"
                    "Changes pushed successfully!")
       else emit (MessageBox Critical "Push Failed"
                    ("Failed to push changes:" ++ LF ++ result))) ;;;
      update_git_status_display self
    else pure tt.

(** The pull of the context menu, for the repository at [path]. *)
Definition git_pull_for_path (self : Window) (path : string)
  (reply_yes : bool) : Ui World unit :=
  emit (MessageBox Question "Git Pull"
          ("Pull changes for " ++ os_path_basename path ++ "?")) ;;;
  if reply_yes
  then
    pulled <- lift (pull_changes tool path) ;;
    let (success, result) := pulled in
    (if success
     then emit (MessageBox Information "Success"
                  "Changes pulled successfully!")
     else emit (MessageBox Critical "Pull Failed"
                  ("Failed to pull changes:" ++ LF ++ result))) ;;;
    update_git_status_display self
  else pure tt.

(** The push of the context menu, for the repository at [path]. *)
Definition git_push_for_path (self : Window) (path : string)
  (reply_yes : bool) : Ui World unit :=
  emit (MessageBox Question "Git Push"
          ("Push changes for " ++ os_path_basename path ++ "?")) ;;;
  if reply_yes
  then
    pushed <- lift (push_changes tool path) ;;
    let (success, result) := pushed in
    (if success
     then emit (MessageBox Information "Success"
                  "Changes pushed successfully!")
     else emit (MessageBox Critical "Push Failed"
                  ("Failed to push changes:" ++ LF ++ result))) ;;;
    update_git_status_display self
  else pure tt.

End Methods.
End FileExplorer.

(** A navigation of the window other than going back: a path entered
    in the path bar, a breadcrumb, a double click, a place of the side
    bar or the home button. *)
Inductive Move :=
| PathBarEntered (path_bar : string)
| BreadcrumbClicked (path : string)
| DoubleClicked (path : string)
| SidebarPicked (data : option string)
| HomeClicked.

(** The handler of a move, in a file system that does not change and
    with [home] as the home directory. *)
Definition handle (fs : FileSystem) (home : string)
  (self : FileExplorer.Window) (m : Move) : FileExplorer.Window :=
  match m with
  | PathBarEntered path_bar => FileExplorer.on_path_bar_entered fs self path_bar
  | BreadcrumbClicked path => FileExplorer._on_breadcrumb_clicked fs self path
  | DoubleClicked path => FileExplorer.on_double_click fs self path
  | SidebarPicked data => FileExplorer.sidebar_navigate self data
  | HomeClicked => FileExplorer.go_home home self
  end.

(** The command is a push: its verb, after [git -C path], is [push]. *)
Definition is_push (c : Call) : bool :=
  match argv c with
  | _ :: _ :: _ :: verb :: _ => String.eqb verb "push"
  | _ => false
  end.

(** The word of a command after [git -C path]. *)
Definition verb (c : Call) : string :=
  match argv c with
  | _ :: _ :: _ :: v :: _ => v
  | _ => ""
  end.

(** The command is one of the three that the display is refreshed
    with: it asks the repository at [path] for the current branch, the
    status or the branch list. *)
Definition reads_only (path : string) (c : Call) : Prop :=
  In c [mkCall ["git"; "-C"; path; "branch"; "--show-current"] 2;
        mkCall ["git"; "-C"; path; "status"; "--porcelain"] 5;
        mkCall ["git"; "-C"; path; "branch"; "-a"] 5].

(** ** The definitions on concrete inputs *)

Example basename_of_directory :
  os_path_basename "/home/user/project" = "project".
Proof. reflexivity. Qed.

Example basename_after_trailing_slash :
  os_path_basename "/home/user/project/" = "".
Proof. reflexivity. Qed.

Example strip_both_ends : strip ("  a b  " ++ LF) = "a b".
Proof. reflexivity. Qed.

Example split_keeps_empty_lines :
  split newline ("a" ++ LF ++ LF ++ "b" ++ LF) = ["a"; ""; "b"; ""].
Proof. reflexivity. Qed.

Example split_of_empty : split newline "" = [""].
Proof. reflexivity. Qed.

Example replace_all_occurrences : replace "ab" "X" "zababab" = "zXXX".
Proof. reflexivity. Qed.

Example replace_is_one_pass :
  replace "remotes/origin/" ""
    "remotes/origin/remotes/remotes/origin/origin/x"
  = "remotes/origin/x".
Proof. reflexivity. Qed.

Example branch_of_current_line : branch_of_line "* main" = "main".
Proof. reflexivity. Qed.

Example status_of_typical_output :
  status_of_output
    ("M  a.py" ++ LF ++ " M b.py" ++ LF ++ "?? c.py" ++ LF ++ " D d.py" ++ LF
     ++ "R  e.py -> f.py" ++ LF)
  = mkStatus 2 1 1 false.
Proof. reflexivity. Qed.

Example branches_of_typical_output :
  branches_of_output
    ("* main" ++ LF ++ "  dev" ++ LF
     ++ "  remotes/origin/HEAD -> origin/main" ++ LF
     ++ "  remotes/origin/main" ++ LF ++ "  remotes/origin/feature" ++ LF)
  = ["main"; "dev"; "feature"].
Proof. reflexivity. Qed.

Example join_marker : os_path_join "/home/u/repo" ".git" = "/home/u/repo/.git".
Proof. reflexivity. Qed.

(** ** Facts about the string primitives *)

Section StringFacts.

Lemma prefix_cons (x a : ascii) (p s : string) :
  String.prefix (String x p) (String a s)
  = Ascii.eqb x a && String.prefix p s.
Proof.
  simpl. destruct (ascii_dec x a) as [->|Hne].
  - now rewrite Ascii.eqb_refl.
  - apply Ascii.eqb_neq in Hne. now rewrite Hne.
Qed.

Lemma prefix_empty (s : string) : String.prefix "" s = true.
Proof. now destruct s. Qed.

Lemma prefix_app (p s : string) : String.prefix p (p ++ s) = true.
Proof.
  induction p as [|c p IH]; simpl.
  - apply prefix_empty.
  - destruct (ascii_dec c c); [exact IH | congruence].
Qed.

Lemma prefix_inv (p s : string) :
  String.prefix p s = true -> exists rest, s = (p ++ rest)%string.
Proof.
  revert s. induction p as [|c p IH]; intros s H.
  - exists s. reflexivity.
  - destruct s as [|a s]; [discriminate|].
    rewrite prefix_cons in H. apply andb_true_iff in H as [Hc Hp].
    apply Ascii.eqb_eq in Hc. subst a.
    destruct (IH _ Hp) as [rest ->]. now exists rest.
Qed.

Lemma sum_ones_from {A} (cond : A -> bool) (xs : list A) (n : nat) :
  fold_left (fun acc x => if cond x then acc + 1 else acc) xs n
  = n + length (filter cond xs).
Proof.
  revert n. induction xs as [|x xs IH]; intros n; simpl.
  - lia.
  - rewrite IH. destruct (cond x); simpl; lia.
Qed.

Lemma sum_ones_filter {A} (cond : A -> bool) (xs : list A) :
  sum_ones cond xs = length (filter cond xs).
Proof. unfold sum_ones. now rewrite sum_ones_from. Qed.

Lemma sum_ones_cons {A} (cond : A -> bool) (x : A) (xs : list A) :
  sum_ones cond (x :: xs) = (if cond x then 1 else 0) + sum_ones cond xs.
Proof. rewrite !sum_ones_filter. simpl. now destruct (cond x). Qed.

Lemma sum_ones_app {A} (cond : A -> bool) (xs ys : list A) :
  sum_ones cond (xs ++ ys) = sum_ones cond xs + sum_ones cond ys.
Proof. rewrite !sum_ones_filter, filter_app, length_app. reflexivity. Qed.

Lemma split_nonempty (sep : ascii) (s : string) : split sep s <> [].
Proof.
  destruct s as [|c s]; simpl; [discriminate|].
  destruct (Ascii.eqb c sep); [discriminate|].
  destruct (split sep s); discriminate.
Qed.

Lemma split_cons (sep c : ascii) (s : string) :
  split sep (String c s)
  = if Ascii.eqb c sep then "" :: split sep s
    else String c (hd "" (split sep s)) :: tl (split sep s).
Proof.
  simpl. destruct (Ascii.eqb c sep); [reflexivity|].
  destruct (split sep s) eqn:E; [now apply split_nonempty in E | reflexivity].
Qed.

Lemma lstrip_by_empty (p : ascii -> bool) (s : string) :
  lstrip_by p s = "" <-> all_chars p s = true.
Proof.
  induction s as [|c s IH]; simpl.
  - tauto.
  - destruct (p c); simpl; [exact IH|]. split; discriminate.
Qed.

Lemma rstrip_by_empty (p : ascii -> bool) (s : string) :
  rstrip_by p s = "" <-> all_chars p s = true.
Proof.
  induction s as [|c s IH]; simpl.
  - tauto.
  - destruct (rstrip_by p s) eqn:E.
    + destruct IH as [IH _]. rewrite (IH eq_refl), andb_true_r.
      destruct (p c); split; congruence.
    + split; [discriminate|]. intros H. apply andb_true_iff in H as [_ H].
      apply IH in H. discriminate.
Qed.

Lemma lstrip_by_head (p : ascii -> bool) (s : string) (c : ascii) (r : string) :
  lstrip_by p s = String c r -> p c = false.
Proof.
  induction s as [|d s IH]; simpl; [discriminate|].
  destruct (p d) eqn:E; [exact IH|]. intros [= <- _]. exact E.
Qed.

Lemma strip_empty (s : string) :
  strip s = "" <-> all_chars isspace s = true.
Proof.
  unfold strip. rewrite rstrip_by_empty. split; intros H.
  - apply lstrip_by_empty.
    destruct (lstrip_by isspace s) as [|c r] eqn:E; [reflexivity|].
    apply lstrip_by_head in E. simpl in H. rewrite E in H. discriminate.
  - apply lstrip_by_empty in H. now rewrite H.
Qed.

Lemma split_single (sep : ascii) (s line : string) :
  split sep s = [line] -> line = s.
Proof.
  revert line. induction s as [|c s IH]; intros line; simpl.
  - now intros [= <-].
  - destruct (Ascii.eqb c sep).
    + intros [= _ H]. now apply split_nonempty in H.
    + destruct (split sep s) as [|l ls] eqn:E; [now apply split_nonempty in E|].
      intros [= <- ->]. now rewrite (IH l eq_refl).
Qed.

Lemma all_chars_split (p : ascii -> bool) (sep : ascii) (s : string) :
  p sep = true ->
  Forall (fun line => all_chars p line = true) (split sep s)
  <-> all_chars p s = true.
Proof.
  intros Hsep. induction s as [|c s IH].
  - simpl. split; [reflexivity | intros _; now constructor].
  - rewrite split_cons. destruct (Ascii.eqb c sep) eqn:E.
    + apply Ascii.eqb_eq in E. subst c. simpl. rewrite Hsep. simpl.
      rewrite <- IH. split; intros H.
      * now inversion H.
      * now constructor.
    + simpl. rewrite andb_true_iff, <- IH.
      destruct (split sep s) as [|l ls] eqn:E2;
        [now apply split_nonempty in E2|]. simpl.
      split; intros H.
      * inversion H as [|? ? Hl Hls]; subst. simpl in Hl.
        apply andb_true_iff in Hl as [Hc Hl]. split; [exact Hc|].
        now constructor.
      * destruct H as [Hc H]. inversion H as [|? ? Hl Hls]; subst.
        constructor; [simpl; now rewrite Hc, Hl | exact Hls].
Qed.

End StringFacts.

(** ** Status parsing *)

Section StatusFacts.

Lemma startswith_two (x y : ascii) (line : string) :
  startswith line (String x (String y "")) = true ->
  exists rest, line = String x (String y rest).
Proof.
  intros H. apply prefix_inv in H as [rest ->]. now exists rest.
Qed.

Lemma recognized_prefix_unique (p q line : string) :
  In p recognized_prefixes -> In q recognized_prefixes ->
  startswith line p = true -> startswith line q = true -> p = q.
Proof.
  intros Hp Hq H1 H2. unfold startswith in *.
  apply prefix_inv in H1 as [r1 ->].
  simpl in Hp, Hq.
  repeat (destruct Hp as [<-|Hp]; [|]); try contradiction;
  repeat (destruct Hq as [<-|Hq]; [|]); try contradiction;
  first [reflexivity | discriminate H2].
Qed.

Lemma contribution_le_1 (line : string) : contribution line <= 1.
Proof.
  unfold contribution, is_modified, is_added, is_deleted.
  assert (U := fun p q Hp Hq => recognized_prefix_unique p q line Hp Hq).
  destruct (startswith line " M") eqn:E1;
  destruct (startswith line "M ") eqn:E2;
  destruct (startswith line "A ") eqn:E3;
  destruct (startswith line "??") eqn:E4;
  destruct (startswith line " D") eqn:E5;
  destruct (startswith line "D ") eqn:E6; simpl; try lia; exfalso.
  all: match goal with
       | H1 : startswith _ ?p = true, H2 : startswith _ ?q = true |- _ =>
           assert (p = q) by (apply U; simpl; tauto); discriminate
       end.
Qed.

Lemma contribution_empty : contribution "" = 0.
Proof. reflexivity. Qed.

Lemma counts_sum_contribution (lines : list string) :
  sum_ones is_modified lines + sum_ones is_added lines
  + sum_ones is_deleted lines
  = list_sum (map contribution lines).
Proof.
  induction lines as [|l ls IH]; [reflexivity|].
  rewrite !sum_ones_cons. simpl. unfold contribution at 1. lia.
Qed.

Lemma contribution_le_nonempty (lines : list string) :
  list_sum (map contribution lines) <= length (filter nonempty lines).
Proof.
  induction lines as [|l ls IH]; simpl; [lia|].
  destruct l as [|c l]; simpl; [exact IH|].
  pose proof (contribution_le_1 (String c l)). lia.
Qed.

Lemma filter_nonempty_blank (lines : list string) :
  filter nonempty ("" :: lines) = filter nonempty lines.
Proof. reflexivity. Qed.

Lemma filter_nonempty_char (c : ascii) (line : string) (lines : list string) :
  filter nonempty (String c line :: lines)
  = String c line :: filter nonempty lines.
Proof. reflexivity. Qed.

Lemma nonempty_lines_prepend (sep c : ascii) (s : string) :
  length (filter nonempty (split sep s))
  <= length (filter nonempty (split sep (String c s))).
Proof.
  rewrite split_cons. destruct (Ascii.eqb c sep); simpl; [lia|].
  destruct (split sep s) as [|l ls] eqn:E; [now apply split_nonempty in E|].
  simpl. destruct (nonempty l); simpl; lia.
Qed.

Lemma nonempty_lines_lstrip (p : ascii -> bool) (sep : ascii) (s : string) :
  length (filter nonempty (split sep (lstrip_by p s)))
  <= length (filter nonempty (split sep s)).
Proof.
  induction s as [|c s IH]; [simpl; lia|].
  cbn [lstrip_by]. destruct (p c); [|lia].
  etransitivity; [exact IH | apply nonempty_lines_prepend].
Qed.

Lemma nonempty_lines_rstrip (p : ascii -> bool) (sep : ascii) (s : string) :
  length (filter nonempty (tl (split sep (rstrip_by p s))))
  <= length (filter nonempty (tl (split sep s)))
  /\ length (filter nonempty (split sep (rstrip_by p s)))
     <= length (filter nonempty (split sep s)).
Proof.
  induction s as [|c s [IHt IH]]; [simpl; lia|].
  cbn [rstrip_by]. destruct (rstrip_by p s) as [|k ks] eqn:E.
  - destruct (p c).
    + simpl split at 1 3. simpl. lia.
    + rewrite (split_cons sep c s), (split_cons sep c "").
      destruct (Ascii.eqb c sep); simpl; lia.
  - rewrite (split_cons sep c s), (split_cons sep c (String k ks)).
    destruct (Ascii.eqb c sep); cbn [tl hd];
      rewrite ?filter_nonempty_blank, ?filter_nonempty_char;
      cbn [length]; lia.
Qed.

Lemma status_lines_le_output_lines (out : string) :
  length (filter nonempty (status_lines out))
  <= length (filter nonempty (output_lines out)).
Proof.
  unfold status_lines, output_lines, strip.
  etransitivity; [apply nonempty_lines_rstrip | apply nonempty_lines_lstrip].
Qed.

Lemma filter_length_le {A} (f : A -> bool) (xs : list A) :
  length (filter f xs) <= length xs.
Proof.
  induction xs as [|x xs IH]; simpl; [lia|]. destruct (f x); simpl; lia.
Qed.

Lemma rstrip_by_app_blank (p : ascii -> bool) (s blank : string) :
  all_chars p blank = true ->
  rstrip_by p (s ++ blank) = rstrip_by p s.
Proof.
  intros H. induction s as [|c s IH]; cbn.
  - now apply rstrip_by_empty.
  - now rewrite IH.
Qed.

Lemma lstrip_by_app (p : ascii -> bool) (s t : string) :
  s <> "" -> lstrip_by p s = s -> lstrip_by p (s ++ t) = (s ++ t)%string.
Proof.
  destruct s as [|c s]; [congruence|]. intros _. cbn.
  destruct (p c) eqn:E; [|reflexivity].
  intros H. exfalso. apply (f_equal String.length) in H. cbn in H.
  assert (L : forall u, String.length (lstrip_by p u) <= String.length u).
  { induction u as [|d u IH]; cbn; [lia|]. destruct (p d); cbn; lia. }
  specialize (L s). lia.
Qed.

(** On an output that keeps no space at its ends apart from the final
    line feed, the lines tested are the lines of the output. *)
Lemma status_lines_of_trimmed_output (body : string) :
  lstrip_by isspace body = body -> rstrip_by isspace body = body ->
  status_lines (body ++ LF) = output_lines body.
Proof.
  intros Hl Hr. unfold status_lines, output_lines, strip.
  destruct body as [|c body]; [reflexivity|].
  rewrite lstrip_by_app by (exact Hl || discriminate).
  rewrite rstrip_by_app_blank by reflexivity. now rewrite Hr.
Qed.

End StatusFacts.

(** ** Running the operations *)

Ltac unfold_py :=
  unfold try_except, bind, subprocess_run, ret; cbn.

Section InspectorRuns.

Context {World : Type}.
Variable tool : list string -> nat -> World -> Outcome CompletedProcess * World.

Lemma get_repo_status_run (path : string) (w : World) :
  get_repo_status tool path w
  = let (o, w') := tool ["git"; "-C"; path; "status"; "--porcelain"] 5 w in
    mkRun (Value match o with
                 | Value cp => if succeeded cp
                               then Some (status_of_output (stdout cp))
                               else None
                 | Raise _ => None
                 end)
          [mkCall ["git"; "-C"; path; "status"; "--porcelain"] 5] w'.
Proof.
  unfold get_repo_status. unfold_py.
  destruct (tool _ 5 w) as [[cp|e] w']; cbn; [|reflexivity].
  destruct (succeeded cp); reflexivity.
Qed.

Lemma get_repo_status_inv (path : string) (w : World) (snap : RepoStatus) :
  outcome (get_repo_status tool path w) = Value (Some snap) ->
  exists cp,
    fst (tool ["git"; "-C"; path; "status"; "--porcelain"] 5 w) = Value cp
    /\ returncode cp = 0%Z
    /\ snap = status_of_output (stdout cp).
Proof.
  rewrite get_repo_status_run.
  destruct (tool _ 5 w) as [[cp|e] w']; cbn; [|discriminate].
  unfold succeeded. destruct (Z.eqb_spec (returncode cp) 0); [|discriminate].
  intros [= <-]. now exists cp.
Qed.

End InspectorRuns.

(** ** Properties of [get_repo_status] *)

Section StatusClaims.

Lemma status_of_blank_output (out : string) :
  no_status_lines out -> status_of_output out = mkStatus 0 0 0 true.
Proof.
  intros H. apply (all_chars_split isspace newline) in H; [|reflexivity].
  apply strip_empty in H. unfold status_of_output, status_lines.
  rewrite H. reflexivity.
Qed.

Lemma clean_status_iff (out : string) :
  clean (status_of_output out) = true <-> no_status_lines out.
Proof.
  split.
  - unfold status_of_output, status_lines. cbn [clean].
    destruct (split newline (strip out)) as [|first [|? ?]] eqn:E;
      try discriminate.
    intros H. apply String.eqb_eq in H. subst first.
    apply split_single in E.
    apply (all_chars_split isspace newline); [reflexivity|].
    apply strip_empty. now symmetry.
  - intros H. now rewrite status_of_blank_output.
Qed.

(** C2: a returned snapshot is clean exactly when the three counts are
    zero and the output reported no status line; an output of one empty
    line gives a clean snapshot with all counts zero. *)
Theorem clean_iff_nothing_reported
  {World : Type}
  (tool : list string -> nat -> World -> Outcome CompletedProcess * World)
  (path : string) (w : World) (snap : RepoStatus) :
  outcome (get_repo_status tool path w) = Value (Some snap) ->
  exists cp,
    fst (tool ["git"; "-C"; path; "status"; "--porcelain"] 5 w) = Value cp
    /\ (clean snap = true
        <-> modified snap = 0 /\ added snap = 0 /\ deleted snap = 0
            /\ no_status_lines (stdout cp))
    /\ (stdout cp = "" \/ stdout cp = LF -> snap = mkStatus 0 0 0 true).
Proof.
  intros H. apply get_repo_status_inv in H as (cp & Hrun & _ & ->).
  exists cp. split; [exact Hrun|]. split.
  - rewrite clean_status_iff. split.
    + intros Hno. rewrite (status_of_blank_output _ Hno). cbn. tauto.
    + tauto.
  - intros [-> | ->]; reflexivity.
Qed.

Lemma clean_iff_nothing_reported_witness :
  exists cp,
    fst (scripted (Value (mkCompleted 0 LF ""))
           ["git"; "-C"; "/repo"; "status"; "--porcelain"] 5 tt) = Value cp
    /\ (clean (mkStatus 0 0 0 true) = true
        <-> modified (mkStatus 0 0 0 true) = 0
            /\ added (mkStatus 0 0 0 true) = 0
            /\ deleted (mkStatus 0 0 0 true) = 0
            /\ no_status_lines (stdout cp))
    /\ (stdout cp = "" \/ stdout cp = LF
        -> mkStatus 0 0 0 true = mkStatus 0 0 0 true).
Proof.
  apply (clean_iff_nothing_reported
           (scripted (Value (mkCompleted 0 LF ""))) "/repo" tt).
  reflexivity.
Defined.

(** C10: the six prefixes exclude each other on a line, so a line is
    counted by at most one counter and the three counts together do not
    exceed the number of status lines. *)
Theorem counts_bounded_by_status_lines
  {World : Type}
  (tool : list string -> nat -> World -> Outcome CompletedProcess * World)
  (path : string) (w : World) (snap : RepoStatus) :
  outcome (get_repo_status tool path w) = Value (Some snap) ->
  exists cp,
    fst (tool ["git"; "-C"; path; "status"; "--porcelain"] 5 w) = Value cp
    /\ (forall p q line,
          In p recognized_prefixes -> In q recognized_prefixes ->
          startswith line p = true -> startswith line q = true -> p = q)
    /\ (forall line, contribution line <= 1)
    /\ modified snap + added snap + deleted snap
       <= length (filter nonempty (status_lines (stdout cp)))
    /\ length (filter nonempty (status_lines (stdout cp)))
       <= length (filter nonempty (output_lines (stdout cp)))
    /\ length (filter nonempty (output_lines (stdout cp)))
       <= length (output_lines (stdout cp)).
Proof.
  intros H. apply get_repo_status_inv in H as (cp & Hrun & _ & ->).
  exists cp. split; [exact Hrun|].
  split; [exact recognized_prefix_unique|].
  split; [exact contribution_le_1|].
  split; [|split].
  - unfold status_of_output. cbn [modified added deleted].
    rewrite counts_sum_contribution. apply contribution_le_nonempty.
  - apply status_lines_le_output_lines.
  - apply filter_length_le.
Qed.

End StatusClaims.

(** C1, at an output whose first entry is an intent-to-add file
    ([' A notes.txt']): the line has none of the six prefixes, yet
    [get_repo_status] counts it as added, because the whole output is
    stripped before it is split; the same line in second position is
    not counted. *)
Theorem first_line_loses_its_leading_space :
  contribution " A notes.txt" = 0
  /\ output_lines (" A notes.txt" ++ LF) = [" A notes.txt"; ""]
  /\ status_lines (" A notes.txt" ++ LF) = ["A notes.txt"]
  /\ outcome (get_repo_status
                (scripted (Value (mkCompleted 0 (" A notes.txt" ++ LF) "")))
                "/repo" tt)
     = Value (Some (mkStatus 0 1 0 false))
  /\ outcome (get_repo_status
                (scripted (Value (mkCompleted 0
                   ("M  a.txt" ++ LF ++ " A notes.txt" ++ LF) "")))
                "/repo" tt)
     = Value (Some (mkStatus 1 0 0 false)).
Proof. repeat split. Qed.

(** On the lines as [get_repo_status] splits them, each counter is the
    number of lines with one of its two prefixes, and a line with another
    prefix adds to none. *)
Lemma counts_follow_prefix_table (out : string) :
  let snap := status_of_output out in
  let lines := status_lines out in
  modified snap = length (filter is_modified lines)
  /\ added snap = length (filter is_added lines)
  /\ deleted snap = length (filter is_deleted lines)
  /\ contribution "R  old -> new" = 0.
Proof.
  cbn. unfold status_of_output. cbn. rewrite !sum_ones_filter. tauto.
Qed.

Lemma counts_bounded_by_status_lines_witness :
  exists cp,
    fst (scripted (Value (mkCompleted 0
           (" M a.txt" ++ LF ++ "?? b.txt" ++ LF ++ "R  c -> d" ++ LF) ""))
           ["git"; "-C"; "/repo"; "status"; "--porcelain"] 5 tt) = Value cp
    /\ (forall p q line,
          In p recognized_prefixes -> In q recognized_prefixes ->
          startswith line p = true -> startswith line q = true -> p = q)
    /\ (forall line, contribution line <= 1)
    /\ modified (mkStatus 1 1 0 false) + added (mkStatus 1 1 0 false)
       + deleted (mkStatus 1 1 0 false)
       <= length (filter nonempty (status_lines (stdout cp)))
    /\ length (filter nonempty (status_lines (stdout cp)))
       <= length (filter nonempty (output_lines (stdout cp)))
    /\ length (filter nonempty (output_lines (stdout cp)))
       <= length (output_lines (stdout cp)).
Proof.
  apply (counts_bounded_by_status_lines
           (scripted (Value (mkCompleted 0
              (" M a.txt" ++ LF ++ "?? b.txt" ++ LF ++ "R  c -> d" ++ LF) "")))
           "/repo" tt).
  reflexivity.
Defined.

(** ** Branch listing *)

Section BranchFacts.

Lemma mem_In (x : string) (xs : list string) : mem x xs = true <-> In x xs.
Proof.
  unfold mem. rewrite existsb_exists. split.
  - intros (y & Hy & E). apply String.eqb_eq in E. now subst.
  - intros H. exists x. split; [exact H | apply String.eqb_refl].
Qed.

Lemma mem_not_In (x : string) (xs : list string) :
  mem x xs = false <-> ~ In x xs.
Proof.
  rewrite <- mem_In. destruct (mem x xs); split; congruence.
Qed.

Lemma add_branch_line_listed (branches : list string) (line : string) :
  add_branch_line branches line
  = match listed_name line with
    | Some b => append_new branches b
    | None => branches
    end.
Proof.
  unfold add_branch_line, listed_name, append_new.
  destruct (negb (branch_of_line line =? "")
            && negb (startswith (branch_of_line line) "remotes/origin/HEAD"))%string;
    reflexivity.
Qed.

Lemma fold_add_branch_line (lines branches : list string) :
  fold_left add_branch_line lines branches
  = fold_left append_new (candidates lines) branches.
Proof.
  revert branches. induction lines as [|line lines IH]; intros branches.
  - reflexivity.
  - cbn [fold_left candidates flat_map]. rewrite add_branch_line_listed, IH.
    rewrite fold_left_app. now destruct (listed_name line).
Qed.

Lemma In_candidates (lines : list string) (b : string) :
  In b (candidates lines)
  <-> exists line, In line lines /\ listed_name line = Some b.
Proof.
  unfold candidates. rewrite in_flat_map. split.
  - intros (line & Hl & Hb). exists line. split; [exact Hl|].
    destruct (listed_name line) as [c|]; [|contradiction].
    destruct Hb as [->|[]]. reflexivity.
  - intros (line & Hl & E). exists line. split; [exact Hl|].
    rewrite E. now left.
Qed.

Lemma append_new_In (acc : list string) (c x : string) :
  In x (append_new acc c) <-> In x acc \/ x = c.
Proof.
  unfold append_new. destruct (mem c acc) eqn:E; cbn [negb].
  - apply mem_In in E. split; [tauto|]. intros [H| ->]; assumption.
  - rewrite in_app_iff. cbn. intuition congruence.
Qed.

Lemma append_new_NoDup (acc : list string) (c : string) :
  NoDup acc -> NoDup (append_new acc c).
Proof.
  intros H. unfold append_new. destruct (mem c acc) eqn:E; cbn [negb].
  - exact H.
  - apply mem_not_In in E. apply NoDup_app; [exact H | repeat constructor; auto|].
    intros x Hx [<-|[]]. contradiction.
Qed.

Lemma extend_In (cands acc : list string) (x : string) :
  In x (fold_left append_new cands acc) <-> In x acc \/ In x cands.
Proof.
  revert acc. induction cands as [|c cs IH]; intros acc; cbn [fold_left].
  - cbn. tauto.
  - rewrite IH, append_new_In. cbn. intuition congruence.
Qed.

Lemma extend_NoDup (cands acc : list string) :
  NoDup acc -> NoDup (fold_left append_new cands acc).
Proof.
  revert acc. induction cands as [|c cs IH]; intros acc H; cbn [fold_left].
  - exact H.
  - apply IH, append_new_NoDup, H.
Qed.






End BranchFacts.

Section ReplaceFacts.

Lemma replace_from_skip (old new p s : string) :
  replace_from old new (String.length p) (p ++ s)
  = replace_from old new 0 s.
Proof.
  induction p as [|c p IH]; cbn.
  - now destruct s.
  - exact IH.
Qed.

Lemma replace_from_absent (old new s : string) :
  contains old s = false -> replace_from old new 0 s = s.
Proof.
  induction s as [|c s IH]; [reflexivity|].
  cbn [contains]. intros H. apply orb_false_iff in H as [Hp Hs].
  cbn [replace_from]. rewrite Hp, IH by exact Hs. reflexivity.
Qed.

(** When the text after a leading occurrence holds no further one,
    replacing amounts to replacing that prefix. *)
Lemma replace_leading_once (a : ascii) (old' new rest : string) :
  contains (String a old') rest = false ->
  replace (String a old') new (String a old' ++ rest) = (new ++ rest)%string.
Proof.
  intros H. unfold replace.
  change (String a old' ++ rest)%string with (String a (old' ++ rest)).
  cbn [replace_from].
  change (String a (old' ++ rest)) with (String a old' ++ rest)%string.
  rewrite prefix_app.
  replace (String.length (String a old') - 1) with (String.length old')
    by (cbn [String.length]; lia).
  now rewrite replace_from_skip, replace_from_absent.
Qed.

End ReplaceFacts.

Section BranchClaims.

Context {World : Type}.
Variable tool : list string -> nat -> World -> Outcome CompletedProcess * World.

Lemma get_all_branches_run (path : string) (w : World) :
  get_all_branches tool path w
  = let (o, w') := tool ["git"; "-C"; path; "branch"; "-a"] 5 w in
    mkRun (Value match o with
                 | Value cp => if succeeded cp
                               then branches_of_output (stdout cp)
                               else []
                 | Raise _ => []
                 end)
          [mkCall ["git"; "-C"; path; "branch"; "-a"] 5] w'.
Proof.
  unfold get_all_branches. unfold_py.
  destruct (tool _ 5 w) as [[cp|e] w']; cbn; [|reflexivity].
  destruct (succeeded cp); reflexivity.
Qed.

Lemma branches_of_output_candidates (out : string) :
  branches_of_output out
  = fold_left append_new (candidates (split newline (strip out))) [].
Proof. apply fold_add_branch_line. Qed.


End BranchClaims.


(** ** How the operations run *)

Section Runs.

Context {World : Type}.
Variable tool : list string -> nat -> World -> Outcome CompletedProcess * World.

Lemma try_bind_value {A B} (m : World -> Run World A)
  (k : A -> World -> Run World B) (h : string -> World -> Run World B)
  (w : World) (a : A) :
  outcome (m w) = Value a ->
  try_except (bind m k) h w
  = prepend (calls (m w)) (try_except (k a) h (world (m w))).
Proof.
  intros H. unfold try_except, bind, prepend. rewrite H. cbn.
  destruct (outcome (k a (world (m w)))) eqn:E; cbn.
  - now rewrite E.
  - now rewrite app_assoc.
Qed.

Lemma run_mutation_run (args : list string) (t : nat) (ok : string)
  (w : World) :
  run_mutation tool args t ok w
  = mkRun (Value (mutation_result ok (fst (tool args t w))))
          [mkCall args t] (snd (tool args t w)).
Proof.
  unfold run_mutation, try_except, bind, subprocess_run, ret.
  destruct (tool args t w) as [[cp|e] w']; cbn; [|reflexivity].
  destruct (succeeded cp); reflexivity.
Qed.

Lemma guarded_steps_skip (a1 : list string) (t1 : nat) (pre : string)
  (a2 : list string) (t2 : nat) (ok : string) (w : World) :
  try_except (guarded_steps tool false a1 t1 pre a2 t2 ok)
    (fun e => ret (false, e)) w
  = mkRun (Value (mutation_result ok (fst (tool a2 t2 w))))
          [mkCall a2 t2] (snd (tool a2 t2 w)).
Proof.
  unfold guarded_steps, try_except, bind, subprocess_run, ret. cbn.
  destruct (tool a2 t2 w) as [[cp|e] w']; cbn; [|reflexivity].
  destruct (succeeded cp); reflexivity.
Qed.

Lemma guarded_steps_first (a1 : list string) (t1 : nat) (pre : string)
  (a2 : list string) (t2 : nat) (ok : string) (w : World) :
  try_except (guarded_steps tool true a1 t1 pre a2 t2 ok)
    (fun e => ret (false, e)) w
  = match fst (tool a1 t1 w) with
    | Raise e => mkRun (Value (false, e)) [mkCall a1 t1] (snd (tool a1 t1 w))
    | Value cp =>
        if succeeded cp
        then
          let w1 := snd (tool a1 t1 w) in
          mkRun (Value (mutation_result ok (fst (tool a2 t2 w1))))
                [mkCall a1 t1; mkCall a2 t2] (snd (tool a2 t2 w1))
        else
          mkRun (Value (false, (pre ++ stderr cp)%string))
                [mkCall a1 t1] (snd (tool a1 t1 w))
    end.
Proof.
  unfold guarded_steps, try_except, bind, subprocess_run, ret.
  destruct (tool a1 t1 w) as [[cp|e] w1]; cbn; [|reflexivity].
  destruct (succeeded cp); cbn; [|reflexivity].
  destruct (tool a2 t2 w1) as [[cp2|e2] w2]; cbn; [|reflexivity].
  destruct (succeeded cp2); reflexivity.
Qed.

Lemma get_current_branch_run (path : string) (w : World) :
  get_current_branch tool path w
  = let r := tool ["git"; "-C"; path; "branch"; "--show-current"] 2 w in
    mkRun (Value match fst r with
                 | Value cp => if succeeded cp
                               then Some (strip (stdout cp))
                               else None
                 | Raise _ => None
                 end)
          [mkCall ["git"; "-C"; path; "branch"; "--show-current"] 2] (snd r).
Proof.
  unfold get_current_branch. unfold_py.
  destruct (tool _ 2 w) as [[cp|e] w']; cbn; [|reflexivity].
  destruct (succeeded cp); reflexivity.
Qed.

Lemma get_current_branch_value (path : string) (w : World) :
  outcome (get_current_branch tool path w)
  = Value (value_of None (get_current_branch tool path w)).
Proof. rewrite get_current_branch_run. reflexivity. Qed.

Lemma commit_changes_shape (path message : string) (add_all : bool) :
  commit_changes tool path message add_all
  = try_except
      (guarded_steps tool add_all
         ["git"; "-C"; path; "add"; "-A"] 5 "Failed to stage files: "
         ["git"; "-C"; path; "commit"; "-m"; message] 5 "Commit successful")
      (fun e => ret (false, e)).
Proof. reflexivity. Qed.

Lemma rename_branch_shape (path old_name new_name : string) (w : World) :
  rename_branch tool path old_name new_name w
  = let q := get_current_branch tool path w in
    prepend (calls q)
      (try_except
         (guarded_steps tool (differs (value_of None q) old_name)
            ["git"; "-C"; path; "checkout"; old_name] 5
            "Failed to checkout branch: "
            ["git"; "-C"; path; "branch"; "-m"; new_name] 5
            ("Branch renamed from '" ++ old_name ++ "' to '"
             ++ new_name ++ "'"))
         (fun e => ret (false, e)) (world q)).
Proof.
  unfold rename_branch.
  rewrite (try_bind_value _ _ _ w _ (get_current_branch_value path w)).
  reflexivity.
Qed.

End Runs.

(** ** Renaming a branch *)

Section RenameClaims.

Context {World : Type}.
Variable tool : list string -> nat -> World -> Outcome CompletedProcess * World.




End RenameClaims.



(** ** The mutation operations as instances of the shared shapes *)

Section MutationShapes.

Context {World : Type}.
Variable tool : list string -> nat -> World -> Outcome CompletedProcess * World.

Lemma add_remote_shape (path name url : string) :
  add_remote tool path name url
  = run_mutation tool ["git"; "-C"; path; "remote"; "add"; name; url] 5
      "Remote added successfully".
Proof. reflexivity. Qed.

Lemma set_upstream_shape (path remote_name branch_name : string) :
  set_upstream tool path remote_name branch_name
  = run_mutation tool
      ["git"; "-C"; path; "branch"; "--set-upstream-to";
       (remote_name ++ "/" ++ branch_name)%string] 5
      "Upstream set successfully".
Proof. reflexivity. Qed.

Lemma push_set_upstream_shape (path remote_name branch_name : string) :
  push_set_upstream tool path remote_name branch_name
  = run_mutation tool
      ["git"; "-C"; path; "push"; "--set-upstream"; remote_name; branch_name]
      30 "Push successful and upstream set".
Proof. reflexivity. Qed.

Lemma push_changes_shape (path : string) :
  push_changes tool path
  = run_mutation tool ["git"; "-C"; path; "push"] 30 "Push successful".
Proof. reflexivity. Qed.

Lemma pull_changes_shape (path : string) :
  pull_changes tool path
  = run_mutation tool ["git"; "-C"; path; "pull"] 30 "Pull successful".
Proof. reflexivity. Qed.

Lemma checkout_branch_shape (path branch_name : string) :
  checkout_branch tool path branch_name
  = run_mutation tool ["git"; "-C"; path; "checkout"; branch_name] 5
      ("Switched to branch '" ++ branch_name ++ "'").
Proof. reflexivity. Qed.

Lemma create_branch_shape (path branch_name : string) :
  create_branch tool path branch_name
  = run_mutation tool ["git"; "-C"; path; "checkout"; "-b"; branch_name] 5
      ("Created and switched to branch '" ++ branch_name ++ "'").
Proof. reflexivity. Qed.

End MutationShapes.

Create Rewrite HintDb shapes.
#[export] Hint Rewrite @add_remote_shape @set_upstream_shape
  @push_set_upstream_shape @push_changes_shape @pull_changes_shape
  @checkout_branch_shape @create_branch_shape @commit_changes_shape
  @run_mutation_run : shapes.

Section QueryRuns.

Context {World : Type}.
Variable tool : list string -> nat -> World -> Outcome CompletedProcess * World.

Lemma get_remote_url_run (path : string) (w : World) :
  get_remote_url tool path w
  = let r := tool ["git"; "-C"; path; "remote"; "get-url"; "origin"] 2 w in
    mkRun (Value match fst r with
                 | Value cp => if succeeded cp
                               then Some (strip (stdout cp))
                               else None
                 | Raise _ => None
                 end)
          [mkCall ["git"; "-C"; path; "remote"; "get-url"; "origin"] 2]
          (snd r).
Proof.
  unfold get_remote_url. unfold_py.
  destruct (tool _ 2 w) as [[cp|e] w']; cbn; [|reflexivity].
  destruct (succeeded cp); reflexivity.
Qed.

Lemma has_upstream_branch_run (path : string) (w : World) :
  has_upstream_branch tool path w
  = let r := tool ["git"; "-C"; path; "rev-parse"; "--abbrev-ref";
                   "--symbolic-full-name"; "@{u}"] 2 w in
    mkRun (Value match fst r with
                 | Value cp =>
                     succeeded cp
                     && negb (String.eqb (strip (stdout cp)) "")
                 | Raise _ => false
                 end)
          [mkCall ["git"; "-C"; path; "rev-parse"; "--abbrev-ref";
                   "--symbolic-full-name"; "@{u}"] 2]
          (snd r).
Proof.
  unfold has_upstream_branch. unfold_py.
  destruct (tool _ 2 w) as [[cp|e] w']; reflexivity.
Qed.

Lemma is_github_authenticated_calls (w : World) :
  Forall (fun c => timeout c = 2) (calls (is_github_authenticated tool w)).
Proof.
  unfold is_github_authenticated. unfold_py.
  destruct (tool _ 2 w) as [[cp|e] w']; cbn; [|repeat constructor].
  destruct (tool _ 2 w') as [[cp2|e2] w'']; cbn; [|repeat constructor].
  destruct (truthy (strip (stdout cp)) && truthy (strip (stdout cp2)));
    repeat constructor.
Qed.

End QueryRuns.

(** ** Timeouts *)

Section TimeoutClaims.

Context {World : Type}.
Variable tool : list string -> nat -> World -> Outcome CompletedProcess * World.

Lemma guarded_steps_calls (guard : bool) (a1 : list string) (pre : string)
  (a2 : list string) (ok : string) (t : nat) (w : World) :
  let log := calls (try_except (guarded_steps tool guard a1 t pre a2 t ok)
                      (fun e => ret (false, e)) w) in
  log <> [] /\ Forall (fun c => timeout c = t) log.
Proof.
  destruct guard.
  - rewrite guarded_steps_first.
    destruct (fst (tool a1 t w)) as [cp|e]; [destruct (succeeded cp)|];
      cbn; (split; [discriminate | repeat constructor]).
  - rewrite guarded_steps_skip. cbn. split; [discriminate | repeat constructor].
Qed.

(** C5, as the code has it: the timeout is 2 seconds for the identity,
    current-branch, remote-URL and upstream queries, 5 seconds for the
    status and branch-list queries and for every local mutation, and 30
    seconds for push, pull and push-with-upstream; [rename_branch] asks
    for the current branch first, with that query's 2 seconds. *)
Theorem timeouts_by_operation (w : World) :
  Forall (fun c => timeout c = 2) (calls (is_github_authenticated tool w))
  /\ (forall path,
        Forall (fun c => timeout c = 2) (calls (get_current_branch tool path w))
        /\ Forall (fun c => timeout c = 2) (calls (get_remote_url tool path w))
        /\ Forall (fun c => timeout c = 2)
                  (calls (has_upstream_branch tool path w))
        /\ Forall (fun c => timeout c = 5) (calls (get_repo_status tool path w))
        /\ Forall (fun c => timeout c = 5)
                  (calls (get_all_branches tool path w)))
  /\ (forall m,
        own_calls m (calls (perform tool m w)) <> []
        /\ Forall (fun c => timeout c = tier m)
                  (own_calls m (calls (perform tool m w))))
  /\ (forall path old_name new_name,
        exists rest,
          calls (rename_branch tool path old_name new_name w)
          = mkCall ["git"; "-C"; path; "branch"; "--show-current"] 2 :: rest).
Proof.
  split; [apply is_github_authenticated_calls|]. split; [|split].
  - intros path.
    rewrite get_current_branch_run, get_remote_url_run,
      has_upstream_branch_run, get_repo_status_run, get_all_branches_run.
    destruct (tool _ 5 w); destruct (tool _ 5 w).
    cbn. repeat split; repeat constructor.
  - intros [p n u|p r b|p r b|p msg a|p|p|p b|p b|p o n];
      cbn [perform own_calls tier]; autorewrite with shapes;
      try (cbn; split; [discriminate | repeat constructor]).
    + apply (guarded_steps_calls a _ _ _ _ 5 w).
    + rewrite rename_branch_shape, get_current_branch_run. cbn [prepend calls app tl].
      apply (guarded_steps_calls _ _ _ _ _ 5).
  - intros path o n. rewrite rename_branch_shape, get_current_branch_run.
    cbn. eexists. reflexivity.
Qed.

End TimeoutClaims.

(** C5 as stated fails on the status query: its one command is run with
    a timeout of 5 seconds, not 2; so is the branch-list command. *)
Lemma status_query_timeout_is_five :
  exists c,
    In c (calls (get_repo_status
                   (scripted (Raise "Command timed out after 5 seconds"))
                   "/repo" tt))
    /\ timeout c = 5 /\ timeout c <> 2.
Proof.
  eexists. split; [left; reflexivity|]. cbn. split; [reflexivity | discriminate].
Qed.

(** ** Launch failures and exceptions *)

Section FailureClaims.

Context {World : Type}.
Variable tool : list string -> nat -> World -> Outcome CompletedProcess * World.

Lemma last_outcome_single (c : Call) (w : World) :
  last_outcome tool [c] w = Some (fst (tool (argv c) (timeout c) w)).
Proof. reflexivity. Qed.

Lemma last_outcome_cons (c d : Call) (rest : list Call) (w : World) :
  last_outcome tool (c :: d :: rest) w
  = last_outcome tool (d :: rest) (snd (tool (argv c) (timeout c) w)).
Proof. reflexivity. Qed.

Lemma mutation_result_raise (ok e : string) :
  mutation_result ok (Raise e) = (false, e).
Proof. reflexivity. Qed.

(** What the two-step body returns, read off the last call of its log. *)
Lemma guarded_steps_last (guard : bool) (a1 : list string) (t1 : nat)
  (pre : string) (a2 : list string) (t2 : nat) (ok : string) (w : World) :
  let r := try_except (guarded_steps tool guard a1 t1 pre a2 t2 ok)
             (fun e => ret (false, e)) w in
  (exists b msg, outcome r = Value (b, msg))
  /\ calls r <> []
  /\ (forall e, last_outcome tool (calls r) w = Some (Raise e) ->
        outcome r = Value (false, e)).
Proof.
  destruct guard.
  - rewrite guarded_steps_first.
    destruct (fst (tool a1 t1 w)) as [cp|e] eqn:E1.
    + destruct (succeeded cp) eqn:Es; cbn.
      * split; [destruct (mutation_result ok _); eauto|].
        split; [discriminate|]. intros e [= H]. now rewrite H.
      * split; [eauto|]. split; [discriminate|]. intros e [= H]. congruence.
    + cbn. split; [eauto|]. split; [discriminate|]. intros e' [= H]. congruence.
  - rewrite guarded_steps_skip. cbn.
    split; [destruct (mutation_result ok _); eauto|].
    split; [discriminate|]. intros e [= H]. now rewrite H.
Qed.

(** In the two-step body a command that raises is the last one, and
    its exception text is what is returned. *)
Lemma guarded_steps_raise_last (guard : bool) (a1 : list string) (t1 : nat)
  (pre : string) (a2 : list string) (t2 : nat) (ok : string) (w : World) :
  let r := try_except (guarded_steps tool guard a1 t1 pre a2 t2 ok)
             (fun e => ret (false, e)) w in
  forall i e,
    nth_error (outcomes tool (calls r) w) i = Some (Raise e) ->
    S i = length (calls r) /\ outcome r = Value (false, e).
Proof.
  cbv zeta. destruct guard.
  - rewrite guarded_steps_first.
    destruct (fst (tool a1 t1 w)) as [cp|e1] eqn:E1.
    + destruct (succeeded cp) eqn:Es; cbv zeta;
        cbn [calls outcome outcomes argv timeout length]; rewrite E1.
      * intros [|[|i]] e H; cbn in H.
        -- discriminate H.
        -- injection H as H. rewrite H. split; reflexivity.
        -- destruct i; discriminate H.
      * intros [|i] e H; cbn in H; [discriminate H|].
        destruct i; discriminate H.
    + cbn [calls outcome outcomes argv timeout length]. rewrite E1.
      intros [|i] e H; cbn in H.
      * injection H as <-. split; reflexivity.
      * destruct i; discriminate H.
  - rewrite guarded_steps_skip.
    cbn [calls outcome outcomes argv timeout length].
    intros [|i] e H; cbn in H.
    + injection H as H. rewrite H. split; reflexivity.
    + destruct i; discriminate H.
Qed.

(** C9, as the code has it: every mutation returns a pair and never
    raises; when the last command it ran raised, the pair is
    [(False, str(e))].  A command of the mutation's own ends the
    operation when it raises: whichever of them raises is the last
    command of the log, and its exception text is what is returned.
    The current-branch query that opens [rename_branch] catches its own
    exception and is always followed by a further command; when it
    raises, that command is the checkout of the old name. *)
Theorem mutations_never_raise (m : Mutation) (w : World) :
  let r := perform tool m w in
  (exists ok msg, outcome r = Value (ok, msg))
  /\ own_calls m (calls r) <> []
  /\ (forall e, last_outcome tool (calls r) w = Some (Raise e) ->
        outcome r = Value (false, e))
  /\ (forall i e,
        length (calls r) - length (own_calls m (calls r)) <= i ->
        nth_error (outcomes tool (calls r) w) i = Some (Raise e) ->
        S i = length (calls r) /\ outcome r = Value (false, e))
  /\ (forall path old_name new_name e,
        m = RenameBranch path old_name new_name ->
        fst (tool ["git"; "-C"; path; "branch"; "--show-current"] 2 w)
        = Raise e ->
        exists rest,
          calls r
          = mkCall ["git"; "-C"; path; "branch"; "--show-current"] 2
            :: mkCall ["git"; "-C"; path; "checkout"; old_name] 5 :: rest).
Proof.
  destruct m as [p n u|p r b|p r b|p msg a|p|p|p b|p b|p o n];
    cbn [perform own_calls]; cbv zeta; autorewrite with shapes;
    try (cbn;
         split; [destruct (mutation_result _ _); eauto|];
         split; [discriminate|];
         split; [intros e [= H]; now rewrite H|];
         split; [|intros ? ? ? ? H; discriminate H];
         intros [|i] e _ H; cbn in H;
         [injection H as H; rewrite H; split; reflexivity
         |destruct i; discriminate H]).
  - destruct (guarded_steps_last a ["git"; "-C"; p; "add"; "-A"] 5
                "Failed to stage files: "
                ["git"; "-C"; p; "commit"; "-m"; msg] 5
                "Commit successful" w) as (H1 & H2 & H3).
    pose proof (guarded_steps_raise_last a ["git"; "-C"; p; "add"; "-A"] 5
                  "Failed to stage files: "
                  ["git"; "-C"; p; "commit"; "-m"; msg] 5
                  "Commit successful" w) as H4.
    cbv zeta in H1, H2, H3, H4.
    split; [exact H1|]. split; [exact H2|]. split; [exact H3|].
    split; [|intros ? ? ? ? H; discriminate H]. intros i e _. apply H4.
  - rewrite rename_branch_shape, get_current_branch_run. cbv zeta.
    cbn [prepend calls world outcome app tl].
    split; [|split; [|split; [|split]]].
    + match goal with
      | |- context [try_except (guarded_steps tool ?g ?a1 ?t1 ?pre ?a2 ?t2 ?ok)
                      ?h ?w1] =>
          destruct (guarded_steps_last g a1 t1 pre a2 t2 ok w1) as (H1 & _)
      end.
      exact H1.
    + match goal with
      | |- context [try_except (guarded_steps tool ?g ?a1 ?t1 ?pre ?a2 ?t2 ?ok)
                      ?h ?w1] =>
          destruct (guarded_steps_last g a1 t1 pre a2 t2 ok w1) as (_ & H2 & _)
      end.
      exact H2.
    + match goal with
      | |- context [try_except (guarded_steps tool ?g ?a1 ?t1 ?pre ?a2 ?t2 ?ok)
                      ?h ?w1] =>
          destruct (guarded_steps_last g a1 t1 pre a2 t2 ok w1)
            as (_ & H2 & H3);
          cbv zeta in H2, H3;
          destruct (calls (try_except (guarded_steps tool g a1 t1 pre a2 t2 ok)
                             h w1)) as [|c cs] eqn:Ec; [congruence|]
      end.
      intros e He. apply H3. exact He.
    + match goal with
      | |- context [try_except (guarded_steps tool ?g ?a1 ?t1 ?pre ?a2 ?t2 ?ok)
                      ?h ?w1] =>
          pose proof (guarded_steps_raise_last g a1 t1 pre a2 t2 ok w1) as H4;
          cbv zeta in H4;
          set (gs := try_except (guarded_steps tool g a1 t1 pre a2 t2 ok) h w1)
            in *
      end.
      clearbody gs. intros i e Hi H.
      cbn [length] in Hi |- *.
      destruct i as [|j]; [lia|].
      cbn [outcomes argv timeout nth_error] in H.
      destruct (H4 j e H) as (Hlen & Hout).
      split; [now rewrite Hlen | exact Hout].
    + intros path old_name new_name e [= -> -> ->] Hq. rewrite Hq.
      cbn [value_of outcome differs]. rewrite guarded_steps_first.
      destruct (fst (tool _ 5 _)) as [cp|e1];
        [destruct (succeeded cp)|]; cbn [calls]; eexists; reflexivity.
Qed.

End FailureClaims.

(** C9 as stated fails in [rename_branch]: the current-branch query may
    time out, the exception is swallowed by the query, and the rename
    goes on and succeeds. *)
Lemma rename_survives_query_timeout :
  let ok := Value (mkCompleted 0 "" "") in
  let timed_out :=
    Raise "Command '['git', '-C', '/repo', 'branch', '--show-current']' timed out after 2 seconds" in
  fst (replay ["git"; "-C"; "/repo"; "branch"; "--show-current"] 2
         [timed_out; ok; ok]) = timed_out
  /\ outcome (rename_branch replay "/repo" "dev" "trunk" [timed_out; ok; ok])
     = Value (true, "Branch renamed from 'dev' to 'trunk'").
Proof. split; reflexivity. Qed.

Section LaunchClaims.

Context {World : Type}.
Variable tool : list string -> nat -> World -> Outcome CompletedProcess * World.

(** C6, as the code has it: when the tool cannot be launched, every
    mutation returns [(False, str(e))] and every query its absent value;
    these are the values returned for a non-zero exit code as well (with
    the exception text on standard error, for a one-command mutation),
    so no outcome of its own marks a launch failure. *)
Theorem launch_failure_reported_as_failure (e : string) (w : World) :
  (forall args t w', fst (tool args t w') = Raise e) ->
  (forall m, outcome (perform tool m w) = Value (false, e))
  /\ (forall path,
        outcome (get_repo_status tool path w) = Value None
        /\ outcome (get_current_branch tool path w) = Value None
        /\ outcome (get_remote_url tool path w) = Value None
        /\ outcome (has_upstream_branch tool path w) = Value false
        /\ outcome (get_all_branches tool path w) = Value [])
  /\ (forall m code out,
        single_command m = true -> code <> 0%Z ->
        outcome (perform tool m w)
        = outcome (perform (scripted (Value (mkCompleted code out e))) m tt))
  /\ (forall path code out err,
        code <> 0%Z ->
        let failing := scripted (Value (mkCompleted code out err)) in
        outcome (get_repo_status tool path w)
        = outcome (get_repo_status failing path tt)
        /\ outcome (get_current_branch tool path w)
           = outcome (get_current_branch failing path tt)
        /\ outcome (get_remote_url tool path w)
           = outcome (get_remote_url failing path tt)
        /\ outcome (has_upstream_branch tool path w)
           = outcome (has_upstream_branch failing path tt)
        /\ outcome (get_all_branches tool path w)
           = outcome (get_all_branches failing path tt)).
Proof.
  intros Hlaunch.
  assert (Hmut : forall m, outcome (perform tool m w) = Value (false, e)).
  { intros [p n u|p r b|p r b|p msg a|p|p|p b|p b|p o n];
      cbn [perform]; autorewrite with shapes;
      try (cbn; now rewrite Hlaunch).
    - destruct a; [rewrite guarded_steps_first | rewrite guarded_steps_skip];
        rewrite Hlaunch; reflexivity.
    - rewrite rename_branch_shape, get_current_branch_run. cbv zeta.
      rewrite Hlaunch. cbn [value_of outcome differs prepend].
      rewrite guarded_steps_first, Hlaunch. reflexivity. }
  assert (Hq : forall path,
        outcome (get_repo_status tool path w) = Value None
        /\ outcome (get_current_branch tool path w) = Value None
        /\ outcome (get_remote_url tool path w) = Value None
        /\ outcome (has_upstream_branch tool path w) = Value false
        /\ outcome (get_all_branches tool path w) = Value []).
  { intros path.
    rewrite get_current_branch_run, get_remote_url_run,
      has_upstream_branch_run, get_repo_status_run, get_all_branches_run.
    pose proof (Hlaunch ["git"; "-C"; path; "status"; "--porcelain"] 5 w) as H1.
    pose proof (Hlaunch ["git"; "-C"; path; "branch"; "-a"] 5 w) as H2.
    destruct (tool _ 5 w); destruct (tool _ 5 w).
    cbn in H1, H2. subst. cbv zeta. rewrite !Hlaunch. cbn. tauto. }
  split; [exact Hmut|]. split; [exact Hq|]. split.
  - intros m code out Hs Hc. rewrite Hmut.
    assert (Ef : succeeded (mkCompleted code out e) = false)
      by (apply Z.eqb_neq; exact Hc).
    destruct m as [p n u|p r b|p r b|p msg a|p|p|p b|p b|p o n];
      cbn [perform]; autorewrite with shapes;
      try (cbn [scripted fst outcome mutation_result]; now rewrite Ef).
    + destruct a; [discriminate Hs|]. rewrite guarded_steps_skip.
      cbn [scripted fst outcome mutation_result]. now rewrite Ef.
    + discriminate Hs.
  - intros path code out err Hc failing.
    destruct (Hq path) as (-> & -> & -> & -> & ->).
    assert (Ef : succeeded (mkCompleted code out err) = false)
      by (apply Z.eqb_neq; exact Hc).
    rewrite get_current_branch_run, get_remote_url_run,
      has_upstream_branch_run, get_repo_status_run, get_all_branches_run.
    unfold failing. cbn [scripted fst snd outcome]. rewrite Ef. cbn. tauto.
Qed.

End LaunchClaims.

Lemma launch_failure_reported_as_failure_witness :
  let missing := Raise "[Errno 2] No such file or directory: 'git'" in
  outcome (perform (scripted missing) (Push "/repo") tt)
  = Value (false, "[Errno 2] No such file or directory: 'git'")
  /\ outcome (get_repo_status (scripted missing) "/repo" tt) = Value None.
Proof.
  destruct (launch_failure_reported_as_failure (scripted
              (Raise "[Errno 2] No such file or directory: 'git'"))
              "[Errno 2] No such file or directory: 'git'" tt)
    as (Hm & Hq & _).
  - reflexivity.
  - split; [apply (Hm (Push "/repo")) | apply (Hq "/repo")].
Defined.

(** C6 as stated fails: a caller of [add_remote] receives the same pair
    for a tool that cannot be launched and for a tool that ran and
    exited with code 1, and the same [None] from [get_repo_status]. *)
Lemma launch_failure_same_as_exit_code :
  let text := "[Errno 13] Permission denied: 'git'" in
  outcome (add_remote (scripted (Raise text)) "/repo" "origin" "url" tt)
  = outcome (add_remote (scripted (Value (mkCompleted 1 "" text)))
               "/repo" "origin" "url" tt)
  /\ outcome (get_repo_status (scripted (Raise text)) "/repo" tt)
     = outcome (get_repo_status (scripted (Value (mkCompleted 1 "" text)))
                  "/repo" tt).
Proof. split; reflexivity. Qed.

(** ** Committing *)

Section CommitClaims.

Context {World : Type}.
Variable tool : list string -> nat -> World -> Outcome CompletedProcess * World.

Lemma length_append (s t : string) :
  String.length (s ++ t) = String.length s + String.length t.
Proof. induction s as [|c s IH]; cbn; [reflexivity | now rewrite IH]. Qed.

Lemma prefixed_differs (pre d : string) :
  pre <> "" -> (pre ++ d)%string <> d.
Proof.
  intros Hne E. apply (f_equal String.length) in E.
  rewrite length_append in E.
  destruct pre; [congruence|]. cbn in E. lia.
Qed.

(** C7, as the code has it: with [add_all] the staging command runs
    first.  When it exits non-zero the operation returns
    [(False, 'Failed to stage files: ' + stderr)] and the commit command
    is not run; a failing commit command returns its standard error as
    it is, without that prefix.  When the staging command raises, the
    operation returns [(False, str(e))] and the commit command is not
    run. *)
Theorem commit_stages_first (path message : string) (w : World) :
  let stage := mkCall ["git"; "-C"; path; "add"; "-A"] 5 in
  let commit := mkCall ["git"; "-C"; path; "commit"; "-m"; message] 5 in
  let r := commit_changes tool path message true w in
  let st := tool (argv stage) 5 w in
  (exists rest, calls r = stage :: rest)
  /\ (forall cp, fst st = Value cp -> succeeded cp = false ->
        outcome r
        = Value (false, ("Failed to stage files: " ++ stderr cp)%string)
        /\ calls r = [stage])
  /\ (forall e, fst st = Raise e ->
        outcome r = Value (false, e) /\ calls r = [stage])
  /\ (forall cp, fst st = Value cp -> succeeded cp = true ->
        calls r = [stage; commit]
        /\ outcome r
           = Value (mutation_result "Commit successful"
                      (fst (tool (argv commit) 5 (snd st)))))
  /\ (forall cp, mutation_result "Commit successful" (Value cp)
                 = if succeeded cp then (true, "Commit successful")
                   else (false, stderr cp))
  /\ (forall d, ("Failed to stage files: " ++ d)%string <> d).
Proof.
  intros stage commit r st. unfold r.
  rewrite commit_changes_shape, guarded_steps_first.
  change (tool ["git"; "-C"; path; "add"; "-A"] 5 w) with st.
  assert (Hp : forall d, ("Failed to stage files: " ++ d)%string <> d)
    by (intros d; apply prefixed_differs; discriminate).
  assert (Hm : forall cp, mutation_result "Commit successful" (Value cp)
                 = if succeeded cp then (true, "Commit successful")
                   else (false, stderr cp)) by reflexivity.
  destruct (fst st) as [cp|e].
  - destruct (succeeded cp) eqn:Es; cbn;
      (split; [eexists; reflexivity|]);
      (split; [intros ? [= <-] ?; first [congruence | now split]|]);
      (split; [discriminate|]);
      (split; [intros ? [= <-] ?; first [congruence | now split]|]);
      (split; [exact Hm | exact Hp]).
  - cbn. split; [eexists; reflexivity|].
    split; [discriminate|].
    split; [intros ? [= <-]; now split|].
    split; [discriminate|].
    split; [exact Hm | exact Hp].
Qed.

End CommitClaims.

(** C7 as stated fails when the staging command raises: the message is
    the bare exception text, the same as when the commit command
    raises. *)
Lemma staging_exception_is_not_marked :
  let ok := Value (mkCompleted 0 "" "") in
  let no_fork := Raise "[Errno 12] Cannot allocate memory" in
  outcome (commit_changes replay "/repo" "fix" true [no_fork])
  = Value (false, "[Errno 12] Cannot allocate memory")
  /\ outcome (commit_changes replay "/repo" "fix" true [ok; no_fork])
     = outcome (commit_changes replay "/repo" "fix" true [no_fork])
  /\ calls (commit_changes replay "/repo" "fix" true [no_fork])
     = [mkCall ["git"; "-C"; "/repo"; "add"; "-A"] 5]
  /\ calls (commit_changes replay "/repo" "fix" true [ok; no_fork])
     = [mkCall ["git"; "-C"; "/repo"; "add"; "-A"] 5;
        mkCall ["git"; "-C"; "/repo"; "commit"; "-m"; "fix"] 5].
Proof. repeat split. Qed.

(** ** Paths without a repository marker *)

Section MarkerClaims.

Context {World : Type}.
Variable tool : list string -> nat -> World -> Outcome CompletedProcess * World.

Lemma is_git_repo_iff (fs : FileSystem) (path : string) :
  is_git_repo fs path = true
  <-> fs (os_path_join path ".git") = Some Directory.
Proof.
  unfold is_git_repo, os_path_isdir.
  destruct (fs (os_path_join path ".git")) as [[|]|]; split; congruence.
Qed.

(** C8, as the code has it: [is_git_repo] is false for every path
    without a [.git] directory, a missing path included, and never
    raises.  The five queries never raise either; each returns its
    absent value ([None], [None], [None], [False], [[]]) when its command
    fails, that is raises or exits non-zero.  The queries do not look
    for the marker themselves. *)
Theorem queries_absent_when_tool_fails (fs : FileSystem) (path : string)
  (w : World) :
  (fs (os_path_join path ".git") <> Some Directory ->
   is_git_repo fs path = false)
  /\ ((fs path = None -> fs (os_path_join path ".git") = None) ->
      fs path = None -> is_git_repo fs path = false)
  /\ (exists status branch url upstream branches,
        outcome (get_repo_status tool path w) = Value status
        /\ outcome (get_current_branch tool path w) = Value branch
        /\ outcome (get_remote_url tool path w) = Value url
        /\ outcome (has_upstream_branch tool path w) = Value upstream
        /\ outcome (get_all_branches tool path w) = Value branches)
  /\ (failed (fst (tool ["git"; "-C"; path; "status"; "--porcelain"] 5 w)) ->
      outcome (get_repo_status tool path w) = Value None)
  /\ (failed (fst (tool ["git"; "-C"; path; "branch"; "--show-current"] 2 w)) ->
      outcome (get_current_branch tool path w) = Value None)
  /\ (failed (fst (tool ["git"; "-C"; path; "remote"; "get-url"; "origin"]
                     2 w)) ->
      outcome (get_remote_url tool path w) = Value None)
  /\ (failed (fst (tool ["git"; "-C"; path; "rev-parse"; "--abbrev-ref";
                         "--symbolic-full-name"; "@{u}"] 2 w)) ->
      outcome (has_upstream_branch tool path w) = Value false)
  /\ (failed (fst (tool ["git"; "-C"; path; "branch"; "-a"] 5 w)) ->
      outcome (get_all_branches tool path w) = Value []).
Proof.
  assert (Hm : fs (os_path_join path ".git") <> Some Directory ->
               is_git_repo fs path = false).
  { intros H. destruct (is_git_repo fs path) eqn:E; [|reflexivity].
    now apply is_git_repo_iff in E. }
  split; [exact Hm|]. split.
  { intros Hh Hp. apply Hm. rewrite (Hh Hp). discriminate. }
  rewrite get_current_branch_run, get_remote_url_run,
    has_upstream_branch_run, get_repo_status_run, get_all_branches_run.
  destruct (tool ["git"; "-C"; path; "status"; "--porcelain"] 5 w) as [o1 w1].
  destruct (tool ["git"; "-C"; path; "branch"; "-a"] 5 w) as [o2 w2].
  cbv zeta. cbn [outcome fst].
  split; [repeat eexists|].
  repeat split; intros H.
  - destruct o1 as [cp|e]; [cbn in H; now rewrite H | reflexivity].
  - destruct (fst (tool _ 2 w)) as [cp|e]; [cbn in H; now rewrite H | reflexivity].
  - destruct (fst (tool _ 2 w)) as [cp|e]; [cbn in H; now rewrite H | reflexivity].
  - destruct (fst (tool _ 2 w)) as [cp|e]; [cbn in H; now rewrite H | reflexivity].
  - destruct o2 as [cp|e]; [cbn in H; now rewrite H | reflexivity].
Qed.

End MarkerClaims.

(** C8 as stated fails below a repository: [/work/repo/src] holds no
    [.git], [is_git_repo] is false there, and the tool still answers the
    queries, which return a snapshot and a branch name. *)
Lemma queries_answer_without_marker :
  let fs : FileSystem := fun p =>
    if String.eqb p "/work/repo" || String.eqb p "/work/repo/.git"
       || String.eqb p "/work/repo/src"
    then Some Directory else None in
  is_git_repo fs "/work/repo/src" = false
  /\ outcome (get_repo_status
                (scripted (Value (mkCompleted 0 (" M src/main.py" ++ LF) "")))
                "/work/repo/src" tt)
     = Value (Some (mkStatus 1 0 0 false))
  /\ outcome (get_current_branch
                (scripted (Value (mkCompleted 0 ("main" ++ LF) "")))
                "/work/repo/src" tt)
     = Value (Some "main").
Proof. repeat split. Qed.

(** * Further properties of [GitManager] *)

(** ** Trimmed answers *)

Section TrimFacts.

Lemma rstrip_by_cons (p : ascii -> bool) (c : ascii) (s : string) :
  rstrip_by p (String c s)
  = match rstrip_by p s with
    | EmptyString => if p c then EmptyString else String c EmptyString
    | kept => String c kept
    end.
Proof. reflexivity. Qed.

Lemma rstrip_by_idempotent (p : ascii -> bool) (s : string) :
  rstrip_by p (rstrip_by p s) = rstrip_by p s.
Proof.
  induction s as [|c s IH]; [reflexivity|]. rewrite rstrip_by_cons.
  destruct (rstrip_by p s) as [|k ks] eqn:E.
  - destruct (p c) eqn:Ec; [reflexivity|]. cbn. now rewrite Ec.
  - rewrite rstrip_by_cons, IH. reflexivity.
Qed.

Lemma rstrip_by_keeps_head (p : ascii -> bool) (c : ascii) (s : string) :
  p c = false -> exists rest, rstrip_by p (String c s) = String c rest.
Proof.
  intros Hc. cbn [rstrip_by]. destruct (rstrip_by p s).
  - rewrite Hc. now exists "".
  - eexists. reflexivity.
Qed.

Lemma strip_is_trimmed (s : string) :
  lstrip_by isspace (strip s) = strip s
  /\ rstrip_by isspace (strip s) = strip s.
Proof.
  unfold strip. split; [|apply rstrip_by_idempotent].
  destruct (lstrip_by isspace s) as [|c r] eqn:E; [reflexivity|].
  apply lstrip_by_head in E.
  destruct (rstrip_by_keeps_head isspace c r E) as [rest ->].
  cbn. now rewrite E.
Qed.

Lemma strip_idempotent (s : string) : strip (strip s) = strip s.
Proof.
  destruct (strip_is_trimmed s) as [Hl Hr].
  unfold strip at 1. now rewrite Hl, Hr.
Qed.

Lemma truthy_strip (s : string) :
  truthy (strip s) = negb (all_chars isspace s).
Proof.
  unfold truthy. destruct (all_chars isspace s) eqn:E.
  - apply strip_empty in E. now rewrite E.
  - destruct (String.eqb_spec (strip s) ""); [|reflexivity].
    apply strip_empty in e. congruence.
Qed.

End TrimFacts.

Section QueryProperties.

Context {World : Type}.
Variable tool : list string -> nat -> World -> Outcome CompletedProcess * World.

Lemma some_strip_iff (o : Outcome CompletedProcess) (x : string) :
  match o with
  | Value cp => if succeeded cp then Some (strip (stdout cp)) else None
  | Raise _ => None
  end = Some x
  <-> exists cp, o = Value cp /\ returncode cp = 0%Z /\ x = strip (stdout cp).
Proof.
  destruct o as [cp|e].
  - unfold succeeded. destruct (Z.eqb_spec (returncode cp) 0) as [E|E]; split.
    + intros [= <-]. now exists cp.
    + intros (cp' & [= <-] & _ & ->). reflexivity.
    + discriminate.
    + intros (cp' & [= <-] & E' & _). contradiction.
  - split; [discriminate|]. intros (cp' & H & _). discriminate.
Qed.

(** The branch name and the remote URL are returned exactly when the
    command exits with code 0, an empty output included, and they carry
    no white space at either end. *)
Theorem branch_and_remote_are_trimmed (path : string) (w : World) :
  (forall b,
     outcome (get_current_branch tool path w) = Value (Some b)
     <-> exists cp,
           fst (tool ["git"; "-C"; path; "branch"; "--show-current"] 2 w)
           = Value cp
           /\ returncode cp = 0%Z /\ b = strip (stdout cp))
  /\ (forall u,
        outcome (get_remote_url tool path w) = Value (Some u)
        <-> exists cp,
              fst (tool ["git"; "-C"; path; "remote"; "get-url"; "origin"] 2 w)
              = Value cp
              /\ returncode cp = 0%Z /\ u = strip (stdout cp))
  /\ (forall b,
        outcome (get_current_branch tool path w) = Value (Some b) ->
        lstrip_by isspace b = b /\ rstrip_by isspace b = b)
  /\ (forall u,
        outcome (get_remote_url tool path w) = Value (Some u) ->
        lstrip_by isspace u = u /\ rstrip_by isspace u = u).
Proof.
  assert (Hb : forall b,
     outcome (get_current_branch tool path w) = Value (Some b)
     <-> exists cp,
           fst (tool ["git"; "-C"; path; "branch"; "--show-current"] 2 w)
           = Value cp
           /\ returncode cp = 0%Z /\ b = strip (stdout cp)).
  { intros b. rewrite get_current_branch_run. cbv zeta. cbn [outcome].
    rewrite <- some_strip_iff. split; congruence. }
  assert (Hu : forall u,
     outcome (get_remote_url tool path w) = Value (Some u)
     <-> exists cp,
           fst (tool ["git"; "-C"; path; "remote"; "get-url"; "origin"] 2 w)
           = Value cp
           /\ returncode cp = 0%Z /\ u = strip (stdout cp)).
  { intros u. rewrite get_remote_url_run. cbv zeta. cbn [outcome].
    rewrite <- some_strip_iff. split; congruence. }
  split; [exact Hb|]. split; [exact Hu|]. split.
  - intros b H. apply Hb in H as (cp & _ & _ & ->). apply strip_is_trimmed.
  - intros u H. apply Hu in H as (cp & _ & _ & ->). apply strip_is_trimmed.
Qed.

(** An upstream is reported exactly when the command exits with code 0
    and prints something other than white space. *)
Theorem upstream_iff_named (path : string) (w : World) :
  outcome (has_upstream_branch tool path w) = Value true
  <-> exists cp,
        fst (tool ["git"; "-C"; path; "rev-parse"; "--abbrev-ref";
                   "--symbolic-full-name"; "@{u}"] 2 w) = Value cp
        /\ returncode cp = 0%Z
        /\ all_chars isspace (stdout cp) = false.
Proof.
  rewrite has_upstream_branch_run. cbv zeta. cbn [outcome].
  destruct (fst (tool _ 2 w)) as [cp|e].
  - fold (truthy (strip (stdout cp))). rewrite truthy_strip. unfold succeeded.
    destruct (Z.eqb_spec (returncode cp) 0) as [E|E];
      destruct (all_chars isspace (stdout cp)) eqn:Ea; cbn;
      (split; [intros H | intros (cp' & [= <-] & H1 & H2)]);
      first [discriminate | congruence | now exists cp].
  - split; [discriminate|]. intros (cp' & H & _). discriminate.
Qed.

(** The identity check answers [True] exactly when both configuration
    commands return and each prints something other than white space;
    it then returns the two stripped outputs.  The exit codes are not
    looked at, and the check never raises. *)
Theorem identity_iff_both_printed (w : World) :
  let name := tool ["git"; "config"; "--global"; "user.name"] 2 w in
  let email := tool ["git"; "config"; "--global"; "user.email"] 2 (snd name) in
  let r := is_github_authenticated tool w in
  (exists answer, outcome r = Value answer)
  /\ (forall u e,
        outcome r = Value (true, u, e)
        <-> exists cn ce,
              fst name = Value cn /\ fst email = Value ce
              /\ all_chars isspace (stdout cn) = false
              /\ all_chars isspace (stdout ce) = false
              /\ u = Some (strip (stdout cn)) /\ e = Some (strip (stdout ce)))
  /\ (forall u e, outcome r = Value (false, u, e) -> u = None /\ e = None)
  /\ (forall e, fst name = Raise e ->
        calls r = [mkCall ["git"; "config"; "--global"; "user.name"] 2]).
Proof.
  intros name email r. unfold r, is_github_authenticated. unfold_py.
  fold name. destruct name as [[cn|en] w1] eqn:En; cbn.
  - unfold email. cbn [snd]. destruct (tool _ 2 w1) as [[ce|ee] w2]; cbn.
    + rewrite !truthy_strip.
      destruct (all_chars isspace (stdout cn)) eqn:E1;
        destruct (all_chars isspace (stdout ce)) eqn:E2; cbn;
        (split; [eexists; reflexivity|]);
        (split; [|split; [|discriminate]]);
        try (intros u e [= <- <-]; now split);
        try discriminate;
        intros u e;
        (split;
         [ first [discriminate | intros [= <- <-]; now exists cn, ce]
         | intros (cn' & ce' & [= <-] & [= <-] & H1 & H2 & -> & ->);
           first [reflexivity | congruence] ]).
    + split; [eexists; reflexivity|]. split; [|split; [|discriminate]].
      * intros u e. split; [discriminate|].
        intros (cn' & ce' & _ & H & _). discriminate.
      * intros u e [= <- <-]. now split.
  - split; [eexists; reflexivity|]. split; [|split].
    + intros u e. split; [discriminate|].
      intros (cn' & ce' & H & _). discriminate.
    + intros u e [= <- <-]. now split.
    + reflexivity.
Qed.

End QueryProperties.

(** ** What a mutation runs and returns *)

Section MutationProperties.

Context {World : Type}.
Variable tool : list string -> nat -> World -> Outcome CompletedProcess * World.

Lemma run_mutation_decided (args : list string) (t : nat) (ok : string)
  (w : World) :
  let r := run_mutation tool args t ok w in
  decided_by ok "" (last_outcome tool (calls r) w) (outcome r).
Proof.
  cbv zeta. rewrite run_mutation_run. cbn.
  destruct (fst (tool args t w)) as [cp|e]; cbn; [|reflexivity].
  now destruct (succeeded cp).
Qed.

Lemma guarded_steps_decided (guard : bool) (a1 : list string) (t1 : nat)
  (pre : string) (a2 : list string) (t2 : nat) (ok : string) (w : World) :
  let r := try_except (guarded_steps tool guard a1 t1 pre a2 t2 ok)
             (fun e => ret (false, e)) w in
  exists pre', (pre' = "" \/ pre' = pre)
    /\ decided_by ok pre' (last_outcome tool (calls r) w) (outcome r).
Proof.
  cbv zeta. destruct guard.
  - rewrite guarded_steps_first.
    destruct (fst (tool a1 t1 w)) as [cp|e] eqn:E1.
    + destruct (succeeded cp) eqn:Es; cbn.
      * exists "". split; [now left|].
        destruct (fst (tool a2 t2 _)) as [cp2|e2]; cbn; [|reflexivity].
        now destruct (succeeded cp2).
      * exists pre. split; [now right|]. rewrite E1. cbn. now rewrite Es.
    + exists "". split; [now left|]. cbn. now rewrite E1.
  - rewrite guarded_steps_skip. exists "". split; [now left|]. cbn.
    destruct (fst (tool a2 t2 w)) as [cp2|e2]; cbn; [|reflexivity].
    now destruct (succeeded cp2).
Qed.

Lemma guarded_steps_log (guard : bool) (a1 : list string) (t1 : nat)
  (pre : string) (a2 : list string) (t2 : nat) (ok : string) (w : World) :
  let log := calls (try_except (guarded_steps tool guard a1 t1 pre a2 t2 ok)
                      (fun e => ret (false, e)) w) in
  if guard
  then log = [mkCall a1 t1] \/ log = [mkCall a1 t1; mkCall a2 t2]
  else log = [mkCall a2 t2].
Proof.
  cbv zeta. destruct guard.
  - rewrite guarded_steps_first.
    destruct (fst (tool a1 t1 w)) as [cp|e]; [destruct (succeeded cp)|];
      cbn; tauto.
  - now rewrite guarded_steps_skip.
Qed.

Lemma last_outcome_after_query (q : Call) (log : list Call) (w : World) :
  log <> [] ->
  last_outcome tool (q :: log) w
  = last_outcome tool log (snd (tool (argv q) (timeout q) w)).
Proof. destruct log; [congruence | reflexivity]. Qed.

(** Every mutation's result is decided by the last command it ran. *)
Lemma perform_decided (m : Mutation) (w : World) :
  let r := perform tool m w in
  exists pre,
    (pre = "" \/ pre = "Failed to stage files: "
     \/ pre = "Failed to checkout branch: ")
    /\ decided_by (success_message m) pre
         (last_outcome tool (calls r) w) (outcome r).
Proof.
  destruct m as [p n u|p r b|p r b|p msg a|p|p|p b|p b|p o n];
    cbn [perform success_message]; cbv zeta;
    try (exists ""; split; [now left|];
         autorewrite with shapes; cbn;
         match goal with
         | |- context [fst (tool ?a ?t w)] =>
             destruct (fst (tool a t w)) as [cp|e]; cbn; [|reflexivity];
             now destruct (succeeded cp)
         end).
  - rewrite commit_changes_shape.
    destruct (guarded_steps_decided a ["git"; "-C"; p; "add"; "-A"] 5
                "Failed to stage files: "
                ["git"; "-C"; p; "commit"; "-m"; msg] 5 "Commit successful" w)
      as (pre & [-> | ->] & H); eexists; (split; [|exact H]); tauto.
  - rewrite rename_branch_shape.
    set (q := get_current_branch tool p w).
    assert (Hc : calls q
                 = [mkCall ["git"; "-C"; p; "branch"; "--show-current"] 2])
      by (unfold q; now rewrite get_current_branch_run).
    assert (Hw : world q
                 = snd (tool ["git"; "-C"; p; "branch"; "--show-current"] 2 w))
      by (unfold q; now rewrite get_current_branch_run).
    cbv zeta. cbn [calls prepend outcome]. rewrite Hc. cbn [app].
    match goal with
    | |- context [try_except (guarded_steps tool ?g ?a1 ?t1 ?pre ?a2 ?t2 ?ok)
                    ?h ?w1] =>
        destruct (guarded_steps_decided g a1 t1 pre a2 t2 ok w1)
          as (pre' & Hpre & H);
        pose proof (guarded_steps_log g a1 t1 pre a2 t2 ok w1) as Hlog;
        cbv zeta in H, Hlog
    end.
    exists pre'. split; [destruct Hpre as [-> | ->]; tauto|].
    rewrite last_outcome_after_query.
    + cbn [argv timeout]. rewrite <- Hw. exact H.
    + destruct (differs _ _); [destruct Hlog as [-> | ->]|rewrite Hlog];
        discriminate.
Qed.

(** A mutation returns [True] exactly when the last command it ran
    exited with code 0, and its message is then the operation's fixed
    success text. *)
Theorem mutation_succeeds_iff_exit_zero (m : Mutation) (w : World)
  (msg : string) :
  let r := perform tool m w in
  outcome r = Value (true, msg)
  <-> (exists cp, last_outcome tool (calls r) w = Some (Value cp)
                  /\ returncode cp = 0%Z)
      /\ msg = success_message m.
Proof.
  cbv zeta. destruct (perform_decided m w) as (pre & _ & H). cbv zeta in H.
  destruct (last_outcome tool (calls (perform tool m w)) w) as [[cp|e]|];
    cbn in H; [| |contradiction]; rewrite H.
  - unfold succeeded. destruct (Z.eqb_spec (returncode cp) 0) as [E|E]; split.
    + intros [= <-]. split; [now exists cp | reflexivity].
    + intros [_ ->]. reflexivity.
    + discriminate.
    + intros [(cp' & [= <-] & E') _]. contradiction.
  - split; [discriminate|]. intros [(cp' & H' & _) _]. discriminate.
Qed.

(** When the last command a mutation ran exited with a non-zero code,
    the mutation returns [False] with that command's standard error, as
    it is or after one of the two fixed prefixes. *)
Theorem mutation_failure_carries_stderr (m : Mutation) (w : World)
  (cp : CompletedProcess) :
  let r := perform tool m w in
  last_outcome tool (calls r) w = Some (Value cp) ->
  returncode cp <> 0%Z ->
  exists pre,
    (pre = "" \/ pre = "Failed to stage files: "
     \/ pre = "Failed to checkout branch: ")
    /\ outcome r = Value (false, (pre ++ stderr cp)%string).
Proof.
  cbv zeta. intros Hlast Hne.
  destruct (perform_decided m w) as (pre & Hpre & H). cbv zeta in H.
  rewrite Hlast in H. cbn in H. exists pre. split; [exact Hpre|].
  rewrite H. unfold succeeded.
  now destruct (Z.eqb_spec (returncode cp) 0).
Qed.

End MutationProperties.

Lemma mutation_failure_carries_stderr_witness :
  exists pre,
    (pre = "" \/ pre = "Failed to stage files: "
     \/ pre = "Failed to checkout branch: ")
    /\ outcome (perform replay (Commit "/repo" "fix" true)
                  [Value (mkCompleted 128 "" "fatal: Unable to create index.lock")])
       = Value (false,
                (pre ++ "fatal: Unable to create index.lock")%string).
Proof.
  apply (mutation_failure_carries_stderr replay (Commit "/repo" "fix" true)
           [Value (mkCompleted 128 "" "fatal: Unable to create index.lock")]
           (mkCompleted 128 "" "fatal: Unable to create index.lock")).
  - reflexivity.
  - discriminate.
Defined.

Section CommandProperties.

Context {World : Type}.
Variable tool : list string -> nat -> World -> Outcome CompletedProcess * World.

Lemma perform_log (m : Mutation) (w : World) :
  let log := calls (perform tool m w) in
  exists c1 c2 c3,
    (log = [c1] \/ log = [c1; c2] \/ log = [c1; c2; c3])
    /\ runs_in (path_of m) c1 /\ runs_in (path_of m) c2
    /\ runs_in (path_of m) c3
    /\ c1 <> c2 /\ c1 <> c3 /\ c2 <> c3.
Proof.
  set (other1 := mkCall ["git"; "-C"; path_of m; "1"] 0).
  set (other2 := mkCall ["git"; "-C"; path_of m; "2"] 0).
  assert (Hin : forall args t,
            runs_in (path_of m) (mkCall ("git" :: "-C" :: path_of m :: args) t))
    by (intros; eexists; reflexivity).
  destruct m as [p n u|p r b|p r b|p msg a|p|p|p b|p b|p o n];
    cbn [perform path_of] in *; cbv zeta;
    try (autorewrite with shapes; cbn [calls];
         eexists; exists other1, other2;
         split; [left; reflexivity|];
         repeat split; try apply Hin; discriminate).
  - rewrite commit_changes_shape.
    pose proof (guarded_steps_log tool a ["git"; "-C"; p; "add"; "-A"] 5
                  "Failed to stage files: "
                  ["git"; "-C"; p; "commit"; "-m"; msg] 5
                  "Commit successful" w) as H.
    cbv zeta in H. destruct a.
    + exists (mkCall ["git"; "-C"; p; "add"; "-A"] 5),
             (mkCall ["git"; "-C"; p; "commit"; "-m"; msg] 5), other1.
      split; [destruct H as [-> | ->]; tauto|].
      repeat split; try apply Hin; discriminate.
    + exists (mkCall ["git"; "-C"; p; "commit"; "-m"; msg] 5), other1, other2.
      split; [rewrite H; tauto|].
      repeat split; try apply Hin; discriminate.
  - rewrite rename_branch_shape.
    set (q := get_current_branch tool p w).
    assert (Hc : calls q
                 = [mkCall ["git"; "-C"; p; "branch"; "--show-current"] 2])
      by (unfold q; now rewrite get_current_branch_run).
    cbv zeta. cbn [calls prepend]. rewrite Hc. cbn [app].
    match goal with
    | |- context [try_except (guarded_steps tool ?g ?a1 ?t1 ?pre ?a2 ?t2 ?ok)
                    ?h ?w1] =>
        pose proof (guarded_steps_log tool g a1 t1 pre a2 t2 ok w1) as H;
        cbv zeta in H
    end.
    destruct (differs _ _).
    + exists (mkCall ["git"; "-C"; p; "branch"; "--show-current"] 2),
             (mkCall ["git"; "-C"; p; "checkout"; o] 5),
             (mkCall ["git"; "-C"; p; "branch"; "-m"; n] 5).
      split; [destruct H as [-> | ->]; tauto|].
      repeat split; try apply Hin; discriminate.
    + exists (mkCall ["git"; "-C"; p; "branch"; "--show-current"] 2),
             (mkCall ["git"; "-C"; p; "branch"; "-m"; n] 5), other1.
      split; [rewrite H; tauto|].
      repeat split; try apply Hin; discriminate.
Qed.

(** Every command of a mutation is run as [git -C path ...] on the
    mutation's own path; a mutation runs at most three commands and no
    command twice: nothing is retried. *)
Theorem mutations_run_in_their_path_once (m : Mutation) (w : World) :
  let log := calls (perform tool m w) in
  Forall (runs_in (path_of m)) log
  /\ NoDup log
  /\ 1 <= length log <= 3
  /\ (single_command m = true -> length log = 1).
Proof.
  cbv zeta. destruct (perform_log m w)
    as (c1 & c2 & c3 & Hlog & H1 & H2 & H3 & N12 & N13 & N23).
  cbv zeta in Hlog.
  assert (Hsingle : single_command m = true ->
                    length (calls (perform tool m w)) = 1).
  { destruct m as [p n u|p r b|p r b|p msg a|p|p|p b|p b|p o n];
      cbn [perform single_command]; intros Hs;
      try (autorewrite with shapes; reflexivity).
    - destruct a; [discriminate|]. rewrite commit_changes_shape.
      now rewrite guarded_steps_skip.
    - discriminate. }
  destruct Hlog as [E | [E | E]]; rewrite E in *; cbn [length] in *;
    (split; [repeat (apply Forall_cons; [assumption|]); apply Forall_nil|]);
    (split; [|split; [lia | exact Hsingle]]);
    repeat (apply NoDup_cons; [cbn; intuition congruence|]); apply NoDup_nil.
Qed.

(** [commit_changes] runs the staging command exactly when [add_all] is
    set, and the commit command exactly when staging was not asked for
    or exited with code 0. *)
Theorem commit_stages_iff_asked (path message : string) (add_all : bool)
  (w : World) :
  let stage := mkCall ["git"; "-C"; path; "add"; "-A"] 5 in
  let commit := mkCall ["git"; "-C"; path; "commit"; "-m"; message] 5 in
  let log := calls (commit_changes tool path message add_all w) in
  (In stage log <-> add_all = true)
  /\ (In commit log
      <-> add_all = false
          \/ exists cp, fst (tool (argv stage) 5 w) = Value cp
                        /\ returncode cp = 0%Z).
Proof.
  cbv zeta. rewrite commit_changes_shape. destruct add_all.
  - rewrite guarded_steps_first. cbn [argv].
    destruct (fst (tool _ 5 w)) as [cp|e].
    + unfold succeeded. destruct (Z.eqb_spec (returncode cp) 0) as [E|E];
        cbn [calls]; (split; split); cbn;
        first [ tauto
              | intros _; right; now exists cp
              | intros [H|[H|[]]]; discriminate H
              | intros [H|[]]; discriminate H
              | intros [H|(cp' & [= <-] & E')]; [discriminate | contradiction] ].
    + cbn [calls]. (split; split); cbn;
        first [ tauto
              | intros [H|[]]; discriminate H
              | intros [H|(cp' & H & _)]; discriminate H ].
  - rewrite guarded_steps_skip. cbn [calls]. (split; split); cbn;
      first [ tauto | discriminate | intros [H|[]]; discriminate H ].
Qed.

(** [rename_branch] runs the checkout of [old_name] exactly when the
    current-branch query did not answer [old_name]; otherwise it runs
    the query and the rename only. *)
Theorem rename_checks_out_iff_not_current (path old_name new_name : string)
  (w : World) :
  let query := mkCall ["git"; "-C"; path; "branch"; "--show-current"] 2 in
  let switch := mkCall ["git"; "-C"; path; "checkout"; old_name] 5 in
  let rename := mkCall ["git"; "-C"; path; "branch"; "-m"; new_name] 5 in
  let log := calls (rename_branch tool path old_name new_name w) in
  (In switch log
   <-> outcome (get_current_branch tool path w) <> Value (Some old_name))
  /\ (outcome (get_current_branch tool path w) = Value (Some old_name) ->
      log = [query; rename]).
Proof.
  cbv zeta. rewrite rename_branch_shape.
  set (q := get_current_branch tool path w).
  assert (Hc : calls q
               = [mkCall ["git"; "-C"; path; "branch"; "--show-current"] 2])
    by (unfold q; now rewrite get_current_branch_run).
  assert (Hv : outcome q = Value (value_of None q))
    by apply get_current_branch_value.
  cbv zeta. cbn [calls prepend]. rewrite Hc, Hv. cbn [app].
  match goal with
  | |- context [try_except (guarded_steps tool ?g ?a1 ?t1 ?pre ?a2 ?t2 ?ok)
                  ?h ?w1] =>
      pose proof (guarded_steps_log tool g a1 t1 pre a2 t2 ok w1) as H;
      cbv zeta in H
  end.
  destruct (differs (value_of None q) old_name) eqn:Ed.
  - assert (Hne : value_of None q <> Some old_name).
    { intros E. rewrite E in Ed. cbn in Ed.
      now rewrite String.eqb_refl in Ed. }
    split; [|congruence]. split; [congruence|]. intros _.
    destruct H as [-> | ->]; cbn; tauto.
  - assert (He : value_of None q = Some old_name).
    { destruct (value_of None q) as [b|]; [|discriminate Ed]. cbn in Ed.
      destruct (String.eqb_spec b old_name); [congruence | discriminate Ed]. }
    rewrite H, He. split; [|reflexivity]. split; [|congruence].
    intros [E|[E|[]]]; discriminate E.
Qed.

End CommandProperties.

(** ** Local and remote-tracking names in the branch list *)

Section BranchNameProperties.

Lemma append_nonempty (s n : string) : n <> "" -> (s ++ n)%string <> "".
Proof. destruct s; cbn; [auto | discriminate]. Qed.

Lemma rstrip_by_app_keep (p : ascii -> bool) (s n : string) :
  n <> "" -> rstrip_by p n = n -> rstrip_by p (s ++ n) = (s ++ n)%string.
Proof.
  intros Hne Hn. induction s as [|c s IH]; [exact Hn|].
  cbn [append]. rewrite rstrip_by_cons, IH.
  destruct (s ++ n)%string eqn:E; [|reflexivity].
  now apply append_nonempty in E.
Qed.

Lemma lstrip_by_padding (p : ascii -> bool) (pad n : string) :
  padding pad -> lstrip_by p n = n ->
  exists pad', padding pad' /\ lstrip_by p (pad ++ n) = (pad' ++ n)%string.
Proof.
  intros Hpad Hn. induction pad as [|c pad IH].
  - exists "". split; [reflexivity | exact Hn].
  - unfold padding in Hpad. cbn [all_chars] in Hpad.
    apply andb_true_iff in Hpad as [Hc Hpad]. cbn [append lstrip_by].
    destruct (p c).
    + apply IH, Hpad.
    + exists (String c pad). split; [|reflexivity].
      unfold padding. cbn [all_chars]. now rewrite Hc, Hpad.
Qed.

Lemma lstrip_padding (pad n : string) :
  padding pad -> lstrip "* " n = n -> lstrip "* " (pad ++ n) = n.
Proof.
  intros Hpad Hn. induction pad as [|c pad IH]; [exact Hn|].
  unfold padding in Hpad. cbn [all_chars] in Hpad.
  apply andb_true_iff in Hpad as [Hc Hpad].
  unfold lstrip in *. cbn [append lstrip_by]. rewrite Hc. apply IH, Hpad.
Qed.

Lemma branch_of_padded_line (pad n : string) :
  padding pad -> n <> "" ->
  lstrip_by isspace n = n -> rstrip_by isspace n = n -> lstrip "* " n = n ->
  branch_of_line (pad ++ n) = n.
Proof.
  intros Hpad Hne Hl Hr Hs. unfold branch_of_line.
  destruct (lstrip_by_padding isspace pad n Hpad Hl) as (pad' & Hpad' & E).
  unfold strip at 2. rewrite E, rstrip_by_app_keep by assumption.
  rewrite lstrip_padding by assumption.
  unfold strip. now rewrite Hl, Hr.
Qed.

Lemma prefix_contains (sub s : string) :
  String.prefix sub s = true -> contains sub s = true.
Proof. intros H. destruct s; cbn [contains]; now rewrite H. Qed.

Lemma listed_name_local (pad n : string) :
  padding pad -> plain_name n -> listed_name (pad ++ n) = Some n.
Proof.
  intros Hpad (Hne & Hl & Hr & Hs & Hh & Hc). unfold listed_name.
  rewrite branch_of_padded_line by assumption.
  apply String.eqb_neq in Hne. rewrite Hne.
  assert (Hp : startswith n "remotes/origin/" = false).
  { destruct (startswith n "remotes/origin/") eqn:E; [|reflexivity].
    apply prefix_contains in E. congruence. }
  assert (Hp' : startswith n "remotes/origin/HEAD" = false).
  { destruct (startswith n "remotes/origin/HEAD") eqn:E; [|reflexivity].
    apply prefix_inv in E as [r ->]. discriminate Hp. }
  now rewrite Hp, Hp'.
Qed.

Lemma listed_name_remote (pad n : string) :
  padding pad -> plain_name n ->
  listed_name (pad ++ "remotes/origin/" ++ n) = Some n.
Proof.
  intros Hpad (Hne & Hl & Hr & Hs & Hh & Hc). unfold listed_name.
  rewrite branch_of_padded_line; try assumption; try reflexivity.
  - replace (startswith ("remotes/origin/" ++ n) "remotes/origin/HEAD")
      with (startswith n "HEAD") by reflexivity.
    rewrite Hh.
    replace (startswith ("remotes/origin/" ++ n) "remotes/origin/")
      with true by (symmetry; apply prefix_app).
    cbn [negb andb String.eqb append]. f_equal.
    apply (replace_leading_once "r" "emotes/origin/" "" n Hc).
  - discriminate.
  - apply (rstrip_by_app_keep isspace "remotes/origin/" n Hne Hr).
Qed.

(** A branch printed on its own line, with or without the
    current-branch marker, and a remote-tracking branch of the same name
    under [remotes/origin/] give one and the same entry: the name is in
    the list exactly once. *)
Theorem local_and_remote_listed_once (out pad n : string) :
  padding pad -> plain_name n ->
  In (pad ++ n)%string (split newline (strip out))
  \/ In (pad ++ "remotes/origin/" ++ n)%string (split newline (strip out)) ->
  count_occ string_dec (branches_of_output out) n = 1.
Proof.
  intros Hpad Hn Hin.
  assert (Hb : In n (branches_of_output out)).
  { rewrite branches_of_output_candidates, extend_In. right.
    apply In_candidates. destruct Hin as [H|H]; eexists; (split; [exact H|]).
    - now apply listed_name_local.
    - now apply listed_name_remote. }
  assert (Hd : NoDup (branches_of_output out)).
  { rewrite branches_of_output_candidates. apply extend_NoDup. constructor. }
  apply (count_occ_In string_dec) in Hb.
  rewrite (NoDup_count_occ string_dec) in Hd. specialize (Hd n). lia.
Qed.

End BranchNameProperties.

Lemma local_and_remote_listed_once_witness :
  count_occ string_dec
    (branches_of_output
       ("* main" ++ LF ++ "  remotes/origin/HEAD -> origin/main" ++ LF
        ++ "  remotes/origin/main" ++ LF))
    "main" = 1.
Proof.
  apply (local_and_remote_listed_once _ "* " "main").
  - reflexivity.
  - repeat split; discriminate.
  - left. vm_compute. tauto.
Defined.

(** ** The repository marker *)

Lemma endswith_char_app (p : string) (c : ascii) :
  endswith_char (p ++ String c "") c = true.
Proof.
  induction p as [|d p IH]; cbn.
  - apply Ascii.eqb_refl.
  - destruct (p ++ String c "")%string eqn:E; [|exact IH].
    destruct p; discriminate E.
Qed.

Lemma append_assoc (a b c : string) :
  ((a ++ b) ++ c)%string = (a ++ b ++ c)%string.
Proof. induction a as [|x a IH]; cbn; [reflexivity | now rewrite IH]. Qed.

(** A slash at the end of the path does not change where the marker is
    looked for: [is_git_repo] answers the same with and without it. *)
Theorem marker_ignores_trailing_slash (fs : FileSystem) (path : string) :
  path <> "" -> endswith_char path "/" = false ->
  os_path_join (path ++ "/") ".git" = os_path_join path ".git"
  /\ is_git_repo fs (path ++ "/") = is_git_repo fs path.
Proof.
  intros Hne He.
  assert (E : os_path_join (path ++ "/") ".git" = os_path_join path ".git").
  { unfold os_path_join. cbn [startswith String.prefix].
    change (startswith ".git" "/") with false. cbv iota.
    rewrite endswith_char_app, orb_true_r, He, orb_false_r.
    apply String.eqb_neq in Hne. rewrite Hne. apply append_assoc. }
  split; [exact E|]. unfold is_git_repo. now rewrite E.
Qed.

Lemma marker_ignores_trailing_slash_witness :
  os_path_join "/home/u/repo/" ".git" = os_path_join "/home/u/repo" ".git"
  /\ is_git_repo (fun _ => Some Directory) "/home/u/repo/"
     = is_git_repo (fun _ => Some Directory) "/home/u/repo".
Proof.
  apply (marker_ignores_trailing_slash (fun _ => Some Directory) "/home/u/repo").
  - discriminate.
  - reflexivity.
Defined.

(** * The dialogs and the main window *)

(** ** Events and the steps of a method *)

Section EventFacts.

Lemma commands_app (xs ys : list Event) :
  commands (xs ++ ys) = commands xs ++ commands ys.
Proof.
  induction xs as [|e xs IH]; [reflexivity|].
  destruct e; cbn; now rewrite ?IH.
Qed.

Lemma commands_Ran (cs : list Call) : commands (map Ran cs) = cs.
Proof. induction cs as [|c cs IH]; cbn; [reflexivity | now rewrite IH]. Qed.

Lemma accepted_app (xs ys : list Event) :
  accepted (xs ++ ys) = accepted xs || accepted ys.
Proof.
  induction xs as [|e xs IH]; [reflexivity|].
  destruct e; cbn; first [exact IH | reflexivity].
Qed.

Lemma accepted_Ran (cs : list Call) : accepted (map Ran cs) = false.
Proof. induction cs as [|c cs IH]; cbn; [reflexivity | exact IH]. Qed.

Lemma toolkit_app (xs ys : list Event) :
  toolkit (xs ++ ys) = toolkit xs ++ toolkit ys.
Proof.
  induction xs as [|e xs IH]; [reflexivity|].
  destruct e; cbn; now rewrite ?IH.
Qed.

Lemma toolkit_Ran (cs : list Call) : toolkit (map Ran cs) = [].
Proof. induction cs as [|c cs IH]; cbn; [reflexivity | exact IH]. Qed.

Context {World : Type}.

Lemma then_pure {A B} (a : A) (k : A -> Ui World B) (w : World) :
  then_ (pure a) k w = k a w.
Proof. unfold then_, pure. cbn. now destruct (k a w). Qed.

Lemma then_emit {B} (e : Event) (k : unit -> Ui World B) (w : World) :
  then_ (emit e) k w = before [e] (k tt w).
Proof. reflexivity. Qed.

Lemma then_lift {A B} (m : World -> Run World A) (k : A -> Ui World B)
  (w : World) :
  (exists a, outcome (m w) = Value a) ->
  exists a,
    outcome (m w) = Value a
    /\ then_ (lift m) k w
       = before (map Ran (calls (m w))) (k a (world (m w))).
Proof.
  intros [a E]. exists a. split; [exact E|].
  unfold then_, lift, before. cbn. now rewrite E.
Qed.

Lemma events_before {A} (evs : list Event) (r : Shown World A) :
  events (before evs r) = evs ++ events r.
Proof. reflexivity. Qed.

Lemma returned_before {A} (evs : list Event) (r : Shown World A) :
  returned (before evs r) = returned r.
Proof. reflexivity. Qed.

Lemma final_before {A} (evs : list Event) (r : Shown World A) :
  final (before evs r) = final r.
Proof. reflexivity. Qed.

End EventFacts.

(** ** The [GitManager] methods always return *)

Section Returns.

Context {World : Type}.
Variable tool : list string -> nat -> World -> Outcome CompletedProcess * World.

Lemma perform_returns (m : Mutation) (w : World) :
  exists a, outcome (perform tool m w) = Value a.
Proof.
  destruct (perform_decided tool m w) as (pre & _ & H). cbv zeta in H.
  destruct (last_outcome tool _ w) as [[cp|e]|]; cbn in H;
    [eauto | eauto | contradiction].
Qed.

Lemma add_remote_returns (p n u : string) (w : World) :
  exists a, outcome (add_remote tool p n u w) = Value a.
Proof. exact (perform_returns (AddRemote p n u) w). Qed.

Lemma set_upstream_returns (p r b : string) (w : World) :
  exists a, outcome (set_upstream tool p r b w) = Value a.
Proof. exact (perform_returns (SetUpstream p r b) w). Qed.

Lemma push_set_upstream_returns (p r b : string) (w : World) :
  exists a, outcome (push_set_upstream tool p r b w) = Value a.
Proof. exact (perform_returns (PushSetUpstream p r b) w). Qed.

Lemma commit_changes_returns (p msg : string) (a : bool) (w : World) :
  exists r, outcome (commit_changes tool p msg a w) = Value r.
Proof. exact (perform_returns (Commit p msg a) w). Qed.

Lemma push_changes_returns (p : string) (w : World) :
  exists a, outcome (push_changes tool p w) = Value a.
Proof. exact (perform_returns (Push p) w). Qed.

Lemma pull_changes_returns (p : string) (w : World) :
  exists a, outcome (pull_changes tool p w) = Value a.
Proof. exact (perform_returns (Pull p) w). Qed.

Lemma checkout_branch_returns (p b : string) (w : World) :
  exists a, outcome (checkout_branch tool p b w) = Value a.
Proof. exact (perform_returns (CheckoutBranch p b) w). Qed.

Lemma create_branch_returns (p b : string) (w : World) :
  exists a, outcome (create_branch tool p b w) = Value a.
Proof. exact (perform_returns (CreateBranch p b) w). Qed.

Lemma rename_branch_returns (p o n : string) (w : World) :
  exists a, outcome (rename_branch tool p o n w) = Value a.
Proof. exact (perform_returns (RenameBranch p o n) w). Qed.

Lemma get_current_branch_returns (p : string) (w : World) :
  exists a, outcome (get_current_branch tool p w) = Value a.
Proof. rewrite get_current_branch_run. eexists. reflexivity. Qed.

Lemma get_repo_status_returns (p : string) (w : World) :
  exists a, outcome (get_repo_status tool p w) = Value a.
Proof.
  rewrite get_repo_status_run. destruct (tool _ 5 w). eexists. reflexivity.
Qed.

Lemma get_all_branches_returns (p : string) (w : World) :
  exists a, outcome (get_all_branches tool p w) = Value a.
Proof.
  rewrite get_all_branches_run. destruct (tool _ 5 w). eexists. reflexivity.
Qed.

Lemma has_upstream_branch_returns (p : string) (w : World) :
  exists a, outcome (has_upstream_branch tool p w) = Value a.
Proof. rewrite has_upstream_branch_run. eexists. reflexivity. Qed.

End Returns.

Create HintDb returns.
#[export] Hint Resolve add_remote_returns set_upstream_returns
  push_set_upstream_returns commit_changes_returns push_changes_returns
  pull_changes_returns checkout_branch_returns create_branch_returns
  rename_branch_returns get_current_branch_returns get_repo_status_returns
  get_all_branches_returns has_upstream_branch_returns : returns.

(** One step of a method: a [GitManager] call, a toolkit call or a
    plain value in front of the rest. *)
Ltac ui_step :=
  match goal with
  | |- context [then_ (lift ?m) ?k ?w] =>
      let a := fresh "a" in
      let Ea := fresh "Ea" in
      let Er := fresh "Er" in
      destruct (then_lift m k w ltac:(auto with returns)) as (a & Ea & Er);
      rewrite Er; clear Er; cbv beta
  | |- context [then_ (emit ?e) ?k ?w] => rewrite (then_emit e k w); cbv beta
  | |- context [then_ (pure ?a) ?k ?w] => rewrite (then_pure a k w); cbv beta
  end.

Create Rewrite HintDb events.
#[export] Hint Rewrite @events_before @returned_before @final_before
  commands_app commands_Ran accepted_app accepted_Ran toolkit_app toolkit_Ran
  app_nil_r : events.

Section StepFacts.

Context {World : Type}.

Lemma then_assoc {A B C} (m : Ui World A) (f : A -> Ui World B)
  (g : B -> Ui World C) (w : World) :
  then_ (then_ m f) g w = then_ m (fun a => then_ (f a) g) w.
Proof.
  unfold then_. destruct (m w) as [[a|e] evs w1]; cbn; [|reflexivity].
  destruct (f a w1) as [[b|e] evs2 w2]; cbn; [|reflexivity].
  destruct (g b w2) as [o evs3 w3]; cbn. now rewrite app_assoc.
Qed.

Lemma then_is_repo {B} (fs_of : World -> FileSystem) (path : string)
  (k : bool -> Ui World B) (w : World) :
  then_ (FileExplorer.is_repo fs_of path) k w
  = k (is_git_repo (fs_of w) path) w.
Proof. unfold then_, FileExplorer.is_repo. cbn. now destruct (k _ w). Qed.

Lemma truthy_true (s : string) : truthy s = true <-> s <> "".
Proof.
  unfold truthy. destruct (String.eqb_spec s ""); cbn; split; congruence.
Qed.

Lemma truthy_false (s : string) : truthy s = false <-> s = "".
Proof.
  unfold truthy. destruct (String.eqb_spec s ""); cbn; split; congruence.
Qed.

End StepFacts.

Ltac ui_go :=
  match goal with
  | |- context [then_ (then_ ?m ?f) ?g ?w] =>
      rewrite (then_assoc m f g w); cbv beta
  | |- context [then_ (FileExplorer.is_repo ?fs ?p) ?k ?w] =>
      rewrite (then_is_repo fs p k w); cbv beta
  | _ => ui_step
  end.

(** Close a leaf of a case analysis: all steps taken, the events
    computed. *)
Ltac ui_done :=
  repeat ui_go; cbn;
  repeat (progress (autorewrite with events; cbn));
  rewrite ?orb_true_r, ?orb_false_r.

(** ** The remote dialog *)

Section RemoteDialog.

Context {World : Type}.
Variable tool : list string -> nat -> World -> Outcome CompletedProcess * World.

(** The dialog never raises.  It is accepted exactly when the name and
    the URL are not blank and the remote was added, whether or not
    setting the upstream then succeeds; with a blank name or URL no
    command is run, and with the box unchecked the only command run is
    the one that adds the remote. *)
Theorem remote_dialog_accepts_iff_added
  (repo_path name_edit url_edit : string) (checked : bool) (w : World) :
  let name := strip name_edit in
  let url := strip url_edit in
  let r := GitRemoteDialog.add_remote tool repo_path name_edit url_edit
             checked w in
  returned r = Value tt
  /\ (accepted (events r) = true
      <-> name <> "" /\ url <> ""
          /\ exists msg,
               outcome (add_remote tool repo_path name url w)
               = Value (true, msg))
  /\ (name = "" \/ url = "" -> commands (events r) = [])
  /\ (name <> "" -> url <> "" -> checked = false ->
      commands (events r) = calls (add_remote tool repo_path name url w)).
Proof.
  intros name url r. unfold r, GitRemoteDialog.add_remote. fold name url.
  destruct (truthy name) eqn:En; cbn [negb].
  2:{ cbn. apply truthy_false in En.
      split; [reflexivity|]. split; [|tauto].
      split; [discriminate|]. tauto. }
  destruct (truthy url) eqn:Eu; cbn [negb].
  2:{ cbn. apply truthy_false in Eu.
      split; [reflexivity|]. split; [|tauto].
      split; [discriminate|]. tauto. }
  apply truthy_true in En, Eu.
  ui_go. destruct a as [success result]. rewrite Ea.
  destruct success; cbn [negb].
  2:{ ui_done. split; [reflexivity|]. split; [|tauto].
      split; [discriminate|]. intros (_ & _ & msg & [=]). }
  assert (Hok : name <> "" /\ url <> ""
                /\ exists msg : string, Value (true, result) = Value (true, msg))
    by (repeat split; eauto).
  destruct checked.
  - ui_go. ui_go. destruct a as [b|].
    + destruct (truthy b).
      * ui_go. ui_go. destruct a as [s2 r2].
        destruct s2; cbn [negb]; ui_done; intuition congruence.
      * ui_done. intuition congruence.
    + ui_done. intuition congruence.
  - ui_done. intuition congruence.
Qed.

End RemoteDialog.

(** ** The commit dialog *)

Section CommitDialog.

Context {World : Type}.
Variable tool : list string -> nat -> World -> Outcome CompletedProcess * World.
Variable none_argument : string.

(** The dialog never raises.  With a blank message it runs no command
    and stays open.  It is accepted exactly when the commit succeeded
    and the push with upstream, if that is the push chosen, succeeded
    too: a failed plain push still closes the dialog, a failed push with
    upstream leaves it open although the commit is made. *)
Theorem commit_dialog_accepts_iff
  (repo_path message_edit : string) (add_all push reply_yes : bool)
  (w : World) :
  let message := strip message_edit in
  let c := commit_changes tool repo_path message add_all w in
  let h := has_upstream_branch tool repo_path (world c) in
  let q := get_current_branch tool repo_path (world h) in
  let r := GitCommitDialog.commit tool none_argument repo_path message_edit
             add_all push reply_yes w in
  returned r = Value tt
  /\ (message = "" -> commands (events r) = [] /\ accepted (events r) = false)
  /\ (accepted (events r) = true
      <-> message <> ""
          /\ (exists msg, outcome c = Value (true, msg))
          /\ (push = true -> outcome h = Value false -> reply_yes = true ->
              exists b msg,
                outcome q = Value (Some b)
                /\ outcome (push_set_upstream tool repo_path "origin" b
                              (world q)) = Value (true, msg))).
Proof.
  intros message c h q r.
  unfold r, GitCommitDialog.commit. fold message.
  destruct (truthy message) eqn:Em; cbn [negb].
  2:{ cbn. apply truthy_false in Em.
      split; [reflexivity|]. split; [tauto|].
      split; [discriminate|]. tauto. }
  apply truthy_true in Em.
  ui_go. fold c in Ea |- *. destruct a as [success result]. rewrite Ea.
  destruct success; cbn [negb].
  2:{ ui_done. split; [reflexivity|]. split; [tauto|].
      split; [discriminate|]. intros (_ & (msg & [=]) & _). }
  assert (Hc : exists msg : string, Value (true, result) = Value (true, msg))
    by eauto.
  destruct push.
  2:{ ui_done. split; [reflexivity|]. split; [tauto|].
      split; [|reflexivity]. intros _. repeat split; auto; discriminate. }
  ui_go. ui_go. fold h in Ea0 |- *. rewrite Ea0.
  destruct a as [|]; cbn [negb].
  { ui_go. ui_go. destruct a as [s2 r2].
    destruct s2; cbn [negb]; ui_done;
      (split; [reflexivity|]); (split; [tauto|]);
      (split; [|reflexivity]); intros _; repeat split; auto; discriminate. }
  ui_go. ui_go. fold q in Ea1 |- *. rewrite Ea1. ui_go. ui_go.
  destruct reply_yes.
  2:{ ui_go. ui_go. destruct a0 as [s2 r2].
      destruct s2; cbn [negb]; ui_done;
        (split; [reflexivity|]); (split; [tauto|]);
        (split; [|reflexivity]); intros _; repeat split; auto; discriminate. }
  ui_go. destruct a as [b|]; cbn [GitCommitDialog.push_set_upstream_to].
  - ui_go. destruct a as [s2 r2].
    destruct s2; cbn [negb]; ui_done;
      (split; [reflexivity|]); (split; [tauto|]).
    + split; [|reflexivity]. intros _. repeat split; auto.
      intros _ _ _. exists b, r2. split; [reflexivity | exact Ea2].
    + split; [discriminate|].
      intros (_ & _ & H). destruct (H eq_refl eq_refl eq_refl)
        as (b' & msg & [= <-] & E). congruence.
  - ui_done. split; [reflexivity|]. split; [tauto|].
    split; [discriminate|].
    intros (_ & _ & H). destruct (H eq_refl eq_refl eq_refl)
      as (b' & msg & [=] & _).
Qed.

End CommitDialog.

Section CommitDialogCommands.

Context {World : Type}.
Variable tool : list string -> nat -> World -> Outcome CompletedProcess * World.
Variable none_argument : string.

Lemma commit_changes_no_push (p msg : string) (a : bool) (w : World) :
  filter is_push (calls (commit_changes tool p msg a w)) = [].
Proof.
  rewrite commit_changes_shape.
  pose proof (guarded_steps_log tool a ["git"; "-C"; p; "add"; "-A"] 5
                "Failed to stage files: "
                ["git"; "-C"; p; "commit"; "-m"; msg] 5
                "Commit successful" w) as H.
  cbv zeta in H. destruct a; [destruct H as [-> | ->] | rewrite H];
    reflexivity.
Qed.

(** The commit dialog runs the commit's commands before any other, at
    most one push command, and a push command only when the message is
    not blank, the commit succeeded and the push box is checked: a
    failed push with upstream is not followed by a plain push. *)
Theorem commit_dialog_pushes_after_commit
  (repo_path message_edit : string) (add_all push reply_yes : bool)
  (w : World) :
  let message := strip message_edit in
  let c := commit_changes tool repo_path message add_all w in
  let r := GitCommitDialog.commit tool none_argument repo_path message_edit
             add_all push reply_yes w in
  let pushes := filter is_push (commands (events r)) in
  (message <> "" -> exists rest, commands (events r) = calls c ++ rest)
  /\ length pushes <= 1
  /\ (pushes <> [] ->
      message <> "" /\ push = true
      /\ exists msg, outcome c = Value (true, msg)).
Proof.
  intros message c r pushes. unfold pushes, r, GitCommitDialog.commit.
  fold message.
  destruct (truthy message) eqn:Em; cbn [negb].
  2:{ cbn. apply truthy_false in Em. repeat split; try tauto; lia. }
  apply truthy_true in Em.
  pose proof (commit_changes_no_push repo_path message add_all w) as Hc.
  fold c in Hc.
  ui_go. fold c in Ea |- *. clearbody c.
  destruct a as [success result]. rewrite Ea.
  destruct success; cbn [negb].
  2:{ ui_done. rewrite Hc. cbn. repeat split; try tauto; try lia.
      exists []. symmetry. apply app_nil_r. }
  assert (Hok : message <> "" /\ true = true
                /\ exists msg : string, Value (true, result) = Value (true, msg))
    by (repeat split; eauto).
  destruct push.
  2:{ ui_done. rewrite Hc. cbn. repeat split; try tauto; try lia.
      exists []. symmetry. apply app_nil_r. }
  ui_go. ui_go. rewrite has_upstream_branch_run in *. cbv zeta in *.
  cbn [calls world outcome] in *.
  destruct a as [|]; cbn [negb].
  { ui_go. ui_go. destruct a as [s2 r2].
    autorewrite with shapes in *. cbn [calls world outcome] in *.
    destruct s2; cbn [negb]; ui_done; rewrite ?filter_app, ?Hc; cbn;
      (split; [intros _; eexists; reflexivity|]);
      (split; [lia | intros _; exact Hok]). }
  ui_go. ui_go. rewrite get_current_branch_run in *. cbv zeta in *.
  cbn [calls world outcome] in *. ui_go. ui_go.
  destruct reply_yes.
  2:{ ui_go. ui_go. destruct a0 as [s2 r2].
      autorewrite with shapes in *. cbn [calls world outcome] in *.
      destruct s2; cbn [negb]; ui_done; rewrite ?filter_app, ?Hc; cbn;
        (split; [intros _; eexists; reflexivity|]);
        (split; [lia | intros _; exact Hok]). }
  ui_go. destruct a as [b|]; cbn [GitCommitDialog.push_set_upstream_to].
  - ui_go. destruct a as [s2 r2].
    autorewrite with shapes in *. cbn [calls world outcome] in *.
    destruct s2; cbn [negb]; ui_done; rewrite ?filter_app, ?Hc; cbn;
      (split; [intros _; eexists; reflexivity|]);
      (split; [lia | intros _; exact Hok]).
  - ui_done. rewrite ?filter_app, ?Hc. cbn.
    split; [intros _; eexists; reflexivity|].
    split; [lia | intros _; exact Hok].
Qed.

End CommitDialogCommands.

(** ** The main window: refreshing the display *)

Section Refresh.

Context {World : Type}.
Variable tool : list string -> nat -> World -> Outcome CompletedProcess * World.
Variable fs_of : World -> FileSystem.

(** The branch selector never raises.  On a path without the marker it
    runs no command and disables the selector and its two buttons.  On
    a repository it asks for the current branch and the branch list,
    blocks the selector's signals before its first change and releases
    them after the last, enables the three controls exactly when the
    list is not empty, and selects the current branch only if it is
    listed. *)
Theorem branch_selector_blocks_signals (self : FileExplorer.Window)
  (w : World) :
  let p := FileExplorer.current_path self in
  let q := get_current_branch tool p w in
  let l := get_all_branches tool p (world q) in
  let r := FileExplorer.update_branch_selector tool fs_of self w in
  returned r = Value tt
  /\ (is_git_repo (fs_of w) p = false ->
      events r = [Clear; SetEnabled BranchCombo false;
                  SetEnabled NewBranchButton false;
                  SetEnabled RenameBranchButton false])
  /\ (is_git_repo (fs_of w) p = true ->
      commands (events r) = calls q ++ calls l
      /\ exists middle,
           toolkit (events r)
           = BlockSignals true :: Clear :: middle ++ [BlockSignals false]
           /\ (forall on, ~ In (BlockSignals on) middle)
           /\ (forall c, In c [BranchCombo; NewBranchButton; RenameBranchButton] ->
                 (In (SetEnabled c true) middle
                  <-> outcome l <> Value [])
                 /\ (In (SetEnabled c false) middle
                     <-> outcome l = Value []))
           /\ (forall x, In (SetCurrentText x) middle ->
                 exists b branches,
                   x = Some b /\ outcome q = Value (Some b)
                   /\ outcome l = Value branches /\ In b branches)).
Proof.
  intros p q l r. unfold r, FileExplorer.update_branch_selector. fold p.
  ui_go. destruct (is_git_repo (fs_of w) p); cbn [negb].
  2:{ ui_done. repeat split; congruence. }
  ui_go. fold q in Ea |- *. ui_go. fold l in Ea0 |- *. clearbody q l.
  rewrite Ea, Ea0. ui_go. ui_go.
  destruct a0 as [|b0 bs].
  - ui_done. split; [reflexivity|]. split; [discriminate|]. intros _.
    split; [reflexivity|].
    exists [SetEnabled BranchCombo false; SetEnabled NewBranchButton false;
            SetEnabled RenameBranchButton false].
    split; [reflexivity|].
    split; [|split].
    + intros on [H|[H|[H|[]]]]; discriminate H.
    + intros c Hc. split; split; try congruence.
      * intros [H|[H|[H|[]]]]; discriminate H.
      * intros _. cbn. destruct Hc as [<-|[<-|[<-|[]]]]; tauto.
    + intros x [H|[H|[H|[]]]]; discriminate H.
  - ui_go. ui_go.
    assert (Hfin : forall sel : list Event,
      (forall x, In x sel -> x = SetCurrentText a /\ exists b, a = Some b
                            /\ In b (b0 :: bs)) ->
      (forall on, ~ In (BlockSignals on)
                    (AddItems (b0 :: bs) :: sel ++
                     [SetEnabled BranchCombo true;
                      SetEnabled NewBranchButton true;
                      SetEnabled RenameBranchButton true]))
      /\ (forall c, In c [BranchCombo; NewBranchButton; RenameBranchButton] ->
            (In (SetEnabled c true)
                (AddItems (b0 :: bs) :: sel ++
                 [SetEnabled BranchCombo true;
                  SetEnabled NewBranchButton true;
                  SetEnabled RenameBranchButton true])
             <-> Value (b0 :: bs) <> Value (A:=list string) [])
            /\ (In (SetEnabled c false)
                   (AddItems (b0 :: bs) :: sel ++
                    [SetEnabled BranchCombo true;
                     SetEnabled NewBranchButton true;
                     SetEnabled RenameBranchButton true])
                <-> Value (b0 :: bs) = Value (A:=list string) []))
      /\ (forall x, In (SetCurrentText x)
                      (AddItems (b0 :: bs) :: sel ++
                       [SetEnabled BranchCombo true;
                        SetEnabled NewBranchButton true;
                        SetEnabled RenameBranchButton true]) ->
            exists b branches,
              x = Some b /\ Value a = Value (Some b)
              /\ Value (b0 :: bs) = Value branches /\ In b branches)).
    { intros sel Hsel. split; [|split].
      - intros on [H|H]; [discriminate H|].
        apply in_app_iff in H as [H|[H|[H|[H|[]]]]]; try discriminate H.
        apply Hsel in H as [H _]. discriminate H.
      - intros c Hc. split; split; try discriminate.
        + intros _. right. apply in_app_iff. right. cbn.
          destruct Hc as [<-|[<-|[<-|[]]]]; tauto.
        + intros [H|H]; [discriminate H|].
          apply in_app_iff in H as [H|[H|[H|[H|[]]]]]; try discriminate H.
          apply Hsel in H as [H _]. discriminate H.
      - intros x [H|H]; [discriminate H|].
        apply in_app_iff in H as [H|[H|[H|[H|[]]]]]; try discriminate H.
        apply Hsel in H as [[= ->] (b & -> & Hb)].
        exists b, (b0 :: bs). auto. }
    destruct a as [b|].
    + destruct (mem b (b0 :: bs)) eqn:Em.
      * ui_done. split; [reflexivity|]. split; [discriminate|]. intros _.
        split; [reflexivity|].
        exists (AddItems (b0 :: bs) :: [SetCurrentText (Some b)] ++
                [SetEnabled BranchCombo true; SetEnabled NewBranchButton true;
                 SetEnabled RenameBranchButton true]).
        split; [reflexivity|]. apply Hfin.
        intros x [<-|[]]. split; [reflexivity|]. exists b.
        split; [reflexivity|]. now apply mem_In.
      * ui_done. split; [reflexivity|]. split; [discriminate|]. intros _.
        split; [reflexivity|].
        exists (AddItems (b0 :: bs) :: [] ++
                [SetEnabled BranchCombo true; SetEnabled NewBranchButton true;
                 SetEnabled RenameBranchButton true]).
        split; [reflexivity|]. apply Hfin. intros x [].
    + ui_done. split; [reflexivity|]. split; [discriminate|]. intros _.
      split; [reflexivity|].
      exists (AddItems (b0 :: bs) :: [] ++
              [SetEnabled BranchCombo true; SetEnabled NewBranchButton true;
               SetEnabled RenameBranchButton true]).
      split; [reflexivity|]. apply Hfin. intros x [].
Qed.

End Refresh.

(** ** The main window: what a refresh runs *)

Section RefreshFacts.

Context {World : Type}.
Variable tool : list string -> nat -> World -> Outcome CompletedProcess * World.
Variable fs_of : World -> FileSystem.

Lemma get_current_branch_calls (p : string) (w : World) :
  calls (get_current_branch tool p w)
  = [mkCall ["git"; "-C"; p; "branch"; "--show-current"] 2].
Proof. now rewrite get_current_branch_run. Qed.

Lemma get_repo_status_calls (p : string) (w : World) :
  calls (get_repo_status tool p w)
  = [mkCall ["git"; "-C"; p; "status"; "--porcelain"] 5].
Proof. rewrite get_repo_status_run. now destruct (tool _ 5 w). Qed.

Lemma get_all_branches_calls (p : string) (w : World) :
  calls (get_all_branches tool p w)
  = [mkCall ["git"; "-C"; p; "branch"; "-a"] 5].
Proof. rewrite get_all_branches_run. now destruct (tool _ 5 w). Qed.

Lemma reads_only_verb (p : string) (c : Call) :
  reads_only p c -> verb c = "branch" \/ verb c = "status".
Proof. intros [<-|[<-|[<-|[]]]]; cbn; auto. Qed.

Lemma selector_run (self : FileExplorer.Window) (w : World) :
  let r := FileExplorer.update_branch_selector tool fs_of self w in
  returned r = Value tt
  /\ Forall (reads_only (FileExplorer.current_path self)) (commands (events r))
  /\ (forall t, ~ In (SetLabel t) (events r)).
Proof.
  cbv zeta. unfold FileExplorer.update_branch_selector.
  ui_go. destruct (is_git_repo (fs_of w) _); cbn [negb].
  2:{ ui_done. split; [reflexivity|]. split; [constructor|].
      intros t [H|[H|[H|[H|[]]]]]; discriminate H. }
  ui_go. ui_go. ui_go. ui_go.
  assert (Hq : Forall (reads_only (FileExplorer.current_path self))
                 (calls (get_current_branch tool (FileExplorer.current_path self) w)
                  ++ calls (get_all_branches tool (FileExplorer.current_path self)
                              (world (get_current_branch tool
                                        (FileExplorer.current_path self) w))))).
  { rewrite get_current_branch_calls, get_all_branches_calls.
    cbn. repeat (apply Forall_cons; [unfold reads_only; cbn; auto 6|]).
    apply Forall_nil. }
  assert (Hl : forall (t : string) (cs : list Call) (evs : list Event),
             (forall e, In e evs -> e <> SetLabel t) ->
             ~ In (SetLabel t) (map Ran cs ++ evs)).
  { intros t cs evs H Hin. apply in_app_iff in Hin as [Hin|Hin].
    - apply in_map_iff in Hin as (c & [=] & _).
    - exact (H _ Hin eq_refl). }
  destruct a0 as [|b0 bs].
  - ui_done. split; [reflexivity|]. split; [exact Hq|].
    intros t. rewrite app_assoc, <- map_app. apply Hl.
    intros e [<-|[<-|[<-|[<-|[<-|[<-|[]]]]]]]; discriminate.
  - ui_go. ui_go. destruct a as [b|]; [destruct (mem b (b0 :: bs))|];
      ui_done; (split; [reflexivity|]); (split; [exact Hq|]);
      intros t; rewrite app_assoc, <- map_app; apply Hl; intros e He;
      repeat (destruct He as [<-|He]; [discriminate|]); destruct He.
Qed.

Lemma refresh_run (self : FileExplorer.Window) (w : World) :
  let r := FileExplorer.update_git_status_display tool fs_of self w in
  returned r = Value tt
  /\ Forall (reads_only (FileExplorer.current_path self)) (commands (events r)).
Proof.
  cbv zeta. unfold FileExplorer.update_git_status_display.
  ui_go. destruct (is_git_repo (fs_of w) _).
  2:{ ui_done. split; [reflexivity | constructor]. }
  ui_go. ui_go. ui_go.
  match goal with
  | |- context [FileExplorer.update_branch_selector tool fs_of self ?w'] =>
      destruct (selector_run self w') as (Hr & Hc & _);
      destruct (FileExplorer.update_branch_selector tool fs_of self w')
        as [o evs w2]
  end.
  cbn in Hr, Hc. subst o. unfold then_. cbn.
  autorewrite with events. split; [reflexivity|].
  rewrite get_current_branch_calls, get_repo_status_calls.
  cbn. repeat (apply Forall_cons; [unfold reads_only; cbn; auto 6|]).
  exact Hc.
Qed.

End RefreshFacts.

Section RefreshProperties.

Context {World : Type}.
Variable tool : list string -> nat -> World -> Outcome CompletedProcess * World.
Variable fs_of : World -> FileSystem.

(** Refreshing the display never raises and changes nothing in the
    repository: each command it runs asks the current path for the
    branch, the status or the branch list, and without the marker it
    runs none.  With the marker it asks for the branch and the status
    first.  The label is set once, before anything else in the
    toolkit. *)
Theorem refresh_only_reads (self : FileExplorer.Window) (w : World) :
  let p := FileExplorer.current_path self in
  let q := get_current_branch tool p w in
  let s := get_repo_status tool p (world q) in
  let r := FileExplorer.update_git_status_display tool fs_of self w in
  returned r = Value tt
  /\ Forall (reads_only p) (commands (events r))
  /\ (is_git_repo (fs_of w) p = false -> commands (events r) = [])
  /\ (is_git_repo (fs_of w) p = true ->
      exists rest, commands (events r) = calls q ++ calls s ++ rest)
  /\ exists text rest,
       toolkit (events r) = SetLabel text :: rest
       /\ forall t, ~ In (SetLabel t) rest.
Proof.
  intros p q s r.
  destruct (refresh_run tool fs_of self w) as (Hr & Hc). fold r p in Hr, Hc.
  split; [exact Hr|]. split; [exact Hc|]. clear Hr Hc.
  unfold r, FileExplorer.update_git_status_display. fold p.
  ui_go. destruct (is_git_repo (fs_of w) p).
  2:{ ui_done. split; [reflexivity|]. split; [discriminate|].
      do 2 eexists. split; [reflexivity|].
      intros t [H|[H|[H|[H|[]]]]]; discriminate H. }
  ui_go. fold q in Ea |- *. ui_go. fold s in Ea0 |- *. ui_go.
  match goal with
  | |- context [FileExplorer.update_branch_selector tool fs_of self ?w'] =>
      destruct (selector_run tool fs_of self w') as (Hr & _ & Hl);
      destruct (FileExplorer.update_branch_selector tool fs_of self w')
        as [o evs w2]
  end.
  cbn in Hr, Hl. subst o. unfold then_. cbn. autorewrite with events.
  split; [discriminate|]. split; [intros _; eexists; reflexivity|].
  do 2 eexists. split; [reflexivity|].
  intros t Hin. apply (Hl t). clear - Hin.
  induction evs as [|e evs IH]; [destruct Hin|].
  destruct e; cbn in Hin |- *;
    try (destruct Hin as [Hin|Hin]; [now left | right; now apply IH]).
  right. now apply IH.
Qed.

End RefreshProperties.

(** ** The main window: the branch actions *)

Section ActionFacts.

Context {World : Type}.
Variable tool : list string -> nat -> World -> Outcome CompletedProcess * World.

Lemma checkout_branch_calls (p b : string) (w : World) :
  calls (checkout_branch tool p b w)
  = [mkCall ["git"; "-C"; p; "checkout"; b] 5].
Proof. now autorewrite with shapes. Qed.

Lemma create_branch_calls (p b : string) (w : World) :
  calls (create_branch tool p b w)
  = [mkCall ["git"; "-C"; p; "checkout"; "-b"; b] 5].
Proof. now autorewrite with shapes. Qed.

Lemma pull_changes_calls (p : string) (w : World) :
  calls (pull_changes tool p w) = [mkCall ["git"; "-C"; p; "pull"] 30].
Proof. now autorewrite with shapes. Qed.

Lemma push_changes_calls (p : string) (w : World) :
  calls (push_changes tool p w) = [mkCall ["git"; "-C"; p; "push"] 30].
Proof. now autorewrite with shapes. Qed.

Lemma differs_false (a : option string) (n : string) :
  differs a n = false <-> a = Some n.
Proof.
  destruct a as [b|]; cbn; [|split; discriminate].
  destruct (String.eqb_spec b n); cbn; split; congruence.
Qed.

Lemma reads_only_or (p : string) (x : Call) (cs : list Call) :
  Forall (reads_only p) cs -> Forall (fun c => c = x \/ reads_only p c) cs.
Proof. apply Forall_impl. auto. Qed.

Lemma reads_only_other (p : string) (x : Call) (cs : list Call) :
  Forall (reads_only p) cs ->
  verb x <> "branch" -> verb x <> "status" -> ~ In x cs.
Proof.
  intros H Hb Hs Hin. rewrite Forall_forall in H.
  destruct (reads_only_verb p x (H x Hin)); contradiction.
Qed.

Lemma reads_only_query (p : string) :
  reads_only p (mkCall ["git"; "-C"; p; "branch"; "--show-current"] 2).
Proof. now left. Qed.

End ActionFacts.

(** Compute the events of a run whose steps are all taken, leaving the
    texts and the predicates on commands as they are. *)
Ltac ui_events :=
  repeat (progress (autorewrite with events;
                    cbn [commands toolkit accepted events returned final
                         app map before])).

Section BranchSwitch.

Context {World : Type}.
Variable tool : list string -> nat -> World -> Outcome CompletedProcess * World.
Variable fs_of : World -> FileSystem.
Variable set_current_text_none : Outcome unit.

(** Choosing a branch in the selector checks it out exactly when the
    name is not empty, the path has the marker, the name is not the
    current branch and the question was answered with yes; the question
    comes before the checkout, and nothing else is run that changes the
    repository.  With an empty name or without the marker nothing
    happens at all.  When the switch is declined or fails, the selector
    is put back to the known current branch with its signals blocked.
    The handler can raise only where it passes an unknown current branch
    to the selector. *)
Theorem branch_switch_needs_consent (self : FileExplorer.Window)
  (branch_name : string) (reply_yes : bool) (w : World) :
  let p := FileExplorer.current_path self in
  let q := get_current_branch tool p w in
  let co := checkout_branch tool p branch_name (world q) in
  let r := FileExplorer.on_branch_changed tool fs_of set_current_text_none
             self branch_name reply_yes w in
  let query := mkCall ["git"; "-C"; p; "branch"; "--show-current"] 2 in
  let switch := mkCall ["git"; "-C"; p; "checkout"; branch_name] 5 in
  let chosen := branch_name <> "" /\ is_git_repo (fs_of w) p = true
                /\ outcome q <> Value (Some branch_name) in
  (In switch (commands (events r)) <-> chosen /\ reply_yes = true)
  /\ Forall (fun c => c = switch \/ reads_only p c) (commands (events r))
  /\ (branch_name = "" \/ is_git_repo (fs_of w) p = false ->
      events r = [] /\ returned r = Value tt)
  /\ (chosen -> reply_yes = true ->
      exists text rest,
        events r = Ran query :: MessageBox Question "Switch Branch" text
                   :: Ran switch :: rest)
  /\ (returned r = Value tt
      \/ outcome q = Value None /\ returned r = set_current_text_none)
  /\ (forall b, chosen -> outcome q = Value (Some b) ->
        reply_yes = false \/ (exists msg, outcome co = Value (false, msg)) ->
        exists front,
          toolkit (events r)
          = front ++ [BlockSignals true; SetCurrentText (Some b);
                      BlockSignals false]).
Proof.
  intros p q co r query switch chosen.
  unfold chosen, r, FileExplorer.on_branch_changed. fold p.
  assert (Hsw : forall cs, Forall (reads_only p) cs -> ~ In switch cs)
    by (intros cs H; apply (reads_only_other p switch cs H); discriminate).
  assert (Hq1 : Forall (reads_only p) [query])
    by (repeat constructor).
  destruct (truthy branch_name) eqn:En; cbn [negb].
  2:{ apply truthy_false in En. cbn.
      repeat split; try tauto; try constructor. }
  apply truthy_true in En.
  ui_go. destruct (is_git_repo (fs_of w) p) eqn:Erepo; cbn [negb].
  2:{ cbn. repeat split; try tauto; try constructor; try intros [];
        intuition discriminate. }
  ui_go. fold q in Ea |- *.
  pose proof (get_current_branch_calls tool p w) as Hcq. fold q query in Hcq.
  clearbody q.
  destruct (differs a branch_name) eqn:Ed; cbn [negb].
  2:{ apply differs_false in Ed. subst a. ui_done. rewrite Hcq.
      split; [split; [intros H; destruct (Hsw _ Hq1 H) | intuition congruence]|].
      split; [now apply reads_only_or|].
      split; [intuition discriminate|].
      split; [intuition congruence|].
      split; [now left|].
      intros b (_ & _ & H). congruence. }
  assert (Hne : outcome q <> Value (Some branch_name)).
  { rewrite Ea. intros [= ->]. cbn in Ed.
    now rewrite String.eqb_refl in Ed. }
  ui_go.
  assert (Hback : forall w' : World,
    let r' := then_ (FileExplorer.set_current_text set_current_text_none a)
                (fun _ => emit (BlockSignals false)) w' in
    (returned r' = Value tt
     \/ Value a = Value None /\ returned r' = set_current_text_none)
    /\ commands (events r') = []
    /\ forall b, Value a = Value (Some b) ->
         toolkit (events r') = [SetCurrentText (Some b); BlockSignals false]).
  { intros w' r'. unfold r'. destruct a as [b|].
    - cbn [FileExplorer.set_current_text]. ui_done.
      split; [now left|]. split; [reflexivity|].
      now intros b' [= <-].
    - unfold then_, emit, FileExplorer.set_current_text, before. cbn.
      destruct set_current_text_none as [[]|e]; cbn;
        (split; [auto|]); (split; [reflexivity|]); intros b [=]. }
  destruct reply_yes.
  - ui_go.
    pose proof (checkout_branch_calls tool p branch_name (world q)) as Hcc.
    fold co switch in Hcc, Ea0 |- *. clearbody co.
    destruct a0 as [success result]. destruct success.
    + ui_go.
      destruct (refresh_run tool fs_of self (world co)) as (Hr & Hc).
      fold p in Hc.
      destruct (FileExplorer.update_git_status_display tool fs_of self
                  (world co)) as [o evs w2].
      cbn in Hr, Hc. subst o. ui_events. rewrite Hcq, Hcc. ui_events.
      split; [split; [intuition congruence | intros _; right; now left]|].
      split; [constructor; [right; apply reads_only_query|];
              constructor; [now left | now apply reads_only_or]|].
      split; [intuition discriminate|].
      split; [intros _ _; do 2 eexists; reflexivity|].
      split; [now left|].
      intros b _ _ [H|(msg & H)]; [discriminate H|]. congruence.
    + repeat ui_go.
      destruct (Hback (world co)) as (Hret & Hcmd & Htk).
      match type of Hret with
      | context [returned ?t] => destruct t as [o evs w2]
      end.
      cbn in Hret, Hcmd, Htk. ui_events. rewrite Hcq, Hcc, Hcmd. ui_events.
      split; [split; [intuition congruence | intros _; right; now left]|].
      split; [constructor; [right; apply reads_only_query|];
              constructor; [now left | constructor]|].
      split; [intuition discriminate|].
      split; [intros _ _; do 2 eexists; reflexivity|].
      split; [rewrite Ea; exact Hret|].
      intros b _ Hb _. rewrite Ea in Hb. rewrite (Htk b Hb).
      eexists (_ :: _ :: nil). reflexivity.
  - repeat ui_go.
    destruct (Hback (world q)) as (Hret & Hcmd & Htk).
    match type of Hret with
    | context [returned ?t] => destruct t as [o evs w2]
    end.
    cbn in Hret, Hcmd, Htk. ui_events. rewrite Hcq, Hcmd. ui_events.
    split; [split; [intros [H|[]]; discriminate H | intuition discriminate]|].
    split; [constructor; [right; apply reads_only_query | constructor]|].
    split; [intuition discriminate|].
    split; [discriminate|].
    split; [rewrite Ea; exact Hret|].
    intros b _ Hb _. rewrite Ea in Hb. rewrite (Htk b Hb).
    eexists (_ :: nil). reflexivity.
Qed.

End BranchSwitch.

Section RemoteActions.

Context {World : Type}.
Variable tool : list string -> nat -> World -> Outcome CompletedProcess * World.
Variable fs_of : World -> FileSystem.

(** Pulling from the tool bar never raises.  The pull is run exactly
    when the path has the marker and the question was answered with
    yes; it is asked for first, and the display is refreshed after it
    whether it succeeded or not, in the state the pull left.  No other
    command that changes the repository is run; without the marker
    nothing happens at all. *)
Theorem pull_asks_then_refreshes (self : FileExplorer.Window)
  (reply_yes : bool) (w : World) :
  let p := FileExplorer.current_path self in
  let pl := pull_changes tool p w in
  let r := FileExplorer.git_pull tool fs_of self reply_yes w in
  let pull := mkCall ["git"; "-C"; p; "pull"] 30 in
  let question := MessageBox Question "Git Pull"
                    "Pull changes from remote repository?" in
  returned r = Value tt
  /\ (In pull (commands (events r))
      <-> is_git_repo (fs_of w) p = true /\ reply_yes = true)
  /\ Forall (fun c => c = pull \/ reads_only p c) (commands (events r))
  /\ (is_git_repo (fs_of w) p = false -> events r = [])
  /\ (is_git_repo (fs_of w) p = true -> reply_yes = false ->
      events r = [question])
  /\ (is_git_repo (fs_of w) p = true -> reply_yes = true ->
      exists box,
        events r
        = question :: Ran pull :: box
          :: events (FileExplorer.update_git_status_display tool fs_of self
                       (world pl))
        /\ (box = MessageBox Information "Success"
                    "Changes pulled successfully!"
            <-> exists msg, outcome pl = Value (true, msg))).
Proof.
  intros p pl r pull question.
  unfold r, FileExplorer.git_pull. fold p.
  assert (Hsw : forall cs, Forall (reads_only p) cs -> ~ In pull cs)
    by (intros cs H; apply (reads_only_other p pull cs H); discriminate).
  ui_go. destruct (is_git_repo (fs_of w) p); cbn [negb].
  2:{ cbn. split; [reflexivity|]. split; [split; [intros [] | intros [[=] _]]|].
      split; [constructor|]. split; [reflexivity|].
      split; discriminate. }
  ui_go. destruct reply_yes.
  2:{ cbn. split; [reflexivity|]. split; [split; [intros [] | intros [_ [=]]]|].
      split; [constructor|]. split; [discriminate|].
      split; [reflexivity | discriminate]. }
  ui_go. fold pl in Ea |- *.
  pose proof (pull_changes_calls tool p w) as Hcc. fold pl pull in Hcc.
  clearbody pl. destruct a as [success result].
  destruct (refresh_run tool fs_of self (world pl)) as (Hr & Hc).
  fold p in Hc.
  destruct success; ui_go; ui_events; rewrite Hr, Hcc; ui_events;
    (split; [reflexivity|]);
    (split; [split; [tauto | intros _; now left]|]);
    (split; [constructor; [now left | now apply reads_only_or]|]);
    (split; [discriminate|]); (split; [discriminate|]);
    intros _ _; eexists; (split; [reflexivity|]); rewrite Ea.
  - split; eauto.
  - split; [discriminate | intros (msg & [=])].
Qed.

(** Pushing from the tool bar never raises.  The push is run exactly
    when the path has the marker and the question was answered with
    yes; it is asked for first, and the display is refreshed after it
    whether it succeeded or not, in the state the push left.  No other
    command that changes the repository is run; without the marker
    nothing happens at all. *)
Theorem push_asks_then_refreshes (self : FileExplorer.Window)
  (reply_yes : bool) (w : World) :
  let p := FileExplorer.current_path self in
  let ps := push_changes tool p w in
  let r := FileExplorer.git_push tool fs_of self reply_yes w in
  let push := mkCall ["git"; "-C"; p; "push"] 30 in
  let question := MessageBox Question "Git Push"
                    "Push changes to remote repository?" in
  returned r = Value tt
  /\ (In push (commands (events r))
      <-> is_git_repo (fs_of w) p = true /\ reply_yes = true)
  /\ Forall (fun c => c = push \/ reads_only p c) (commands (events r))
  /\ (is_git_repo (fs_of w) p = false -> events r = [])
  /\ (is_git_repo (fs_of w) p = true -> reply_yes = false ->
      events r = [question])
  /\ (is_git_repo (fs_of w) p = true -> reply_yes = true ->
      exists box,
        events r
        = question :: Ran push :: box
          :: events (FileExplorer.update_git_status_display tool fs_of self
                       (world ps))
        /\ (box = MessageBox Information "Success"
                    "Changes pushed successfully!"
            <-> exists msg, outcome ps = Value (true, msg))).
Proof.
  intros p ps r push question.
  unfold r, FileExplorer.git_push. fold p.
  assert (Hsw : forall cs, Forall (reads_only p) cs -> ~ In push cs)
    by (intros cs H; apply (reads_only_other p push cs H); discriminate).
  ui_go. destruct (is_git_repo (fs_of w) p); cbn [negb].
  2:{ cbn. split; [reflexivity|]. split; [split; [intros [] | intros [[=] _]]|].
      split; [constructor|]. split; [reflexivity|].
      split; discriminate. }
  ui_go. destruct reply_yes.
  2:{ cbn. split; [reflexivity|]. split; [split; [intros [] | intros [_ [=]]]|].
      split; [constructor|]. split; [discriminate|].
      split; [reflexivity | discriminate]. }
  ui_go. fold ps in Ea |- *.
  pose proof (push_changes_calls tool p w) as Hcc. fold ps push in Hcc.
  clearbody ps. destruct a as [success result].
  destruct (refresh_run tool fs_of self (world ps)) as (Hr & Hc).
  fold p in Hc.
  destruct success; ui_go; ui_events; rewrite Hr, Hcc; ui_events;
    (split; [reflexivity|]);
    (split; [split; [tauto | intros _; now left]|]);
    (split; [constructor; [now left | now apply reads_only_or]|]);
    (split; [discriminate|]); (split; [discriminate|]);
    intros _ _; eexists; (split; [reflexivity|]); rewrite Ea.
  - split; eauto.
  - split; [discriminate | intros (msg & [=])].
Qed.

End RemoteActions.

Section BranchDialogs.

Context {World : Type}.
Variable tool : list string -> nat -> World -> Outcome CompletedProcess * World.
Variable fs_of : World -> FileSystem.

Lemma rename_branch_stable (p old_name new_name : string) (w : World) :
  outcome (get_current_branch tool p w) = Value (Some old_name) ->
  calls (rename_branch tool p old_name new_name w)
  = [mkCall ["git"; "-C"; p; "branch"; "--show-current"] 2;
     mkCall ["git"; "-C"; p; "branch"; "-m"; new_name] 5].
Proof.
  intros H. rewrite rename_branch_shape. cbv zeta. unfold value_of.
  rewrite H. cbn [differs]. rewrite String.eqb_refl. cbn [negb].
  rewrite guarded_steps_skip. cbn [prepend calls].
  now rewrite get_current_branch_calls.
Qed.

(** Creating a branch from the window never raises.  The branch is
    created, under the entered name without the white space around it,
    exactly when the path has the marker, the input was confirmed and
    the name is not blank; nothing else is run that changes the
    repository.  A name of white space only is refused with a warning;
    after a failed creation the display is not refreshed, after a
    successful one it is, in the state the creation left. *)
Theorem new_branch_uses_trimmed_name (self : FileExplorer.Window)
  (text : string) (ok : bool) (w : World) :
  let p := FileExplorer.current_path self in
  let name := strip text in
  let cr := create_branch tool p name w in
  let r := FileExplorer.create_new_branch tool fs_of self text ok w in
  let create := mkCall ["git"; "-C"; p; "checkout"; "-b"; name] 5 in
  let input := GetText "Create New Branch" "Enter new branch name:" "" in
  returned r = Value tt
  /\ (In create (commands (events r))
      <-> is_git_repo (fs_of w) p = true /\ ok = true /\ name <> "")
  /\ Forall (fun c => c = create \/ reads_only p c) (commands (events r))
  /\ (is_git_repo (fs_of w) p = true -> ok = true -> text <> "" ->
      name = "" ->
      events r = [input; MessageBox Warning "Invalid Name"
                           "Branch name cannot be empty."])
  /\ (is_git_repo (fs_of w) p = true -> ok = true -> name <> "" ->
      forall msg,
        (outcome cr = Value (false, msg) ->
         events r = [input; Ran create;
                     MessageBox Critical "Failed"
                       ("Failed to create branch:" ++ LF ++ msg)])
        /\ (outcome cr = Value (true, msg) ->
            events r
            = input :: Ran create :: MessageBox Information "Success" msg
              :: events (FileExplorer.update_git_status_display tool fs_of
                           self (world cr)))).
Proof.
  intros p name cr r create input.
  unfold r, FileExplorer.create_new_branch. fold p.
  assert (Hsw : forall cs, Forall (reads_only p) cs -> ~ In create cs)
    by (intros cs H; apply (reads_only_other p create cs H); discriminate).
  ui_go. destruct (is_git_repo (fs_of w) p); cbn [negb].
  2:{ cbn. split; [reflexivity|].
      split; [split; [intros [] | intros [[=] _]]|].
      split; [constructor|]. split; discriminate. }
  ui_go. destruct ok; cbn [andb].
  2:{ cbn. split; [reflexivity|].
      split; [split; [intros [] | intros (_ & [=] & _)]|].
      split; [constructor|]. split; discriminate. }
  destruct (truthy text) eqn:Et.
  2:{ apply truthy_false in Et. cbn.
      assert (Hn : name = "") by (unfold name; now rewrite Et).
      split; [reflexivity|].
      split; [split; [intros [] | intros (_ & _ & H); contradiction]|].
      split; [constructor|]. split; [intros _ _ H; contradiction|].
      intros _ _ H. contradiction. }
  apply truthy_true in Et. fold name.
  destruct (truthy name) eqn:En; cbn [negb].
  2:{ apply truthy_false in En. cbn.
      split; [reflexivity|].
      split; [split; [intros [] | intros (_ & _ & H); contradiction]|].
      split; [constructor|]. split; [reflexivity|].
      intros _ _ H. contradiction. }
  apply truthy_true in En.
  ui_go. fold cr in Ea |- *.
  pose proof (create_branch_calls tool p name w) as Hcc. fold cr create in Hcc.
  clearbody cr. destruct a as [success result].
  destruct (refresh_run tool fs_of self (world cr)) as (Hr & Hc).
  fold p in Hc.
  destruct success; repeat ui_go; ui_events; rewrite ?Hr, Hcc; ui_events;
    (split; [reflexivity|]);
    (split; [split; [tauto | intros _; now left]|]).
  - split; [constructor; [now left | now apply reads_only_or]|].
    split; [intros _ _ _ H; contradiction|].
    intros _ _ _ msg. rewrite Ea. split; [discriminate|].
    now intros [= <-].
  - split; [constructor; [now left | constructor]|].
    split; [intros _ _ _ H; contradiction|].
    intros _ _ _ msg. rewrite Ea. split; [|discriminate].
    now intros [= <-].
Qed.

(** Renaming the current branch from the window never raises, and as
    long as the tool names the same current branch when it is asked
    again, no checkout is run: the only command that changes the
    repository is the renaming itself, to the entered name without the
    white space around it.  It is run exactly when the path has the
    marker, the current branch is known and not empty, the input was
    confirmed and the new name is neither blank nor the current one.
    With an unknown current branch the window only warns. *)
Theorem rename_dialog_runs_no_checkout (self : FileExplorer.Window)
  (text : string) (ok : bool) (w : World)
  (stable :
     outcome (get_current_branch tool (FileExplorer.current_path self)
                (world (get_current_branch tool
                          (FileExplorer.current_path self) w)))
     = outcome (get_current_branch tool (FileExplorer.current_path self) w)) :
  let p := FileExplorer.current_path self in
  let q := get_current_branch tool p w in
  let r := FileExplorer.rename_current_branch tool fs_of self text ok w in
  let new_name := strip text in
  let rename := mkCall ["git"; "-C"; p; "branch"; "-m"; new_name] 5 in
  returned r = Value tt
  /\ Forall (fun c => c = rename \/ reads_only p c) (commands (events r))
  /\ (In rename (commands (events r))
      <-> is_git_repo (fs_of w) p = true /\ ok = true /\ new_name <> ""
          /\ exists current,
               outcome q = Value (Some current)
               /\ current <> "" /\ current <> new_name)
  /\ (is_git_repo (fs_of w) p = true ->
      outcome q = Value None \/ outcome q = Value (Some "") ->
      toolkit (events r)
      = [MessageBox Warning "No Branch"
           "Could not determine current branch."]).
Proof.
  intros p q r new_name rename. fold p in stable. fold q in stable.
  unfold r, FileExplorer.rename_current_branch. fold p.
  set (query := mkCall ["git"; "-C"; p; "branch"; "--show-current"] 2).
  assert (Hsw : forall cs, Forall (reads_only p) cs -> ~ In rename cs).
  { intros cs H Hin. rewrite Forall_forall in H.
    destruct (H _ Hin) as [E|[E|[E|[]]]]; discriminate E. }
  assert (Hq1 : Forall (reads_only p) [query]) by (repeat constructor).
  ui_go. destruct (is_git_repo (fs_of w) p); cbn [negb].
  2:{ cbn. split; [reflexivity|]. split; [constructor|].
      split; [split; [intros [] | intros [[=] _]]|]. discriminate. }
  ui_go. fold q in Ea |- *.
  pose proof (get_current_branch_calls tool p w) as Hcq. fold q query in Hcq.
  clearbody q. rewrite Ea.
  assert (Hquiet : forall current : string,
            (ok = true /\ new_name <> "" /\ current <> "" 
             /\ current <> new_name -> False) ->
            Forall (fun c => c = rename \/ reads_only p c) [query]
            /\ (In rename [query]
                <-> true = true /\ ok = true /\ new_name <> ""
                    /\ exists c, Value (Some current) = Value (Some c)
                                 /\ c <> "" /\ c <> new_name)).
  { intros current Hcond. split; [now apply reads_only_or|].
    split; [intros H; destruct (Hsw _ Hq1 H)|].
    intros (_ & Hok & Hn & c & [= <-] & Hc & Hne). tauto. }
  destruct a as [current|].
  2:{ ui_done. rewrite Hcq. split; [reflexivity|].
      split; [now apply reads_only_or|].
      split; [|reflexivity].
      split; [intros H; destruct (Hsw _ Hq1 H)|].
      intros (_ & _ & _ & c & [=] & _). }
  destruct (truthy current) eqn:Ec; cbn [negb].
  2:{ apply truthy_false in Ec. subst current. ui_done. rewrite Hcq.
      split; [reflexivity|].
      destruct (Hquiet "") as (H1 & H2); [tauto|].
      split; [exact H1|]. split; [exact H2 | reflexivity]. }
  apply truthy_true in Ec.
  assert (Hwarn : Value (Some current) = Value (A:=option string) None
                  \/ Value (Some current) = Value (Some "") -> False).
  { intros [H|H]; congruence. }
  ui_go.
  destruct ok; cbn [andb].
  2:{ ui_done. rewrite Hcq. split; [reflexivity|].
      destruct (Hquiet current) as (H1 & H2); [intros ([=] & _)|].
      split; [exact H1|]. split; [exact H2|].
      intros _ H. destruct (Hwarn H). }
  destruct (truthy text) eqn:Et.
  2:{ apply truthy_false in Et.
      assert (Hn : new_name = "") by (unfold new_name; now rewrite Et).
      ui_done. rewrite Hcq. split; [reflexivity|].
      destruct (Hquiet current) as (H1 & H2); [tauto|].
      split; [exact H1|]. split; [exact H2|].
      intros _ H. destruct (Hwarn H). }
  fold new_name.
  destruct (truthy new_name) eqn:En; cbn [negb].
  2:{ apply truthy_false in En.
      ui_done. rewrite Hcq. split; [reflexivity|].
      destruct (Hquiet current) as (H1 & H2); [tauto|].
      split; [exact H1|]. split; [exact H2|].
      intros _ H. destruct (Hwarn H). }
  apply truthy_true in En.
  destruct (String.eqb_spec new_name current) as [Esame|Hdiff].
  { ui_done. rewrite Hcq. split; [reflexivity|].
    destruct (Hquiet current) as (H1 & H2); [intuition congruence|].
    split; [exact H1|]. split; [exact H2|].
    intros _ H. destruct (Hwarn H). }
  ui_go.
  pose proof (rename_branch_stable p current new_name (world q)) as Hcr.
  rewrite stable, Ea in Hcr. specialize (Hcr eq_refl).
  fold query rename in Hcr.
  set (rb := rename_branch tool p current new_name (world q)) in *.
  clearbody rb. destruct a as [success result].
  destruct (refresh_run tool fs_of self (world rb)) as (Hr & Hc).
  fold p in Hc.
  assert (Hyes : true = true /\ true = true /\ new_name <> ""
                 /\ exists c, Value (Some current) = Value (Some c)
                              /\ c <> "" /\ c <> new_name).
  { repeat split; auto. exists current. repeat split; auto. }
  destruct success; repeat ui_go; ui_events; rewrite ?Hr, Hcq, Hcr; ui_events;
    (split; [reflexivity|]).
  - split; [constructor; [right; apply reads_only_query|];
            constructor; [right; apply reads_only_query|];
            constructor; [now left | now apply reads_only_or]|].
    split; [split; [intros _; exact Hyes | intros _; right; right; now left]|].
    intros _ H. destruct (Hwarn H).
  - split; [constructor; [right; apply reads_only_query|];
            constructor; [right; apply reads_only_query|];
            constructor; [now left | constructor]|].
    split; [split; [intros _; exact Hyes | intros _; right; right; now left]|].
    intros _ H. destruct (Hwarn H).
Qed.

End BranchDialogs.

Lemma rename_dialog_runs_no_checkout_witness :
  In (mkCall ["git"; "-C"; "/repo"; "branch"; "-m"; "trunk"] 5)
     (commands (events
        (FileExplorer.rename_current_branch git
           (fun _ path => if String.eqb path "/repo/.git"
                          then Some Directory else None)
           (FileExplorer.mkWindow "/repo" [] false None)
           " trunk " true (mkRepo "main" ["main"; "dev"])))).
Proof.
  destruct (rename_dialog_runs_no_checkout git
              (fun _ path => if String.eqb path "/repo/.git"
                             then Some Directory else None)
              (FileExplorer.mkWindow "/repo" [] false None)
              " trunk " true (mkRepo "main" ["main"; "dev"]))
    as (_ & _ & H & _).
  - reflexivity.
  - apply H. split; [reflexivity|]. split; [reflexivity|].
    split; [discriminate|]. exists "main".
    split; [reflexivity|]. split; discriminate.
Defined.

(** Take a membership in a computed event list apart. *)
Ltac pick H :=
  repeat match type of H with
         | In _ (_ ++ _) => apply in_app_iff in H as [H|H]
         | In _ (map Ran _) => apply in_map_iff in H as (? & [=] & _)
         | In _ (_ :: _) => destruct H as [H|H]
         | In _ [] => destruct H
         | _ \/ _ => destruct H as [H|H]
         | False => destruct H
         | _ = _ => first [discriminate H | injection H as <- <-]
         end.

Section Buttons.

Context {World : Type}.
Variable tool : list string -> nat -> World -> Outcome CompletedProcess * World.
Variable fs_of : World -> FileSystem.

Lemma selector_controls (self : FileExplorer.Window) (w : World)
  (c : Control) (on : bool) :
  In (SetEnabled c on)
     (events (FileExplorer.update_branch_selector tool fs_of self w)) ->
  In c [BranchCombo; NewBranchButton; RenameBranchButton].
Proof.
  unfold FileExplorer.update_branch_selector.
  ui_go. destruct (is_git_repo (fs_of w) _); cbn [negb].
  2:{ ui_done. intros H. pick H; cbn; auto. }
  ui_go. ui_go. ui_go. ui_go. destruct a0 as [|b0 bs].
  - ui_done. intros H. pick H; cbn; auto.
  - ui_go. ui_go. destruct a as [b|]; [destruct (mem b (b0 :: bs))|];
      ui_done; intros H; pick H; cbn; auto.
Qed.

Lemma refresh_controls (self : FileExplorer.Window) (w : World)
  (c : Control) (on : bool) :
  In (SetEnabled c on)
     (events (FileExplorer.update_git_status_display tool fs_of self w)) ->
  In c [BranchCombo; NewBranchButton; RenameBranchButton].
Proof.
  unfold FileExplorer.update_git_status_display.
  ui_go. destruct (is_git_repo (fs_of w) _).
  2:{ ui_done. intros H. pick H; cbn; auto. }
  ui_go. ui_go. ui_go.
  match goal with
  | |- context [FileExplorer.update_branch_selector tool fs_of self ?w'] =>
      pose proof (selector_controls self w' c on) as Hs;
      destruct (selector_run tool fs_of self w') as (Hr & _);
      destruct (FileExplorer.update_branch_selector tool fs_of self w')
        as [o evs w2]
  end.
  cbn in Hr, Hs. subst o. unfold then_. cbn [returned events final].
  ui_events. intros H.
  pick H. exact (Hs H).
Qed.

(** Updating the tool bar never raises and runs nothing that changes
    the repository.  Each of the commit, pull and push actions is
    enabled exactly when the current path has the marker, and the
    refresh that follows touches none of the three. *)
Theorem git_actions_follow_marker (self : FileExplorer.Window) (w : World) :
  let p := FileExplorer.current_path self in
  let r := FileExplorer.update_git_buttons tool fs_of self w in
  returned r = Value tt
  /\ Forall (reads_only p) (commands (events r))
  /\ forall c on,
       In c [ActionGitCommit; ActionGitPull; ActionGitPush] ->
       (In (SetEnabled c on) (events r) <-> on = is_git_repo (fs_of w) p).
Proof.
  intros p r. unfold r, FileExplorer.update_git_buttons. fold p.
  repeat ui_go.
  destruct (refresh_run tool fs_of self w) as (Hr & Hc). fold p in Hc.
  pose proof (refresh_controls self w) as Hctl.
  destruct (FileExplorer.update_git_status_display tool fs_of self w)
    as [o evs w2].
  cbn in Hr, Hc, Hctl. subst o. ui_events.
  split; [reflexivity|]. split; [exact Hc|].
  intros c on Hin. split.
  - intros [H|[H|[H|H]]]; try (now injection H as _ <-).
    apply Hctl in H. cbn in Hin, H.
    destruct Hin as [<-|[<-|[<-|[]]]];
      repeat (destruct H as [H|H]; [discriminate H|]); destruct H.
  - intros ->. cbn in Hin. destruct Hin as [<-|[<-|[<-|[]]]]; cbn; tauto.
Qed.

End Buttons.

Section PathActions.

Context {World : Type}.
Variable tool : list string -> nat -> World -> Outcome CompletedProcess * World.
Variable fs_of : World -> FileSystem.

(** The pull and the push of the context menu never raise and do not
    look for the marker themselves: each runs its command in the chosen
    path exactly when its question, which comes first, was answered
    with yes.  The refresh that follows reads the window's current
    path, not the chosen one, and nothing else is run. *)
Theorem path_actions_skip_marker_check (self : FileExplorer.Window)
  (path : string) (reply_yes : bool) (w : World) :
  let p := FileExplorer.current_path self in
  let r1 := FileExplorer.git_pull_for_path tool fs_of self path reply_yes w in
  let r2 := FileExplorer.git_push_for_path tool fs_of self path reply_yes w in
  let pull := mkCall ["git"; "-C"; path; "pull"] 30 in
  let push := mkCall ["git"; "-C"; path; "push"] 30 in
  (returned r1 = Value tt /\ returned r2 = Value tt)
  /\ (In pull (commands (events r1)) <-> reply_yes = true)
  /\ (In push (commands (events r2)) <-> reply_yes = true)
  /\ Forall (fun c => c = pull \/ reads_only p c) (commands (events r1))
  /\ Forall (fun c => c = push \/ reads_only p c) (commands (events r2))
  /\ (exists text rest,
        events r1 = MessageBox Question "Git Pull" text :: rest)
  /\ (exists text rest,
        events r2 = MessageBox Question "Git Push" text :: rest).
Proof.
  intros p r1 r2 pull push.
  assert (H1 : returned r1 = Value tt
               /\ (In pull (commands (events r1)) <-> reply_yes = true)
               /\ Forall (fun c => c = pull \/ reads_only p c)
                    (commands (events r1))
               /\ exists text rest,
                    events r1 = MessageBox Question "Git Pull" text :: rest).
  { unfold r1, FileExplorer.git_pull_for_path. ui_go. destruct reply_yes.
    2:{ cbn. split; [reflexivity|]. split; [split; [intros [] | discriminate]|].
        split; [constructor|]. do 2 eexists. reflexivity. }
    ui_go. pose proof (pull_changes_calls tool path w) as Hcc. fold pull in Hcc.
    set (pl := pull_changes tool path w) in *. clearbody pl.
    destruct a as [success result].
    destruct (refresh_run tool fs_of self (world pl)) as (Hr & Hc).
    fold p in Hc.
    destruct success; ui_go; ui_events; rewrite Hr, Hcc; ui_events;
      (split; [reflexivity|]);
      (split; [split; [reflexivity | intros _; now left]|]);
      (split; [constructor; [now left | now apply reads_only_or]|]);
      do 2 eexists; reflexivity. }
  assert (H2 : returned r2 = Value tt
               /\ (In push (commands (events r2)) <-> reply_yes = true)
               /\ Forall (fun c => c = push \/ reads_only p c)
                    (commands (events r2))
               /\ exists text rest,
                    events r2 = MessageBox Question "Git Push" text :: rest).
  { unfold r2, FileExplorer.git_push_for_path. ui_go. destruct reply_yes.
    2:{ cbn. split; [reflexivity|]. split; [split; [intros [] | discriminate]|].
        split; [constructor|]. do 2 eexists. reflexivity. }
    ui_go. pose proof (push_changes_calls tool path w) as Hcc. fold push in Hcc.
    set (ps := push_changes tool path w) in *. clearbody ps.
    destruct a as [success result].
    destruct (refresh_run tool fs_of self (world ps)) as (Hr & Hc).
    fold p in Hc.
    destruct success; ui_go; ui_events; rewrite Hr, Hcc; ui_events;
      (split; [reflexivity|]);
      (split; [split; [reflexivity | intros _; now left]|]);
      (split; [constructor; [now left | now apply reads_only_or]|]);
      do 2 eexists; reflexivity. }
  tauto.
Qed.

End PathActions.

(** ** The main window: navigation *)

Section Navigation.

Variable fs : FileSystem.
Variable home : string.

Lemma go_back_after_push (self : FileExplorer.Window) (path : string) :
  FileExplorer.go_back
    (FileExplorer.mkWindow path
       (FileExplorer.history self ++ [FileExplorer.current_path self])
       (FileExplorer.is_authenticated self) (FileExplorer.git_username self))
  = self.
Proof.
  unfold FileExplorer.go_back. cbn [FileExplorer.history
    FileExplorer.current_path FileExplorer.is_authenticated
    FileExplorer.git_username].
  destruct (FileExplorer.history self ++ [FileExplorer.current_path self])
    eqn:E; [now destruct (FileExplorer.history self)|].
  rewrite <- E, last_last, removelast_last. now destruct self.
Qed.

Lemma handle_cases (self : FileExplorer.Window) (m : Move) :
  handle fs home self m = self
  \/ exists path,
       handle fs home self m
       = FileExplorer.mkWindow path
           (FileExplorer.history self ++ [FileExplorer.current_path self])
           (FileExplorer.is_authenticated self)
           (FileExplorer.git_username self).
Proof.
  destruct m as [text|path|path|[path|]|]; cbn [handle].
  - unfold FileExplorer.on_path_bar_entered.
    destruct (os_path_isdir fs (strip text)); eauto.
  - unfold FileExplorer._on_breadcrumb_clicked.
    destruct (os_path_isdir fs path); eauto.
  - unfold FileExplorer.on_double_click.
    destruct (os_path_isdir fs path); eauto.
  - unfold FileExplorer.sidebar_navigate. destruct (truthy path); eauto.
  - now left.
  - unfold FileExplorer.go_home.
    destruct (negb (String.eqb (FileExplorer.current_path self) home)); eauto.
Qed.

Lemma moves_retraced (moves : list Move) (self : FileExplorer.Window) :
  exists n,
    length (FileExplorer.history (fold_left (handle fs home) moves self))
    = length (FileExplorer.history self) + n
    /\ n <= length moves
    /\ Nat.iter n FileExplorer.go_back (fold_left (handle fs home) moves self)
       = self.
Proof.
  revert self. induction moves as [|m moves IH]; intros self.
  - exists 0. cbn. split; [lia|]. split; [lia | reflexivity].
  - cbn [fold_left length].
    destruct (IH (handle fs home self m)) as (n & Hlen & Hle & Hback).
    destruct (handle_cases self m) as [E | (path & E)].
    + rewrite E in *. exists n. split; [exact Hlen|]. split; [lia | exact Hback].
    + exists (S n). rewrite E in *.
      cbn [FileExplorer.history] in Hlen. rewrite length_app in Hlen.
      cbn [length] in Hlen.
      split; [rewrite Hlen; lia|]. split; [lia|].
      cbn [Nat.iter nat_rect].
      change (nat_rect _ ?x _ n) with (Nat.iter n FileExplorer.go_back x).
      rewrite Hback. apply go_back_after_push.
Qed.

(** Going back retraces the moves.  After any sequence of navigations
    (paths entered in the path bar, breadcrumbs, double clicks, places
    of the side bar, the home button) in a file system that does not
    change, the history has grown by one entry for each move that
    changed the window, and going back that many times restores the
    current path and the history the window started with. *)
Theorem go_back_retraces (moves : list Move) (self : FileExplorer.Window) :
  let self' := fold_left (handle fs home) moves self in
  let n := length (FileExplorer.history self')
           - length (FileExplorer.history self) in
  length (FileExplorer.history self') = length (FileExplorer.history self) + n
  /\ n <= length moves
  /\ Nat.iter n FileExplorer.go_back self' = self.
Proof.
  intros self' n.
  destruct (moves_retraced moves self) as (k & Hlen & Hle & Hback).
  fold self' in Hlen, Hback.
  assert (Hn : n = k) by (unfold n; lia).
  rewrite Hn. auto.
Qed.

End Navigation.
